(** * FraudGuard AI Pro: the risk-scoring engine

    A shallow embedding of the inference service
    ([services/inference-service/model_orchestration.py] and
    [inference_pipeline.py]) and of the feature mapping of the fraud
    detection API ([fraud_detection_api/app_advanced.py], [ml_engine.py],
    [app.py]), with the properties the specification states about them.

    Numbers.  Python's [float] is modelled by the rationals [Q]: sums,
    products and quotients are exact, comparisons are the rational ones.
    Rounding error is outside the model; the inequalities that decide a
    concrete case below hold with a margin far larger than binary64
    rounding.  Where a request brings the number ([float()] and [int()] on
    a field of the decoded JSON), the float may also be an infinity or NaN:
    these are the values of [pyfloat].

    Randomness.  [np.random.random()] and [random.uniform] are modelled by
    an explicit generator state: the sequence of draws the generator will
    produce and a cursor into it.

    Exceptions.  A call that can raise returns [result A]; the exception
    classes are the ones the source raises. *)

From Stdlib Require Import QArith Qminmax ZArith Lia Bool.
From Stdlib Require DecimalString.
From Stdlib Require Import Lqa.
From stdpp Require Import gmap strings list fin_maps.

Local Open Scope string_scope.

(** * Part I: the program *)

(** ** Exceptions and the error monad *)

Inductive pyerr : Type :=
| ValueError (msg : string)
| KeyError (key : string)
| TypeError
| AttributeError
| OverflowError
| ZeroDivisionError.

Definition result (A : Type) : Type := (pyerr + A)%type.

Definition ok {A} (a : A) : result A := inr a.
Definition raise {A} (e : pyerr) : result A := inl e.

Definition rbind {A B} (c : result A) (k : A → result B) : result B :=
  match c with
  | inl e => inl e
  | inr a => k a
  end.

Notation "'let*' x ':=' c 'in' k" := (rbind c (fun x => k))
  (at level 10, x name, c at level 100, k at level 200).

Definition succeeds {A} (c : result A) : Prop := ∃ a, c = inr a.

(** [d[k]] on a dictionary: [KeyError] when the key is absent. *)
Definition getitem {V} (d : gmap string V) (k : string) : result V :=
  match d !! k with
  | Some v => ok v
  | None => raise (KeyError k)
  end.

(** ** Rational comparisons as booleans *)

Definition Qleb (x y : Q) : bool := Qle_bool x y.
Definition Qltb (x y : Q) : bool := negb (Qle_bool y x).

(** ** Floats that may not be finite

    A [float] that comes out of a request is a finite number, an infinity
    or NaN: Python's JSON decoder reads [NaN], [Infinity] and [-Infinity],
    and [float()] reads strings such as ["inf"] and ["nan"]. *)
Inductive pyfloat : Type :=
| Finite (q : Q)
| Infinite (negative : bool)
| NaN.

(** [x > c] for a finite constant [c]; a comparison with NaN is false. *)
Definition f_gt (x : pyfloat) (c : Q) : bool :=
  match x with
  | Finite q => Qltb c q
  | Infinite negative => negb negative
  | NaN => false
  end.

(** The IEEE 754 quotient by a divisor that is not zero. *)
Definition f_div (x y : pyfloat) : pyfloat :=
  match x, y with
  | NaN, _ | _, NaN => NaN
  | Infinite _, Infinite _ => NaN
  | Infinite negative, Finite q => Infinite (xorb negative (Qltb q 0))
  | Finite _, Infinite _ => Finite 0
  | Finite p, Finite q => Finite (p / q)
  end.

(** [x / y] on floats: Python raises on a zero divisor. *)
Definition py_truediv (x y : pyfloat) : result pyfloat :=
  match y with
  | Finite q => if Qeq_bool q 0 then raise ZeroDivisionError else ok (f_div x y)
  | _ => ok (f_div x y)
  end.

(** ** The random generator *)

Record rng : Type := mkRng {
  draws : nat → Q;   (* the values successive calls will return *)
  cursor : nat       (* how many have been consumed *)
}.

(** [np.random.random()] / [random.random()] *)
Definition random (g : rng) : Q * rng :=
  (draws g (cursor g), mkRng (draws g) (S (cursor g))).

(** [random.uniform(a, b)] is [a + (b - a) * random()]. *)
Definition uniform (a b : Q) (g : rng) : Q * rng :=
  let '(u, g') := random g in ((a + (b - a) * u)%Q, g').

(** ** model_orchestration.py *)

Inductive ModelType : Type :=
| RANDOM_FOREST
| GRADIENT_BOOSTING
| NEURAL_NETWORK
| ISOLATION_FOREST
| LSTM.

Definition ModelType_value (t : ModelType) : string :=
  match t with
  | RANDOM_FOREST => "random_forest"
  | GRADIENT_BOOSTING => "gradient_boosting"
  | NEURAL_NETWORK => "neural_network"
  | ISOLATION_FOREST => "isolation_forest"
  | LSTM => "lstm"
  end.

Record ModelMetadata : Type := mkModelMetadata {
  model_id : string;
  model_type : ModelType;
  version : string;
  accuracy : Q;
  precision : Q;
  recall : Q;
  f1_score : Q;
  last_trained : string;
  is_active : bool
}.

(** [metadata.is_active = b] on the stored object. *)
Definition set_is_active (b : bool) (m : ModelMetadata) : ModelMetadata :=
  mkModelMetadata (model_id m) (model_type m) (version m) (accuracy m)
    (precision m) (recall m) (f1_score m) (last_trained m) b.

(** [PredictionResult]; its [explanation] is the same constant dictionary
    for every prediction and is left out. *)
Record PredictionResult : Type := mkPredictionResult {
  pr_model_id : string;
  pr_model_type : ModelType;
  fraud_probability : Q;
  confidence_score : Q
}.

Record ModelOrchestrator : Type := mkOrchestrator {
  models : gmap string ModelMetadata;
  model_weights : gmap string Q;
  active_models : list string
}.

(** [ModelOrchestrator.__init__] *)
Definition new_orchestrator : ModelOrchestrator :=
  mkOrchestrator ∅ ∅ [].

Definition register_model (metadata : ModelMetadata) (weight : Q)
    (o : ModelOrchestrator) : ModelOrchestrator :=
  mkOrchestrator
    (<[model_id metadata := metadata]> (models o))
    (<[model_id metadata := weight]> (model_weights o))
    (if is_active metadata
     then active_models o ++ [model_id metadata]
     else active_models o).

Definition get_model_metadata (mid : string) (o : ModelOrchestrator)
    : option ModelMetadata :=
  models o !! mid.

(** The list comprehension [[self.models[mid] for mid in self.active_models]]. *)
Fixpoint lookup_all (d : gmap string ModelMetadata) (ids : list string)
    : result (list ModelMetadata) :=
  match ids with
  | [] => ok []
  | mid :: rest =>
      let* m := getitem d mid in
      let* ms := lookup_all d rest in
      ok (m :: ms)
  end.

Definition list_active_models (o : ModelOrchestrator)
    : result (list ModelMetadata) :=
  lookup_all (models o) (active_models o).

(** [list.remove(x)]: drops the first occurrence only. *)
Fixpoint list_remove (x : string) (l : list string) : list string :=
  match l with
  | [] => []
  | y :: rest => if bool_decide (x = y) then rest else y :: list_remove x rest
  end.

Definition in_list (x : string) (l : list string) : bool :=
  bool_decide (x ∈ l).

Definition in_dict {V} (k : string) (d : gmap string V) : bool :=
  bool_decide (is_Some (d !! k)).

Definition update_model_weights (weights : list (string * Q))
    (o : ModelOrchestrator) : ModelOrchestrator :=
  fold_left
    (fun acc kv =>
       if in_dict (fst kv) (models acc)
       then mkOrchestrator (models acc)
              (<[fst kv := snd kv]> (model_weights acc)) (active_models acc)
       else acc)
    weights o.

(** [self.models[model_id]] comes after the removal from the active list
    and would raise [KeyError] on an active id that is not registered. *)
Definition deactivate_model (mid : string) (o : ModelOrchestrator)
    : result ModelOrchestrator :=
  if in_list mid (active_models o) then
    let active' := list_remove mid (active_models o) in
    let* m := getitem (models o) mid in
    ok (mkOrchestrator (<[mid := set_is_active false m]> (models o))
          (model_weights o) active')
  else ok o.

Definition activate_model (mid : string) (o : ModelOrchestrator)
    : ModelOrchestrator :=
  if in_dict mid (models o) && negb (in_list mid (active_models o)) then
    mkOrchestrator (alter (set_is_active true) mid (models o))
      (model_weights o) (active_models o ++ [mid])
  else o.

(** [_predict_with_model]: the placeholder draws the probability from the
    generator and takes the model's accuracy as confidence. *)
Definition _predict_with_model (o : ModelOrchestrator) (mid : string)
    (features : list Q) (g : rng) : result (PredictionResult * rng) :=
  let* metadata := getitem (models o) mid in
  let '(p, g') := random g in
  ok (mkPredictionResult mid (model_type metadata) p (accuracy metadata), g').

(** The accumulators of the loop in [ensemble_predict]. *)
Record ensemble_acc : Type := mkAcc {
  predictions : list PredictionResult;
  weighted_sum : Q;
  total_weight : Q;
  gen : rng
}.

Definition ensemble_step (o : ModelOrchestrator) (features : list Q)
    (acc : ensemble_acc) (mid : string) : result ensemble_acc :=
  let* drawn := _predict_with_model o mid features (gen acc) in
  let prediction := fst drawn in
  let* weight := getitem (model_weights o) mid in
  ok (mkAcc (predictions acc ++ [prediction])
        (weighted_sum acc + fraud_probability prediction * weight)%Q
        (total_weight acc + weight)%Q
        (snd drawn)).

Fixpoint ensemble_loop (o : ModelOrchestrator) (features : list Q)
    (ids : list string) (acc : ensemble_acc) : result ensemble_acc :=
  match ids with
  | [] => ok acc
  | mid :: rest =>
      let* acc' := ensemble_step o features acc mid in
      ensemble_loop o features rest acc'
  end.

Record ensemble_details : Type := mkDetails {
  ensemble_fraud_probability : Q;
  individual_predictions : list PredictionResult;
  model_count : nat
}.

Definition no_active_models : pyerr :=
  ValueError "No active models available for prediction".

Definition ensemble_predict (o : ModelOrchestrator) (features : list Q)
    (g : rng) : result (Q * ensemble_details * rng) :=
  match active_models o with
  | [] => raise no_active_models
  | _ =>
      let* acc := ensemble_loop o features (active_models o)
                    (mkAcc [] 0 0 g) in
      let ensemble_probability :=
        if Qltb 0 (total_weight acc)
        then (weighted_sum acc / total_weight acc)%Q
        else 0%Q in
      ok (ensemble_probability,
          mkDetails ensemble_probability (predictions acc)
            (length (predictions acc)),
          gen acc)
  end.

(** ** inference_pipeline.py *)

Record TransactionFeatures : Type := mkTransactionFeatures {
  transaction_id : string;
  transaction_amount : Q;
  merchant_id : string;
  merchant_category : string;
  user_id : string;
  user_location : string;
  transaction_time : string;
  device_fingerprint : string;
  ip_address : string;
  card_last_four : string
}.

Inductive Recommendation : Type :=
| APPROVE
| BLOCK
| REVIEW
| CHALLENGE.

(** [FraudDetectionResult].  The fields [confidence] (a square root of the
    variance of the predictions), [processing_time_ms] and [timestamp] (wall
    clock) carry no rational value and are left out. *)
Record FraudDetectionResult : Type := mkFraudDetectionResult {
  res_transaction_id : string;
  res_fraud_probability : Q;
  risk_score : Q;
  is_flagged : bool;
  model_predictions : ensemble_details;
  recommendation : Recommendation
}.

Record InferencePipeline : Type := mkPipeline {
  orchestrator : ModelOrchestrator;
  fraud_threshold : Q;
  risk_score_threshold : Q;
  inference_count : nat;
  total_inference_time : Q
}.

(** [InferencePipeline.__init__], with its default thresholds. *)
Definition new_pipeline_with (fraud_thr risk_thr : Q) : InferencePipeline :=
  mkPipeline new_orchestrator fraud_thr risk_thr 0 0.

Definition new_pipeline : InferencePipeline := new_pipeline_with 0.5 70.

(** The three models [setup_models] registers, each with weight 1.0. *)
Definition rf_v1 : ModelMetadata :=
  mkModelMetadata "rf_v1" RANDOM_FOREST "1.0" 0.92 0.89 0.91 0.90
    "2024-01-15" true.
Definition gb_v1 : ModelMetadata :=
  mkModelMetadata "gb_v1" GRADIENT_BOOSTING "1.0" 0.94 0.92 0.93 0.92
    "2024-01-16" true.
Definition if_v1 : ModelMetadata :=
  mkModelMetadata "if_v1" ISOLATION_FOREST "1.0" 0.88 0.85 0.87 0.86
    "2024-01-17" true.

(** The pipeline after its orchestrator has been brought to state [o]: the
    administrative calls act on [pipeline.orchestrator] in place. *)
Definition set_orchestrator (o : ModelOrchestrator) (pl : InferencePipeline)
    : InferencePipeline :=
  mkPipeline o (fraud_threshold pl) (risk_score_threshold pl)
    (inference_count pl) (total_inference_time pl).

Definition setup_models (pl : InferencePipeline) : InferencePipeline :=
  set_orchestrator
    (fold_left (fun o m => register_model m 1 o) [rf_v1; gb_v1; if_v1]
       (orchestrator pl))
    pl.

Definition _assess_amount_risk (amount : Q) : Q :=
  if Qltb 10000 amount then 80
  else if Qltb 5000 amount then 60
  else if Qltb 1000 amount then 30
  else 10.

(** Placeholder in the source: the location is not inspected. *)
Definition _assess_location_risk (location : string) : Q := 20.

(** Placeholder in the source: the time is not inspected. *)
Definition _assess_time_risk (time : string) : Q := 15.

Definition clamp (x lo hi : Q) : Q := Qmin hi (Qmax lo x).

Definition _calculate_risk_score (probability : Q)
    (features : TransactionFeatures) : Q :=
  let base_score := (probability * 100)%Q in
  let amount_risk := _assess_amount_risk (transaction_amount features) in
  let location_risk := _assess_location_risk (user_location features) in
  let time_risk := _assess_time_risk (transaction_time features) in
  let score :=
    (base_score * 0.5 + amount_risk * 0.2 + location_risk * 0.2
     + time_risk * 0.1)%Q in
  Qmin 100 (Qmax 0 score).

Definition _generate_recommendation (probability score : Q) (flagged : bool)
    : Recommendation :=
  if negb flagged then APPROVE
  else if Qltb 0.8 probability || Qltb 90 score then BLOCK
  else if Qltb 0.6 probability || Qltb 75 score then REVIEW
  else CHALLENGE.

(** Lines 149-156 of [process_transaction]: the flag and the recommendation
    drawn from a probability and a risk score. *)
Definition flag_of (p : InferencePipeline) (probability score : Q) : bool :=
  Qleb (fraud_threshold p) probability || Qleb (risk_score_threshold p) score.

Definition decide_transaction (p : InferencePipeline) (probability score : Q)
    : bool * Recommendation :=
  let flagged := flag_of p probability score in
  (flagged, _generate_recommendation probability score flagged).

Section Pipeline.

(** Python's [hash] on strings is salted per process. *)
Variable py_hash : string → Z.

Definition to_feature_vector (f : TransactionFeatures) : list Q :=
  [ transaction_amount f;
    inject_Z (py_hash (merchant_id f) mod 1000);
    inject_Z (py_hash (merchant_category f) mod 100);
    inject_Z (py_hash (user_id f) mod 10000);
    inject_Z (py_hash (user_location f) mod 1000);
    inject_Z (py_hash (device_fingerprint f) mod 10000) ].

(** [elapsed_ms] is the wall-clock duration the call measures. *)
Definition process_transaction (p : InferencePipeline)
    (features : TransactionFeatures) (elapsed_ms : Q) (g : rng)
    : result (FraudDetectionResult * InferencePipeline * rng) :=
  let feature_vector := to_feature_vector features in
  let* predicted := ensemble_predict (orchestrator p) feature_vector g in
  let probability := fst (fst predicted) in
  let score := _calculate_risk_score probability features in
  let decided := decide_transaction p probability score in
  ok (mkFraudDetectionResult (transaction_id features) probability score
        (fst decided) (snd (fst predicted)) (snd decided),
      mkPipeline (orchestrator p) (fraud_threshold p)
        (risk_score_threshold p) (S (inference_count p))
        (total_inference_time p + elapsed_ms)%Q,
      snd predicted).

End Pipeline.

(** ** fraud_detection_api/app.py: the five risk tiers *)

Definition get_risk_level (score : Q) : string * string :=
  if Qleb 80 score then ("خطر عالي جداً", "red")
  else if Qleb 60 score then ("خطر عالي", "orange")
  else if Qleb 40 score then ("خطر متوسط", "yellow")
  else if Qleb 20 score then ("خطر منخفض", "blue")
  else ("آمن", "green").

(** ** fraud_detection_api/app_advanced.py: from a request to the row
       handed to the engine *)

(** Python's [k in s] on strings.  Strings are sequences of UTF-8 bytes
    here; a substring of code points is a substring of bytes and back. *)
Fixpoint contains (k s : string) : bool :=
  String.prefix k s ||
  match s with
  | EmptyString => false
  | String _ rest => contains k rest
  end.

(** Lowering of the ASCII letters, which is what [str.lower()] does on
    ASCII text (on other text [str.lower()] follows the Unicode tables and
    is a parameter of the code below, [str_lower]).  The keywords are in
    lower case already. *)
Definition lower_ascii (c : Ascii.ascii) : Ascii.ascii :=
  let n := Ascii.N_of_ascii c in
  if (65 <=? n)%N && (n <=? 90)%N then Ascii.ascii_of_N (n + 32) else c.

Fixpoint lower (s : string) : string :=
  match s with
  | EmptyString => EmptyString
  | String c rest => String (lower_ascii c) (lower rest)
  end.

(** The keyword set of [map_transaction_to_ml_format] (app_advanced.py). *)
Definition suspicious_keywords : list string :=
  ["غير معروف"; "مجهول"; "unknown"; "خارج"].

Definition matches_suspicious (location : string) : bool :=
  existsb (fun k => contains k (lower location)) suspicious_keywords.

(** The values of a decoded JSON request; lists and objects are opaque. *)
Inductive pyval : Type :=
| PNone
| PBool (b : bool)
| PInt (z : Z)
| PFloat (x : pyfloat)
| PStr (s : string)
| PList
| PDict.

(** [d.get(k, default)] *)
Definition dict_get (d : gmap string pyval) (k : string) (dflt : pyval)
    : pyval :=
  default dflt (d !! k).

(** The row [map_transaction_to_ml_format] returns. *)
Record ml_row : Type := mkRow {
  ml_amount : pyfloat;
  ml_balance : pyfloat;
  ml_age : Z;
  ml_transaction_type : pyval;
  ml_payment_method : pyval;
  ml_hour : Z;
  ml_day_of_week : Z;
  ml_location_risk : Q;
  ml_device_trust : Q
}.

Definition Q_of_bool (b : bool) : Q := if b then 1%Q else 0%Q.

(** [float()] converts the integers that round to a binary64 number, those
    below [2^1024 - 2^970] in absolute value, and raises on the others. *)
Definition float_int_limit : Z := (2 ^ 1024 - 2 ^ 970)%Z.

Section Mapping.

(** Python's [str.lower()]. *)
Variable str_lower : string → string.

(** Python's [float(s)] and [int(s)] on a string: the number it spells, or
    the message of the [ValueError] when it spells none. *)
Variable float_of_string : string → string + pyfloat.
Variable int_of_string : string → string + Z.

(** [v.lower()]: only strings have the method. *)
Definition py_lower (v : pyval) : result string :=
  match v with
  | PStr s => ok (str_lower s)
  | _ => raise AttributeError
  end.

(** [float(v)] *)
Definition py_float (v : pyval) : result pyfloat :=
  match v with
  | PBool b => ok (Finite (Q_of_bool b))
  | PInt z =>
      if (Z.abs z <? float_int_limit)%Z then ok (Finite (inject_Z z))
      else raise OverflowError
  | PFloat x => ok x
  | PStr s =>
      match float_of_string s with
      | inr x => ok x
      | inl msg => raise (ValueError msg)
      end
  | PNone | PList | PDict => raise TypeError
  end.

(** [int(v)]: a finite float is truncated towards zero. *)
Definition py_int (v : pyval) : result Z :=
  match v with
  | PBool b => ok (if b then 1 else 0)%Z
  | PInt z => ok z
  | PFloat (Finite q) => ok (Z.quot (Qnum q) (Zpos (Qden q)))
  | PFloat (Infinite _) => raise OverflowError
  | PFloat NaN => raise (ValueError "cannot convert float NaN to integer")
  | PStr s =>
      match int_of_string s with
      | inr z => ok z
      | inl msg => raise (ValueError msg)
      end
  | PNone | PList | PDict => raise TypeError
  end.

(** [hour] and [day_of_week] are [datetime.now()]'s. *)
Definition map_transaction_to_ml_format (transaction_data : gmap string pyval)
    (hour day_of_week : Z) (g : rng) : result (ml_row * rng) :=
  let* location := py_lower (dict_get transaction_data "location" (PStr "")) in
  let lr :=
    if existsb (fun k => contains k location) suspicious_keywords
    then (0.8%Q, g) else uniform 0.1 0.3 g in
  let* device_id :=
    py_lower (dict_get transaction_data "device_id" (PStr "")) in
  let dt :=
    if existsb (fun k => contains k device_id) ["unknown"; "غير"; "000"]
    then (0.2%Q, snd lr) else uniform 0.7 0.95 (snd lr) in
  let* amount := py_float (dict_get transaction_data "amount" (PInt 0)) in
  let* balance := py_float (dict_get transaction_data "balance" (PInt 0)) in
  let* age := py_int (dict_get transaction_data "age" (PInt 30)) in
  ok (mkRow amount balance age
        (dict_get transaction_data "transaction_type" (PStr "شراء"))
        (dict_get transaction_data "payment_method" (PStr "بطاقة_ائتمان"))
        hour day_of_week (fst lr) (fst dt),
      snd dt).

End Mapping.

(** The head of the [/api/analyze] endpoint: the check of the required
    fields, then the mapping.  A missing required field is answered with
    status 400 and an exception with status 500; [Mapped] is the point
    where the endpoint hands the row to the engine. *)
Definition required_fields : list string :=
  ["transaction_id"; "amount"; "balance"].

Inductive analyze_outcome : Type :=
| Rejected400 (field : string)
| Failed500 (e : pyerr)
| Mapped (ml_data : ml_row).

Definition analyze_transaction (str_lower : string → string)
    (float_of_string : string → string + pyfloat)
    (int_of_string : string → string + Z)
    (data : gmap string pyval) (hour day_of_week : Z) (g : rng)
    : analyze_outcome :=
  match List.find (fun field => negb (in_dict field data)) required_fields with
  | Some field => Rejected400 field
  | None =>
      match map_transaction_to_ml_format str_lower float_of_string
              int_of_string data hour day_of_week g with
      | inl err => Failed500 err
      | inr out => Mapped (fst out)
      end
  end.

(** * Part II: the vocabulary of the properties *)

(** ** Sequences of administrative calls and the registry invariant *)

(** The administrative calls of the registry. *)
Inductive admin_op : Type :=
| Register (metadata : ModelMetadata) (weight : Q)
| Activate (mid : string)
| Deactivate (mid : string)
| UpdateWeights (weights : list (string * Q)).

Definition apply_op (op : admin_op) (o : ModelOrchestrator)
    : result ModelOrchestrator :=
  match op with
  | Register metadata weight => ok (register_model metadata weight o)
  | Activate mid => ok (activate_model mid o)
  | Deactivate mid => deactivate_model mid o
  | UpdateWeights weights => ok (update_model_weights weights o)
  end.

Fixpoint run_ops (ops : list admin_op) (o : ModelOrchestrator)
    : result ModelOrchestrator :=
  match ops with
  | [] => ok o
  | op :: rest => let* o' := apply_op op o in run_ops rest o'
  end.

(** Every active id is a registered id. *)
Definition active_registered (o : ModelOrchestrator) : Prop :=
  ∀ mid, mid ∈ active_models o → is_Some (models o !! mid).

(** Every registered id has a stored weight. *)
Definition weights_registered (o : ModelOrchestrator) : Prop :=
  ∀ mid, is_Some (models o !! mid) → is_Some (model_weights o !! mid).

Definition weights_nonneg (o : ModelOrchestrator) : Prop :=
  ∀ mid w, model_weights o !! mid = Some w → (0 <= w)%Q.

Definition registry_ok (o : ModelOrchestrator) : Prop :=
  active_registered o ∧ weights_registered o.

(** The weights a call supplies. *)
Definition supplied_nonneg (op : admin_op) : Prop :=
  match op with
  | Register _ weight => (0 <= weight)%Q
  | UpdateWeights weights => Forall (fun kv => (0 <= snd kv)%Q) weights
  | Activate _ | Deactivate _ => True
  end.

(** How often an id is listed. *)
Definition occurrences (x : string) (l : list string) : nat :=
  length (filter (fun y => y = x) l).

(** ** The weighted average *)

(** The next [n] values the generator returns. *)
Fixpoint take_draws (g : rng) (n : nat) : list Q :=
  match n with
  | O => []
  | S n' => fst (random g) :: take_draws (snd (random g)) n'
  end.

Definition Qsum (l : list Q) : Q := foldr Qplus 0%Q l.

Definition weight_of (o : ModelOrchestrator) (mid : string) : Q :=
  default 0%Q (model_weights o !! mid).

(** The weights of the active models, in the order of the active list (an
    id listed twice contributes twice). *)
Definition active_weights (o : ModelOrchestrator) : list Q :=
  map (weight_of o) (active_models o).

(** The formula of the specification: [Σ(weight_i × probability_i) /
    Σ(weight_i)]. *)
Definition weighted_average (ws ps : list Q) : Q :=
  (Qsum (zip_with Qmult ws ps) / Qsum ws)%Q.

Definition probabilities (d : ensemble_details) : list Q :=
  map fraud_probability (individual_predictions d).

Definition predicted_ids (d : ensemble_details) : list string :=
  map pr_model_id (individual_predictions d).

(** ** The risk formula of the specification *)

(** The tiers of the amount risk, as the specification lists them. *)
Definition amount_tier (amount risk : Q) : Prop :=
  ((10000 < amount)%Q ∧ risk = 80%Q)
  ∨ ((amount <= 10000)%Q ∧ (5000 < amount)%Q ∧ risk = 60%Q)
  ∨ ((amount <= 5000)%Q ∧ (1000 < amount)%Q ∧ risk = 30%Q)
  ∨ ((amount <= 1000)%Q ∧ risk = 10%Q).

(** The formula as the specification words it: the location risk is 80 on
    a suspicious location and a baseline below that otherwise; the time
    risk is some function of the transaction time. *)
Definition spec_location_risk (baseline : Q) (location : string) : Q :=
  if matches_suspicious location then 80 else baseline.

Definition spec_risk_score (baseline : Q) (time_risk : string → Q)
    (probability : Q) (t : TransactionFeatures) : Q :=
  clamp
    (probability * 100 * 0.5
     + _assess_amount_risk (transaction_amount t) * 0.2
     + spec_location_risk baseline (user_location t) * 0.2
     + time_risk (transaction_time t) * 0.1)%Q
    0 100.

Definition risk_score_follows_spec : Prop :=
  ∃ (baseline : Q) (time_risk : string → Q),
    (baseline < 80)%Q
    ∧ ∀ p t, (_calculate_risk_score p t == spec_risk_score baseline time_risk p t)%Q.

(** ** Fields of a request *)

(** A field is absent or converts. *)
Definition absent_or_converts {A} (conv : pyval → result A)
    (field : option pyval) : Prop :=
  match field with
  | None => True
  | Some v => succeeds (conv v)
  end.

(** A field is present and its conversion raises. *)
Definition present_and_rejected {A} (conv : pyval → result A)
    (field : option pyval) : Prop :=
  ∃ v e, field = Some v ∧ conv v = inl e.

Definition absent_or_text (field : option pyval) : Prop :=
  match field with
  | None | Some (PStr _) => True
  | Some _ => False
  end.

(** The exception [float()] or [int()] raises on a value of a request, by
    the kind of the value: [TypeError] on [None], a list or an object,
    [ValueError] on a string or on NaN, [OverflowError] on an integer
    beyond the floats or on an infinity. *)
Inductive conversion_error : pyval → pyerr → Prop :=
| error_not_a_number (v : pyval) :
    v = PNone ∨ v = PList ∨ v = PDict → conversion_error v TypeError
| error_bad_text (s msg : string) :
    conversion_error (PStr s) (ValueError msg)
| error_too_large (z : Z) :
    (float_int_limit ≤ Z.abs z)%Z → conversion_error (PInt z) OverflowError
| error_nan :
    conversion_error (PFloat NaN)
      (ValueError "cannot convert float NaN to integer")
| error_infinity (negative : bool) :
    conversion_error (PFloat (Infinite negative)) OverflowError.

(** ** Concrete registries, generators, transactions and requests *)

Definition example_ops : list admin_op :=
  [ Register rf_v1 1; Register gb_v1 1; Deactivate "rf_v1";
    UpdateWeights [("gb_v1", 0.5%Q); ("lstm_v9", 2%Q)]; Activate "rf_v1" ].

Definition example_draws : rng :=
  mkRng (fun n => match n with O => 0.8 | _ => 0.9 end)%Q 0.

Definition one_model : ModelOrchestrator :=
  register_model rf_v1 1 new_orchestrator.

(** [rf_v1] registered again, as version 2.0 and with weight 3. *)
Definition rf_v2 : ModelMetadata :=
  mkModelMetadata "rf_v1" RANDOM_FOREST "2.0" 0.95 0.93 0.94 0.93
    "2024-02-01" true.

(** The same descriptor with [is_active=False]. *)
Definition rf_v2_inactive : ModelMetadata :=
  mkModelMetadata "rf_v1" RANDOM_FOREST "2.0" 0.95 0.93 0.94 0.93
    "2024-02-01" false.

(** One model, registered twice by the same call. *)
Definition registered_twice : ModelOrchestrator :=
  register_model rf_v1 1 one_model.

(** Two active models, each with weight 1.0. *)
Definition two_models : ModelOrchestrator :=
  register_model gb_v1 1 (register_model rf_v1 1 new_orchestrator).

Definition two_model_pipeline : InferencePipeline :=
  set_orchestrator two_models new_pipeline.

Definition zero_weighted : ModelOrchestrator :=
  update_model_weights [("rf_v1", 0%Q); ("gb_v1", 0%Q); ("if_v1", 0%Q)]
    (orchestrator (setup_models new_pipeline)).

Definition example_transaction : TransactionFeatures :=
  mkTransactionFeatures "txn_12345" 1500 "merch_001" "Electronics" "user_001"
    "New York, USA" "2024-01-20T10:30:00Z" "device_abc123" "192.168.1.1"
    "4242".

Definition at_unknown : TransactionFeatures :=
  mkTransactionFeatures "txn_1" 0 "merch_001" "Electronics" "user_001"
    "unknown" "2024-01-20T03:00:00Z" "device_abc123" "192.168.1.1" "4242".

Definition at_new_york : TransactionFeatures :=
  mkTransactionFeatures "txn_1" 0 "merch_001" "Electronics" "user_001"
    "New York, USA" "2024-01-20T03:00:00Z" "device_abc123" "192.168.1.1" "4242".

(** The transaction of the scenario.  [TransactionFeatures] has no balance,
    age or type; the hour 3 is in the time stamp. *)
Definition scenario (tid merchant category user device ip card : string)
    : TransactionFeatures :=
  mkTransactionFeatures tid 75000 merchant category user "unknown"
    "2024-01-20T03:00:00Z" device ip card.

Definition scenario_result (tid : string) : FraudDetectionResult :=
  mkFraudDetectionResult tid
    ((0 + 0.8 * 1 + 0.9 * 1) / (0 + 1 + 1))%Q
    (_calculate_risk_score ((0 + 0.8 * 1 + 0.9 * 1) / (0 + 1 + 1))%Q
       (scenario tid "" "" "" "" "" ""))
    true
    (mkDetails ((0 + 0.8 * 1 + 0.9 * 1) / (0 + 1 + 1))%Q
       [ mkPredictionResult "rf_v1" RANDOM_FOREST 0.8 0.92;
         mkPredictionResult "gb_v1" GRADIENT_BOOSTING 0.9 0.94 ]
       2)
    BLOCK.

(** A request with no age; it passes the endpoint's check of the required
    fields. *)
Definition request_without_age : gmap string pyval :=
  <["transaction_id" := PStr "TXN1"]>
    (<["amount" := PInt 100]> (<["balance" := PInt 1000]> ∅)).

(** The amount is sent as the string "abc". *)
Definition request_bad_amount : gmap string pyval :=
  <["transaction_id" := PStr "TXN2"]>
    (<["amount" := PStr "abc"]> (<["balance" := PStr "1000"]> ∅)).

(** The location is sent as a number. *)
Definition request_bad_location : gmap string pyval :=
  <["transaction_id" := PStr "TXN4"]>
    (<["amount" := PStr "abc"]>
       (<["balance" := PInt 1000]> (<["location" := PInt 7]> ∅))).

(** The amount is an integer of 401 digits. *)
Definition request_huge_amount : gmap string pyval :=
  <["transaction_id" := PStr "TXN5"]>
    (<["amount" := PInt (10 ^ 400)]> (<["balance" := PInt 1000]> ∅)).

(** Readers of plain signed decimal integers, for requests whose strings
    are such integers of a few digits or ["abc"].  Python's [int()] and [float()] read these
    integers to the same number, and raise with these messages on
    ["abc"]. *)
Definition read_int (s : string) : string + Z :=
  match DecimalString.NilZero.int_of_string s with
  | Some d => inr (Z.of_int d)
  | None => inl ("invalid literal for int() with base 10: '" ++ s ++ "'")
  end.

Definition read_float (s : string) : string + pyfloat :=
  match DecimalString.NilZero.int_of_string s with
  | Some d => inr (Finite (inject_Z (Z.of_int d)))
  | None => inl ("could not convert string to float: '" ++ s ++ "'")
  end.

(** * Further code of the cited files *)

(** ** inference_pipeline.py: statistics *)

Record pipeline_statistics : Type := mkStatistics {
  total_inferences : nat;
  total_inference_time_ms : Q;
  average_inference_time_ms : Q;
  throughput_per_second : Q;
  stat_active_models : nat
}.

Definition get_pipeline_statistics (pl : InferencePipeline)
    : pipeline_statistics :=
  let avg_inference_time :=
    if (0 <? inference_count pl)%nat
    then (total_inference_time pl
          / inject_Z (Z.of_nat (inference_count pl)))%Q
    else 0%Q in
  mkStatistics (inference_count pl) (total_inference_time pl)
    avg_inference_time
    (if Qltb 0 avg_inference_time then (1000 / avg_inference_time)%Q else 0%Q)
    (length (active_models (orchestrator pl))).

(** ** fraud_detection_api/app.py: the rule engine *)

(** [FraudDetectionEngine]: its only state is the table [risk_weights]. *)
Record FraudDetectionEngine : Type := mkFraudDetectionEngine {
  w_amount_ratio : Q;
  w_transaction_type : Q;
  w_location : Q;
  w_payment_method : Q;
  w_age_factor : Q;
  w_device_trust : Q;
  w_time_pattern : Q
}.

(** [FraudDetectionEngine.__init__] *)
Definition fraud_engine : FraudDetectionEngine :=
  mkFraudDetectionEngine 0.25 0.20 0.15 0.15 0.10 0.10 0.05.

(** [v in l] for a list [l] of strings: only a string equals a string. *)
Definition py_in_strings (v : pyval) (l : list string) : bool :=
  match v with
  | PStr s => bool_decide (s ∈ l)
  | _ => false
  end.

(** [v == s] for a string [s]. *)
Definition py_eq_string (v : pyval) (s : string) : bool :=
  match v with
  | PStr s' => bool_decide (s' = s)
  | _ => false
  end.

(** The f-string [f"{prefix}{v}"], used where [v] is known to be a string. *)
Definition fmt_suffix (prefix : string) (v : pyval) : string :=
  match v with
  | PStr s => prefix ++ s
  | _ => prefix
  end.

Definition high_risk_types : list string := ["تحويل_دولي"; "سحب_نقدي"].
Definition medium_risk_types : list string := ["تحويل_محلي"; "شراء_أونلاين"].
Definition suspicious_locations : list string :=
  ["غير معروف"; "خارج البلاد"; "مجهول"; "unknown"].
Definition suspicious_devices : list string :=
  ["unknown"; "غير معروف"; "000"; "suspicious"].

(** The running pair [risk_score], [risk_factors]. *)
Definition add_risk (points : Q) (factor : string) (acc : Q * list string)
    : Q * list string :=
  ((fst acc + points)%Q, (snd acc ++ [factor])%list).

(** [calculate_risk_score]; [current_hour] is [datetime.datetime.now().hour],
    [str_lower] is Python's [str.lower()] and the two readers are Python's
    [float] and [int] on strings. *)
Definition calculate_risk_score (str_lower : string → string)
    (float_of_string : string → string + pyfloat)
    (int_of_string : string → string + Z) (self : FraudDetectionEngine)
    (transaction_data : gmap string pyval) (current_hour : Z)
    : result (Q * list string) :=
  let acc0 : Q * list string := (0%Q, []) in
  let* amount :=
    py_float float_of_string (dict_get transaction_data "amount" (PInt 0)) in
  let* balance :=
    py_float float_of_string (dict_get transaction_data "balance" (PInt 0)) in
  let* acc1 :=
    if f_gt balance 0 then
      let* amount_ratio := py_truediv amount balance in
      ok (if f_gt amount_ratio 2.0
          then add_risk (w_amount_ratio self * 100) "المبلغ أكبر بكثير من رصيد الحساب" acc0
          else if f_gt amount_ratio 1.0
          then add_risk (w_amount_ratio self * 70) "المبلغ يتجاوز رصيد الحساب" acc0
          else if f_gt amount_ratio 0.5
          then add_risk (w_amount_ratio self * 30) "المبلغ كبير نسبياً مقارنة بالرصيد" acc0
          else acc0)
    else ok acc0 in
  let transaction_type :=
    dict_get transaction_data "transaction_type" (PStr "") in
  let acc2 :=
    if py_in_strings transaction_type high_risk_types
    then add_risk (w_transaction_type self * 80)
           (fmt_suffix "نوع المعاملة عالي المخاطر: " transaction_type) acc1
    else if py_in_strings transaction_type medium_risk_types
    then add_risk (w_transaction_type self * 40)
           (fmt_suffix "نوع المعاملة متوسط المخاطر: " transaction_type) acc1
    else acc1 in
  let* location :=
    py_lower str_lower (dict_get transaction_data "location" (PStr "")) in
  let acc3 :=
    if existsb (fun keyword => contains keyword location) suspicious_locations
    then add_risk (w_location self * 90) "موقع جغرافي مشبوه أو غير معروف" acc2
    else acc2 in
  let payment_method :=
    dict_get transaction_data "payment_method" (PStr "") in
  let acc4 :=
    if py_eq_string payment_method "نقد" && f_gt amount 10000
    then add_risk (w_payment_method self * 70) "دفع نقدي لمبلغ كبير" acc3
    else if py_eq_string payment_method "محفظة_رقمية" && f_gt amount 50000
    then add_risk (w_payment_method self * 50) "محفظة رقمية لمبلغ كبير" acc3
    else acc3 in
  let* age := py_int int_of_string (dict_get transaction_data "age" (PInt 25)) in
  let acc5 :=
    if (age <? 21)%Z && f_gt amount 50000
    then add_risk (w_age_factor self * 80) "عمر صغير لمعاملة بمبلغ كبير" acc4
    else if (70 <? age)%Z
            && py_in_strings transaction_type ["شراء_أونلاين"; "محفظة_رقمية"]
    then add_risk (w_age_factor self * 40) "نمط معاملة غير معتاد للفئة العمرية" acc4
    else acc4 in
  let* device_id :=
    py_lower str_lower (dict_get transaction_data "device_id" (PStr "")) in
  let acc6 :=
    if existsb (fun keyword => contains keyword device_id) suspicious_devices
    then add_risk (w_device_trust self * 85) "معرف جهاز مشبوه أو غير موثوق" acc5
    else acc5 in
  let acc7 :=
    if (current_hour <? 6)%Z || (23 <? current_hour)%Z
    then add_risk (w_time_pattern self * 60) "معاملة في وقت غير عادي" acc6
    else acc6 in
  ok (Qmin (fst acc7) 100, snd acc7).

(** [generate_recommendations]; the risk factors are not read. *)
Definition generate_recommendations (score : Q) (risk_factors : list string)
    : list string :=
  if Qleb 80 score then
    ["رفض المعاملة فوراً"; "إجراء تحقق إضافي من هوية العميل"; "الاتصال بالعميل للتأكد من المعاملة"; "إبلاغ وحدة مكافحة الاحتيال"]
  else if Qleb 60 score then
    ["تأخير المعاملة لمراجعة إضافية"; "طلب تأكيد إضافي من العميل"; "مراجعة تاريخ المعاملات السابقة"]
  else if Qleb 40 score then
    ["مراقبة المعاملة عن كثب"; "إرسال تنبيه للعميل"; "توثيق المعاملة للمراجعة اللاحقة"]
  else if Qleb 20 score then
    ["مراقبة عادية"; "تسجيل المعاملة في السجلات"]
  else ["السماح بالمعاملة - لا توجد مخاطر ظاهرة"].

(** What [analyze_transaction] appends to [transactions_db], without the
    analysis id and the time stamp (clock and random number) and the echoed
    request. *)
Record transaction_record : Type := mkTransactionRecord {
  tr_risk_score : Q;
  tr_risk_level : string;
  tr_risk_factors : list string;
  tr_recommendations : list string
}.

(** The counters of [get_system_stats]; [None] is the answer "no
    transactions yet".  The shares and the average are sent rounded
    ([round]); here the average is the value before rounding and the shares
    are left to the counters. *)
Record system_stats : Type := mkSystemStats {
  total_transactions : nat;
  high_risk_transactions : nat;
  medium_risk_transactions : nat;
  low_risk_transactions : nat;
  avg_risk_score : Q
}.

Definition count_where (P : Q → bool) (db : list transaction_record) : nat :=
  length (List.filter (fun t => P (tr_risk_score t)) db).

Definition get_system_stats (transactions_db : list transaction_record)
    : option system_stats :=
  match transactions_db with
  | [] => None
  | _ =>
      let total := length transactions_db in
      Some (mkSystemStats total
              (count_where (fun s => Qleb 60 s) transactions_db)
              (count_where (fun s => Qleb 40 s && Qltb s 60) transactions_db)
              (count_where (fun s => Qltb s 40) transactions_db)
              (foldr Qplus 0%Q (map tr_risk_score transactions_db)
               / inject_Z (Z.of_nat total))%Q)
  end.

(** ** fraud_detection_api/ml_engine.py and app_advanced.py: the verdict *)

(** The fields of [predict_fraud]'s answer that are not rounded. *)
Record fraud_analysis : Type := mkFraudAnalysis {
  an_is_fraud : bool;
  an_ensemble_proba : Q;
  an_risk_score : Z;
  an_risk_level : string;
  an_risk_color : string
}.

(** [int(x)] on a float: truncation towards zero. *)
Definition Qtruncate (x : Q) : Z := Z.quot (Qnum x) (Zpos (Qden x)).

(** [predict_fraud] from the point where the three trained models have
    answered: [rf_proba] and [gb_proba] are the forests' probabilities of
    fraud, [iso_prediction] the isolation forest's label (-1 for an
    anomaly). *)
Definition predict_fraud (rf_proba gb_proba : Q) (iso_prediction : Z)
    : fraud_analysis :=
  let ensemble_proba :=
    (rf_proba * 0.4 + gb_proba * 0.4
     + (if (iso_prediction =? -1)%Z then 1 else 0) * 0.2)%Q in
  let ensemble_prediction := Qltb 0.5 ensemble_proba in
  let score := Z.min 100 (Qtruncate (ensemble_proba * 100)) in
  let level_color :=
    if (score <? 30)%Z then ("منخفض", "green")
    else if (score <? 70)%Z then ("متوسط", "orange")
    else ("عالي", "red") in
  mkFraudAnalysis ensemble_prediction ensemble_proba score
    (fst level_color) (snd level_color).

(** A risk factor of [_analyze_risk_factors], without its [description]
    (an f-string of floats printed to two decimals). *)
Record risk_factor : Type := mkRiskFactor {
  factor : string;
  severity : string
}.

(** [_analyze_risk_factors] on the row the mapping built, where every key it
    reads is present. *)
Definition _analyze_risk_factors (r : ml_row) : result (list risk_factor) :=
  let amount := ml_amount r in
  let balance := ml_balance r in
  let* f1 :=
    if f_gt balance 0 then
      let* ratio := py_truediv amount balance in
      ok (if f_gt ratio 1.5 then [mkRiskFactor "نسبة المبلغ إلى الرصيد" "عالي"]
          else if f_gt ratio 0.7 then [mkRiskFactor "نسبة المبلغ إلى الرصيد" "متوسط"]
          else [])
    else ok [] in
  let f2 :=
    if (ml_hour r <? 6)%Z || (22 <? ml_hour r)%Z
    then [mkRiskFactor "توقيت المعاملة" "متوسط"] else [] in
  let f3 :=
    if Qltb 0.6 (ml_location_risk r)
    then [mkRiskFactor "الموقع الجغرافي" "عالي"]
    else if Qltb 0.4 (ml_location_risk r)
    then [mkRiskFactor "الموقع الجغرافي" "متوسط"]
    else [] in
  let f4 :=
    if Qltb (ml_device_trust r) 0.4
    then [mkRiskFactor "ثقة الجهاز" "عالي"]
    else if Qltb (ml_device_trust r) 0.6
    then [mkRiskFactor "ثقة الجهاز" "متوسط"]
    else [] in
  let f5 :=
    if f_gt amount 50000
    then [mkRiskFactor "قيمة المعاملة" "متوسط"] else [] in
  ok (f1 ++ f2 ++ f3 ++ f4 ++ f5)%list.

(** [get_recommendation] (app_advanced.py) on the risk score of the
    analysis. *)
Record action_advice : Type := mkAdvice {
  action : string;
  message : string;
  color : string
}.

Definition get_recommendation (analysis_result : fraud_analysis)
    : action_advice :=
  let score := an_risk_score analysis_result in
  if (score <? 30)%Z then mkAdvice "approve" "السماح بالمعاملة - مستوى مخاطر منخفض" "green"
  else if (score <? 70)%Z then mkAdvice "review" "مراجعة يدوية مطلوبة - مستوى مخاطر متوسط" "orange"
  else mkAdvice "block" "حظر المعاملة فوراً - مستوى مخاطر عالي" "red".

(** * The vocabulary of the further properties *)

(** Every value the generator returns is a probability. *)
Definition draws_in_unit (g : rng) : Prop :=
  ∀ n, (0 <= draws g n)%Q ∧ (draws g n <= 1)%Q.

Definition in_unit (p : Q) : Prop := (0 <= p)%Q ∧ (p <= 1)%Q.

(** One entry of a weight map applied to the stored weights, for a fixed
    set of registered models. *)
Definition weight_step (registered : gmap string ModelMetadata)
    (stored : gmap string Q) (kv : string * Q) : gmap string Q :=
  if in_dict (fst kv) registered then <[fst kv := snd kv]> stored else stored.

(** The weight a map ends up giving to an id: the last one it lists for it,
    if the id is registered. *)
Fixpoint last_assign (registered : gmap string ModelMetadata)
    (ws : list (string * Q)) (k : string) : option Q :=
  match ws with
  | [] => None
  | kv :: rest =>
      match last_assign registered rest k with
      | Some v => Some v
      | None =>
          if bool_decide (fst kv = k) && in_dict (fst kv) registered
          then Some (snd kv) else None
      end
  end.

(** The stored flag of every model agrees with the active list, every model
    is stored under its own id, and no id is listed twice. *)
Definition flags_consistent (o : ModelOrchestrator) : Prop :=
  NoDup (active_models o)
  ∧ ∀ k m, models o !! k = Some m →
      model_id m = k ∧ (is_active m = true ↔ k ∈ active_models o).

(** Every registration in the sequence is of an id that is not registered
    at that point. *)
Fixpoint registers_fresh (ops : list admin_op) (o : ModelOrchestrator)
    : Prop :=
  match ops with
  | [] => True
  | op :: rest =>
      match op with
      | Register metadata _ => models o !! model_id metadata = None
      | _ => True
      end
      ∧ match apply_op op o with
        | inr o' => registers_fresh rest o'
        | inl _ => True
        end
  end.

(** The sequence registers the id [k]. *)
Definition registers (k : string) (ops : list admin_op) : Prop :=
  Exists (fun op => match op with
                    | Register metadata _ => model_id metadata = k
                    | _ => False
                    end) ops.

(** Two descriptors that differ at most in the active flag. *)
Definition same_but_flag (m m' : ModelMetadata) : Prop :=
  set_is_active true m = set_is_active true m'.

(** Transactions scored one after the other, each with the duration its
    call measured. *)
Fixpoint process_many (h : string → Z) (pl : InferencePipeline)
    (txs : list (TransactionFeatures * Q)) (g : rng)
    : result (list FraudDetectionResult * InferencePipeline * rng) :=
  match txs with
  | [] => ok ([], pl, g)
  | tx :: rest =>
      let* out := process_transaction h pl (fst tx) (snd tx) g in
      let* outs := process_many h (snd (fst out)) rest (snd out) in
      ok (fst (fst out) :: fst (fst outs), snd (fst outs), snd outs)
  end.

(** A running score between two bounds, with at most [n] factors. *)
Definition within (lo hi : Q) (n : nat) (acc : Q * list string) : Prop :=
  (lo <= fst acc)%Q ∧ (fst acc <= hi)%Q ∧ (length (snd acc) ≤ n)%nat.

(** A request in the manner of the suspicious ones of the demo data. *)
Definition request_suspicious : gmap string pyval :=
  <["transaction_id" := PStr "TXN3"]>
    (<["amount" := PInt 75000]>
       (<["balance" := PInt 5000]>
          (<["transaction_type" := PStr "تحويل_دولي"]>
             (<["location" := PStr "Unknown"]>
                (<["payment_method" := PStr "نقد"]>
                   (<["age" := PInt 22]>
                      (<["device_id" := PStr "DEV000"]> ∅))))))).

(** The keywords of an untrusted device ([map_transaction_to_ml_format]). *)
Definition device_keywords : list string :=
  ["unknown"; "غير"; "000"].

(** Risk factors of [_analyze_risk_factors], by name and severity. *)
Definition ratio_high : risk_factor := mkRiskFactor "نسبة المبلغ إلى الرصيد" "عالي".
Definition ratio_medium : risk_factor :=
  mkRiskFactor "نسبة المبلغ إلى الرصيد" "متوسط".
Definition time_medium : risk_factor := mkRiskFactor "توقيت المعاملة" "متوسط".
Definition location_high : risk_factor :=
  mkRiskFactor "الموقع الجغرافي" "عالي".
Definition location_medium : risk_factor :=
  mkRiskFactor "الموقع الجغرافي" "متوسط".
Definition device_high : risk_factor := mkRiskFactor "ثقة الجهاز" "عالي".
Definition device_medium : risk_factor :=
  mkRiskFactor "ثقة الجهاز" "متوسط".
Definition amount_medium : risk_factor :=
  mkRiskFactor "قيمة المعاملة" "متوسط".

(** * Part III: properties *)

(** ** Comparisons *)

Lemma Qleb_le x y : Qleb x y = true ↔ (x <= y)%Q.
Proof. apply Qle_bool_iff. Qed.

Lemma Qltb_lt x y : Qltb x y = true ↔ (x < y)%Q.
Proof.
  unfold Qltb. rewrite negb_true_iff. split.
  - intros H. apply Qnot_le_lt. intros Hle.
    apply Qle_bool_iff in Hle. congruence.
  - intros H. destruct (Qle_bool y x) eqn:E; [|reflexivity].
    apply Qle_bool_iff in E. exfalso. exact (Qlt_not_le _ _ H E).
Qed.

Lemma Qltb_false x y : Qltb x y = false ↔ (y <= x)%Q.
Proof.
  unfold Qltb. rewrite negb_false_iff. apply Qle_bool_iff.
Qed.

Lemma Qleb_false x y : Qleb x y = false ↔ (y < x)%Q.
Proof.
  unfold Qleb. split.
  - intros H. apply Qnot_le_lt. intros Hle.
    apply Qle_bool_iff in Hle. congruence.
  - intros H. destruct (Qle_bool x y) eqn:E; [|reflexivity].
    apply Qle_bool_iff in E. exfalso. exact (Qlt_not_le _ _ H E).
Qed.

(** ** The decision policy *)

Lemma flag_of_spec (pl : InferencePipeline) (p s : Q) :
  flag_of pl p s = true ↔
  (fraud_threshold pl <= p)%Q ∨ (risk_score_threshold pl <= s)%Q.
Proof.
  unfold flag_of. rewrite orb_true_iff, !Qleb_le. reflexivity.
Qed.

Lemma block_condition_spec (p s : Q) :
  Qltb 0.8 p || Qltb 90 s = true ↔ (0.8 < p)%Q ∨ (90 < s)%Q.
Proof. rewrite orb_true_iff, !Qltb_lt. reflexivity. Qed.

Lemma review_condition_spec (p s : Q) :
  Qltb 0.6 p || Qltb 75 s = true ↔ (0.6 < p)%Q ∨ (75 < s)%Q.
Proof. rewrite orb_true_iff, !Qltb_lt. reflexivity. Qed.

Lemma flag_of_monotone (pl : InferencePipeline) (p s1 s2 : Q) :
  (s1 <= s2)%Q → flag_of pl p s1 = true → flag_of pl p s2 = true.
Proof.
  intros Hle. rewrite !flag_of_spec. intros [Hp | Hs].
  - left. exact Hp.
  - right. apply Qle_trans with s1; assumption.
Qed.

(** What the pipeline stores in its result is the pair [decide_transaction]
    computes from the probability and the score it stores next to it. *)
Lemma process_transaction_decides (h : string → Z) (pl pl' : InferencePipeline)
    (f : TransactionFeatures) (ms : Q) (g g' : rng) (r : FraudDetectionResult) :
  process_transaction h pl f ms g = inr (r, pl', g') →
  (is_flagged r, recommendation r)
  = decide_transaction pl (res_fraud_probability r) (risk_score r).
Proof.
  unfold process_transaction.
  destruct (ensemble_predict _ _ _) as [e | [[prob det] g1]]; simpl; [discriminate|].
  intros H. injection H as <- _ _. simpl.
  unfold decide_transaction. reflexivity.
Qed.

(** C1.  With the default thresholds, the flag is [p >= 0.5 or s >= 70];
    an unflagged transaction is approved; a flagged one is blocked when
    [p > 0.8 or s > 90], else reviewed when [p > 0.6 or s > 75], else
    challenged. *)
Theorem recommendation_precedence (p s : Q) :
  let flagged := (0.5 <= p)%Q ∨ (70 <= s)%Q in
  let answer := snd (decide_transaction new_pipeline p s) in
  (fst (decide_transaction new_pipeline p s) = true ↔ flagged) ∧
  (¬ flagged → answer = APPROVE) ∧
  (flagged → (0.8 < p)%Q ∨ (90 < s)%Q → answer = BLOCK) ∧
  (flagged → ¬ ((0.8 < p)%Q ∨ (90 < s)%Q) → (0.6 < p)%Q ∨ (75 < s)%Q →
     answer = REVIEW) ∧
  (flagged → ¬ ((0.8 < p)%Q ∨ (90 < s)%Q) → ¬ ((0.6 < p)%Q ∨ (75 < s)%Q) →
     answer = CHALLENGE).
Proof.
  cbv zeta. unfold decide_transaction, _generate_recommendation. simpl fst. simpl snd.
  pose proof (flag_of_spec new_pipeline p s) as Hflag. simpl in Hflag.
  pose proof (block_condition_spec p s) as Hblock.
  pose proof (review_condition_spec p s) as Hreview.
  destruct (flag_of new_pipeline p s) eqn:Ef.
  - assert (Hf : (0.5 <= p)%Q ∨ (70 <= s)%Q) by (apply Hflag; reflexivity).
    simpl negb. cbv iota.
    destruct (Qltb 0.8 p || Qltb 90 s) eqn:Eb;
      destruct (Qltb 0.6 p || Qltb 75 s) eqn:Er;
      repeat split; try tauto; try reflexivity; intros;
      try (exfalso; tauto);
      try match goal with
          | H : ¬ _ |- _ => exfalso; apply H; tauto
          end;
      match goal with
      | H : _ ∨ _ |- _ =>
          first [ apply Hblock in H; discriminate
                | apply Hreview in H; discriminate ]
      | _ => idtac
      end.
  - assert (Hnf : ¬ ((0.5 <= p)%Q ∨ (70 <= s)%Q)).
    { intros H. apply Hflag in H. discriminate. }
    simpl negb. cbv iota.
    repeat split; intros; try reflexivity; try tauto; try discriminate.
Qed.

(** C8.  Raising the risk score at a fixed probability never takes a
    transaction out of BLOCK. *)
Theorem block_monotone_in_score (pl : InferencePipeline) (p s1 s2 : Q) :
  (s1 <= s2)%Q →
  snd (decide_transaction pl p s1) = BLOCK →
  snd (decide_transaction pl p s2) = BLOCK.
Proof.
  intros Hle. unfold decide_transaction, _generate_recommendation. simpl.
  destruct (flag_of pl p s1) eqn:Ef1; simpl; [|discriminate].
  rewrite (flag_of_monotone pl p s1 s2 Hle Ef1). simpl.
  destruct (Qltb 0.8 p || Qltb 90 s1) eqn:Eb1.
  - intros _.
    assert (Hb2 : Qltb 0.8 p || Qltb 90 s2 = true).
    { apply block_condition_spec. apply block_condition_spec in Eb1.
      destruct Eb1 as [Hp | Hs]; [left; exact Hp|right].
      apply Qlt_le_trans with s1; assumption. }
    rewrite Hb2. reflexivity.
  - destruct (Qltb 0.6 p || Qltb 75 s1); discriminate.
Qed.

Lemma block_monotone_in_score_witness :
  (91 <= 95)%Q ∧
  snd (decide_transaction new_pipeline 0.5 91) = BLOCK ∧
  snd (decide_transaction new_pipeline 0.5 95) = BLOCK.
Proof.
  assert (Hle : (91 <= 95)%Q) by (vm_compute; discriminate).
  assert (Hb : snd (decide_transaction new_pipeline 0.5 91) = BLOCK)
    by reflexivity.
  split; [exact Hle|]. split; [exact Hb|].
  exact (block_monotone_in_score new_pipeline 0.5 91 95 Hle Hb).
Defined.

(** ** The model registry *)

Lemma in_list_true x l : in_list x l = true ↔ x ∈ l.
Proof. unfold in_list. apply bool_decide_eq_true. Qed.

Lemma in_dict_true {V} k (d : gmap string V) :
  in_dict k d = true ↔ is_Some (d !! k).
Proof. unfold in_dict. apply bool_decide_eq_true. Qed.

Lemma list_remove_subseteq x l y : y ∈ list_remove x l → y ∈ l.
Proof.
  induction l as [|z l IH]; simpl; [tauto|].
  case_bool_decide as Hxz.
  - intros Hy. apply elem_of_cons. right. exact Hy.
  - rewrite !elem_of_cons. intros [-> | Hy]; [left; reflexivity|right; auto].
Qed.

Lemma update_model_weights_frame ws o :
  models (update_model_weights ws o) = models o ∧
  active_models (update_model_weights ws o) = active_models o.
Proof.
  unfold update_model_weights. revert o.
  induction ws as [|kv ws IH]; intros o; simpl; [tauto|].
  destruct (in_dict kv.1 (models o)).
  - destruct (IH (mkOrchestrator (models o)
                    (<[kv.1 := kv.2]> (model_weights o)) (active_models o)))
      as [Hm Ha].
    simpl in Hm, Ha. tauto.
  - apply IH.
Qed.

Lemma update_model_weights_dom ws o mid :
  is_Some (model_weights o !! mid) →
  is_Some (model_weights (update_model_weights ws o) !! mid).
Proof.
  unfold update_model_weights. revert o.
  induction ws as [|kv ws IH]; intros o H; simpl; [exact H|].
  destruct (in_dict kv.1 (models o)); [|apply IH; exact H].
  apply IH. simpl. apply lookup_insert_is_Some'. right. exact H.
Qed.

Lemma update_model_weights_nonneg ws o :
  Forall (fun kv => (0 <= snd kv)%Q) ws →
  weights_nonneg o → weights_nonneg (update_model_weights ws o).
Proof.
  unfold update_model_weights. revert o.
  induction ws as [|kv ws IH]; intros o Hws Ho; simpl; [exact Ho|].
  inversion Hws as [|? ? Hkv Hrest]; subst.
  destruct (in_dict kv.1 (models o)); [|apply IH; assumption].
  apply IH; [assumption|].
  intros mid w. simpl. rewrite lookup_insert_Some.
  intros [[_ <-] | [_ H]]; [exact Hkv|exact (Ho mid w H)].
Qed.

Lemma register_model_ok metadata weight o :
  registry_ok o → registry_ok (register_model metadata weight o).
Proof.
  intros [Ha Hw]. split.
  - intros mid. unfold register_model. simpl.
    intros Hin. apply lookup_insert_is_Some'.
    destruct (is_active metadata).
    + apply elem_of_app in Hin as [Hin | Hin].
      * right. auto.
      * apply list_elem_of_singleton in Hin. left. congruence.
    + right. auto.
  - intros mid. unfold register_model. simpl.
    rewrite !lookup_insert_is_Some'. intros [-> | H]; [left; reflexivity|].
    right. auto.
Qed.

Lemma activate_model_ok mid o :
  registry_ok o → registry_ok (activate_model mid o).
Proof.
  intros [Ha Hw]. unfold activate_model.
  destruct (in_dict mid (models o)) eqn:Ed; simpl; [|split; assumption].
  destruct (in_list mid (active_models o)); simpl; [split; assumption|].
  apply in_dict_true in Ed. split.
  - intros x. simpl. rewrite lookup_alter_is_Some.
    intros Hin. apply elem_of_app in Hin as [Hin | Hin]; [auto|].
    apply list_elem_of_singleton in Hin. subst. exact Ed.
  - intros x. simpl. rewrite lookup_alter_is_Some. auto.
Qed.

Lemma deactivate_model_ok mid o :
  registry_ok o →
  ∃ o', deactivate_model mid o = inr o' ∧ registry_ok o'.
Proof.
  intros [Ha Hw]. unfold deactivate_model.
  destruct (in_list mid (active_models o)) eqn:Ei.
  - apply in_list_true in Ei. destruct (Ha mid Ei) as [m Hm].
    unfold getitem. rewrite Hm. simpl. eexists. split; [reflexivity|].
    split.
    + intros x. simpl. intros Hin. apply lookup_insert_is_Some'.
      right. apply Ha. eapply list_remove_subseteq. exact Hin.
    + intros x. simpl. rewrite lookup_insert_is_Some'.
      intros [-> | H]; apply Hw; [eauto|exact H].
  - eexists. split; [reflexivity|]. split; assumption.
Qed.

Lemma update_model_weights_ok ws o :
  registry_ok o → registry_ok (update_model_weights ws o).
Proof.
  intros [Ha Hw]. destruct (update_model_weights_frame ws o) as [Hm Hact].
  split.
  - intros x. rewrite Hm, Hact. apply Ha.
  - intros x. rewrite Hm. intros H. apply update_model_weights_dom. auto.
Qed.

Lemma apply_op_ok op o :
  registry_ok o → ∃ o', apply_op op o = inr o' ∧ registry_ok o'.
Proof.
  intros Ho. destruct op as [md w | mid | mid | ws]; simpl.
  - eexists. split; [reflexivity|]. apply register_model_ok, Ho.
  - eexists. split; [reflexivity|]. apply activate_model_ok, Ho.
  - apply deactivate_model_ok, Ho.
  - eexists. split; [reflexivity|]. apply update_model_weights_ok, Ho.
Qed.

Lemma apply_op_nonneg op o o' :
  supplied_nonneg op → weights_nonneg o → apply_op op o = inr o' →
  weights_nonneg o'.
Proof.
  destruct op as [md w | mid | mid | ws]; simpl; intros Hs Ho Heq.
  - injection Heq as <-. intros x v. unfold register_model. simpl.
    rewrite lookup_insert_Some. intros [[_ <-] | [_ H]]; [exact Hs|eauto].
  - injection Heq as <-. unfold activate_model.
    destruct (_ && _); [|exact Ho]. exact Ho.
  - unfold deactivate_model in Heq.
    destruct (in_list mid (active_models o)).
    + unfold getitem in Heq. destruct (models o !! mid); simpl in Heq;
        [|discriminate].
      injection Heq as <-. exact Ho.
    + injection Heq as <-. exact Ho.
  - injection Heq as <-. apply update_model_weights_nonneg; assumption.
Qed.

Lemma run_ops_ok ops : ∀ o,
  registry_ok o → ∃ o', run_ops ops o = inr o' ∧ registry_ok o'.
Proof.
  induction ops as [|op ops IH]; intros o Ho; simpl.
  - eexists. split; [reflexivity|exact Ho].
  - destruct (apply_op_ok op o Ho) as (o1 & -> & Ho1). simpl.
    apply IH, Ho1.
Qed.

Lemma run_ops_nonneg ops : ∀ o o',
  Forall supplied_nonneg ops → weights_nonneg o → run_ops ops o = inr o' →
  weights_nonneg o'.
Proof.
  induction ops as [|op ops IH]; intros o o' Hs Ho; simpl.
  - intros Heq. injection Heq as <-. exact Ho.
  - inversion Hs as [|? ? Hop Hrest]; subst.
    destruct (apply_op op o) as [e | o1] eqn:E; simpl; [discriminate|].
    apply IH; [assumption|]. eapply apply_op_nonneg; eassumption.
Qed.

Lemma new_orchestrator_ok : registry_ok new_orchestrator.
Proof.
  split; intros mid; simpl.
  - intros H. apply elem_of_nil in H. contradiction.
  - rewrite lookup_empty. intros [? ?]. discriminate.
Qed.

Lemma new_orchestrator_nonneg : weights_nonneg new_orchestrator.
Proof. intros mid w. simpl. rewrite lookup_empty. discriminate. Qed.

(** C6, as stated, fails on the weights: no call checks the sign of a
    weight, so a negative weight sent to [update_model_weights] (or to
    [register_model]) is stored as it is. *)
Lemma negative_weight_is_stored :
  ∃ o,
    run_ops [Register rf_v1 1; UpdateWeights [("rf_v1", (-1)%Q)]]
      new_orchestrator = inr o
    ∧ model_weights o !! "rf_v1" = Some (-1)%Q
    ∧ ¬ weights_nonneg o.
Proof.
  eexists. split; [reflexivity|].
  assert (Hw : model_weights
                 (update_model_weights [("rf_v1", (-1)%Q)]
                    (register_model rf_v1 1 new_orchestrator)) !! "rf_v1"
               = Some (-1)%Q) by (vm_compute; reflexivity).
  split; [exact Hw|].
  intros Hnn. specialize (Hnn "rf_v1" (-1)%Q Hw).
  revert Hnn. vm_compute. intros H. apply H. reflexivity.
Qed.

(** C6, amended.  After every sequence of register, activate, deactivate
    and update-weights calls on a fresh registry, no call has raised, every
    active id is a registered id (and has a stored weight), and every stored
    weight is non-negative provided every weight the calls supplied was. *)
Theorem registry_invariant (ops : list admin_op) :
  ∃ o,
    run_ops ops new_orchestrator = inr o
    ∧ active_registered o
    ∧ weights_registered o
    ∧ (Forall supplied_nonneg ops → weights_nonneg o).
Proof.
  destruct (run_ops_ok ops new_orchestrator new_orchestrator_ok)
    as (o & Hrun & Ha & Hw).
  exists o. repeat split; try assumption.
  intros Hs. eapply run_ops_nonneg; [exact Hs| |exact Hrun].
  exact new_orchestrator_nonneg.
Qed.

Lemma registry_invariant_witness :
  Forall supplied_nonneg example_ops ∧
  ∃ o,
    run_ops example_ops new_orchestrator = inr o
    ∧ active_models o = ["gb_v1"; "rf_v1"]
    ∧ active_registered o
    ∧ weights_nonneg o.
Proof.
  assert (Hs : Forall supplied_nonneg example_ops).
  { unfold example_ops.
    repeat (apply Forall_cons; split); try apply Forall_nil; simpl;
      try exact I; try (vm_compute; discriminate). }
  split; [exact Hs|].
  destruct (registry_invariant example_ops) as (o & Hrun & Ha & _ & Hnn).
  exists o. split; [exact Hrun|].
  split; [|split; [exact Ha|exact (Hnn Hs)]].
  assert (Hc : run_ops example_ops new_orchestrator
               = inr (activate_model "rf_v1"
                        (update_model_weights
                           [("gb_v1", 0.5%Q); ("lstm_v9", 2%Q)]
                           (mkOrchestrator
                              (<["rf_v1" := set_is_active false rf_v1]>
                                 (models (register_model gb_v1 1
                                    (register_model rf_v1 1 new_orchestrator))))
                              (model_weights (register_model gb_v1 1
                                 (register_model rf_v1 1 new_orchestrator)))
                              ["gb_v1"])))) by reflexivity.
  rewrite Hc in Hrun. injection Hrun as <-. reflexivity.
Defined.

(** ** The ensemble predictor *)

Lemma take_draws_length g n : length (take_draws g n) = n.
Proof. revert g. induction n as [|n IH]; intros g; simpl; auto. Qed.

(** The loop, run over ids that are registered and weighted: it does not
    raise, appends one prediction per id, each with the next draw, and adds
    their weighted probabilities and their weights to the accumulators. *)
Lemma ensemble_loop_spec (o : ModelOrchestrator) (f : list Q) (ids : list string) :
  ∀ acc,
    (∀ mid, mid ∈ ids →
       is_Some (models o !! mid) ∧ is_Some (model_weights o !! mid)) →
    ∃ acc',
      ensemble_loop o f ids acc = inr acc'
      ∧ map pr_model_id (predictions acc')
        = (map pr_model_id (predictions acc) ++ ids)%list
      ∧ map fraud_probability (predictions acc')
        = (map fraud_probability (predictions acc)
           ++ take_draws (gen acc) (length ids))%list
      ∧ (weighted_sum acc' ==
         weighted_sum acc
         + Qsum (zip_with Qmult (map (weight_of o) ids)
                   (take_draws (gen acc) (length ids))))%Q
      ∧ (total_weight acc' ==
         total_weight acc + Qsum (map (weight_of o) ids))%Q
      ∧ gen acc' = mkRng (draws (gen acc)) (cursor (gen acc) + length ids).
Proof.
  induction ids as [|mid ids IH]; intros acc Hreg.
  - exists acc. simpl. rewrite !app_nil_r, Nat.add_0_r.
    repeat split; try reflexivity.
    + unfold Qsum. simpl. ring.
    + unfold Qsum. simpl. ring.
    + destruct (gen acc); reflexivity.
  - destruct (Hreg mid) as [[m Hm] [w Hw]]; [apply elem_of_cons; auto|].
    simpl ensemble_loop. unfold ensemble_step, _predict_with_model, getitem.
    rewrite Hm. simpl. rewrite Hw. simpl.
    match goal with
    | |- ∃ acc', ensemble_loop o f ids ?a = _ ∧ _ =>
        destruct (IH a) as (acc' & Hrun & Hids & Hps & Hsum & Htot & Hgen)
    end.
    { intros x Hx. apply Hreg. apply elem_of_cons. auto. }
    exists acc'. simpl in Hids, Hps, Hsum, Htot, Hgen.
    split; [exact Hrun|].
    rewrite Hids, Hps, !map_app, <- !app_assoc. simpl.
    split; [reflexivity|]. split; [reflexivity|].
    split; [|split].
    + rewrite Hsum. unfold weight_of at 2. rewrite Hw. simpl.
      unfold Qsum. simpl. ring.
    + rewrite Htot. unfold weight_of at 2. rewrite Hw. simpl.
      unfold Qsum. simpl. ring.
    + rewrite Hgen. f_equal. lia.
Qed.

Lemma registry_ok_active (o : ModelOrchestrator) :
  registry_ok o →
  ∀ mid, mid ∈ active_models o →
    is_Some (models o !! mid) ∧ is_Some (model_weights o !! mid).
Proof. intros [Ha Hw] mid Hin. split; auto. Qed.

(** [ensemble_predict] on a registry that satisfies the invariant and has
    an active model. *)
Lemma ensemble_predict_spec (o : ModelOrchestrator) (f : list Q) (g : rng) :
  registry_ok o → active_models o ≠ [] →
  ∃ prob d,
    ensemble_predict o f g
    = inr (prob, d, mkRng (draws g) (cursor g + length (active_models o)))
    ∧ ensemble_fraud_probability d = prob
    ∧ predicted_ids d = active_models o
    ∧ probabilities d = take_draws g (length (active_models o))
    ∧ model_count d = length (active_models o)
    ∧ ((0 < Qsum (active_weights o))%Q →
       (prob == weighted_average (active_weights o) (probabilities d))%Q)
    ∧ ((Qsum (active_weights o) <= 0)%Q → prob = 0%Q).
Proof.
  intros Hok Hne.
  destruct (ensemble_loop_spec o f (active_models o) (mkAcc [] 0 0 g)
              (registry_ok_active o Hok))
    as (acc & Hrun & Hids & Hps & Hsum & Htot & Hgen).
  simpl in Hids, Hps, Hsum, Htot, Hgen.
  unfold ensemble_predict. destruct (active_models o) as [|a l] eqn:Eact;
    [congruence|].
  rewrite Hrun. simpl rbind. unfold ok.
  eexists. eexists. split; [rewrite Hgen; reflexivity|].
  unfold probabilities, predicted_ids. simpl individual_predictions.
  simpl ensemble_fraud_probability. simpl model_count.
  split; [reflexivity|]. split; [exact Hids|]. split; [exact Hps|].
  assert (Htot' : (total_weight acc == Qsum (active_weights o))%Q).
  { rewrite Htot. unfold active_weights. rewrite Eact. ring. }
  split; [|split].
  - rewrite <- (length_map fraud_probability), Hps. apply take_draws_length.
  - intros Hpos.
    assert (Hlt : Qltb 0 (total_weight acc) = true).
    { apply Qltb_lt. rewrite Htot'. exact Hpos. }
    rewrite Hlt. unfold weighted_average. rewrite Hps.
    rewrite Hsum, Htot'. unfold active_weights. rewrite Eact.
    rewrite Qplus_0_l. reflexivity.
  - intros Hle.
    assert (Hlt : Qltb 0 (total_weight acc) = false).
    { apply Qltb_false. rewrite Htot'. exact Hle. }
    rewrite Hlt. reflexivity.
Qed.

(** C2.  On a registry reached by administrative calls (its invariant
    holds), with an active model and a positive total weight, the ensemble
    probability is [Σ(weight_i × probability_i) / Σ(weight_i)] over the
    probabilities the active models returned, one per entry of the active
    list. *)
Theorem ensemble_is_weighted_average (o : ModelOrchestrator) (f : list Q)
    (g : rng) :
  registry_ok o → active_models o ≠ [] → (0 < Qsum (active_weights o))%Q →
  ∃ prob d g',
    ensemble_predict o f g = inr (prob, d, g')
    ∧ predicted_ids d = active_models o
    ∧ probabilities d = take_draws g (length (active_models o))
    ∧ ensemble_fraud_probability d = prob
    ∧ (prob == weighted_average (active_weights o) (probabilities d))%Q.
Proof.
  intros Hok Hne Hpos.
  destruct (ensemble_predict_spec o f g Hok Hne)
    as (prob & d & Hrun & Hd & Hids & Hps & _ & Havg & _).
  exists prob, d. eexists. split; [exact Hrun|].
  repeat split; try assumption. apply Havg, Hpos.
Qed.

Lemma setup_models_ok : registry_ok (orchestrator (setup_models new_pipeline)).
Proof.
  unfold setup_models. simpl.
  repeat apply register_model_ok. apply new_orchestrator_ok.
Qed.

Lemma ensemble_is_weighted_average_witness :
  let o := orchestrator (setup_models new_pipeline) in
  registry_ok o ∧ active_models o ≠ [] ∧ (0 < Qsum (active_weights o))%Q ∧
  ∃ prob d g',
    ensemble_predict o [] example_draws = inr (prob, d, g')
    ∧ predicted_ids d = active_models o
    ∧ probabilities d = take_draws example_draws (length (active_models o))
    ∧ ensemble_fraud_probability d = prob
    ∧ (prob == weighted_average (active_weights o) (probabilities d))%Q.
Proof.
  cbv zeta.
  assert (Hne : active_models (orchestrator (setup_models new_pipeline)) ≠ [])
    by discriminate.
  assert (Hpos : (0 < Qsum (active_weights
                              (orchestrator (setup_models new_pipeline))))%Q)
    by (vm_compute; reflexivity).
  split; [exact setup_models_ok|]. split; [exact Hne|]. split; [exact Hpos|].
  exact (ensemble_is_weighted_average _ [] example_draws
           setup_models_ok Hne Hpos).
Defined.

(** C10.  With an active model and a total weight of zero, the ensemble
    prediction does not raise and its probability is exactly 0. *)
Theorem zero_total_weight_gives_zero (o : ModelOrchestrator) (f : list Q)
    (g : rng) :
  registry_ok o → active_models o ≠ [] →
  (Qsum (active_weights o) == 0)%Q →
  ∃ d g',
    ensemble_predict o f g = inr (0%Q, d, g')
    ∧ ensemble_fraud_probability d = 0%Q
    ∧ model_count d = length (active_models o).
Proof.
  intros Hok Hne Hzero.
  destruct (ensemble_predict_spec o f g Hok Hne)
    as (prob & d & Hrun & Hd & _ & _ & Hcount & _ & Hlow).
  assert (Hp : prob = 0%Q).
  { apply Hlow. rewrite Hzero. apply Qle_refl. }
  rewrite Hp in Hrun, Hd.
  exists d. eexists. split; [exact Hrun|]. split; assumption.
Qed.

Lemma zero_total_weight_gives_zero_witness :
  registry_ok zero_weighted ∧ active_models zero_weighted ≠ [] ∧
  (Qsum (active_weights zero_weighted) == 0)%Q ∧
  ∃ d g',
    ensemble_predict zero_weighted [] example_draws = inr (0%Q, d, g')
    ∧ ensemble_fraud_probability d = 0%Q
    ∧ model_count d = length (active_models zero_weighted).
Proof.
  assert (Hok : registry_ok zero_weighted)
    by (apply update_model_weights_ok, setup_models_ok).
  assert (Hne : active_models zero_weighted ≠ []) by discriminate.
  assert (Hz : (Qsum (active_weights zero_weighted) == 0)%Q)
    by (vm_compute; reflexivity).
  split; [exact Hok|]. split; [exact Hne|]. split; [exact Hz|].
  exact (zero_total_weight_gives_zero _ [] example_draws Hok Hne Hz).
Defined.

(** ** An empty active list *)

(** The prediction reads the stored metadata only for the model type and
    the accuracy. *)
Lemma ensemble_loop_ext (o1 o2 : ModelOrchestrator) (f : list Q)
    (ids : list string) :
  model_weights o1 = model_weights o2 →
  (∀ mid, mid ∈ ids →
     (fun m => (model_type m, accuracy m)) <$> (models o1 !! mid)
     = (fun m => (model_type m, accuracy m)) <$> (models o2 !! mid)) →
  ∀ acc, ensemble_loop o1 f ids acc = ensemble_loop o2 f ids acc.
Proof.
  intros Hw. induction ids as [|mid ids IH]; intros Hm acc; [reflexivity|].
  simpl. unfold ensemble_step, _predict_with_model, getitem.
  rewrite <- Hw.
  pose proof (Hm mid ltac:(apply elem_of_cons; auto)) as Hmid.
  destruct (models o1 !! mid) as [m1|], (models o2 !! mid) as [m2|];
    simpl in Hmid; try discriminate; [|reflexivity].
  injection Hmid as Ht Ha. simpl. rewrite Ht, Ha.
  destruct (model_weights o1 !! mid); simpl; [|reflexivity].
  apply IH. intros x Hx. apply Hm. apply elem_of_cons. auto.
Qed.

Lemma ensemble_predict_empty (o : ModelOrchestrator) (f : list Q) (g : rng) :
  active_models o = [] → ensemble_predict o f g = inl no_active_models.
Proof. intros H. unfold ensemble_predict. rewrite H. reflexivity. Qed.

Lemma process_transaction_empty (h : string → Z) (pl : InferencePipeline)
    (t : TransactionFeatures) (ms : Q) (g : rng) :
  active_models (orchestrator pl) = [] →
  process_transaction h pl t ms g = inl no_active_models.
Proof.
  intros H. unfold process_transaction.
  rewrite (ensemble_predict_empty _ _ _ H). reflexivity.
Qed.

(** C4, as stated, fails on a registry that registered its only model
    twice: the id is listed twice, so after the model is deactivated its id
    is still on the active list and the next prediction returns a result,
    made by the deactivated model. *)
Lemma registered_twice_outlives_deactivation :
  run_ops [Register rf_v1 1; Register rf_v1 1] new_orchestrator
  = inr registered_twice
  ∧ models registered_twice = <["rf_v1" := rf_v1]> ∅
  ∧ active_models registered_twice = ["rf_v1"; "rf_v1"]
  ∧ ∃ o1,
      deactivate_model "rf_v1" registered_twice = inr o1
      ∧ is_active <$> (models o1 !! "rf_v1") = Some false
      ∧ active_models o1 = ["rf_v1"]
      ∧ ensemble_predict o1 [] example_draws ≠ inl no_active_models
      ∧ (∃ prob d g',
           ensemble_predict o1 [] example_draws = inr (prob, d, g')
           ∧ (prob == 0.8)%Q ∧ model_count d = 1%nat)
      ∧ succeeds (process_transaction (fun _ => 0%Z)
                    (set_orchestrator o1 new_pipeline) example_transaction 1
                    example_draws).
Proof.
  split; [reflexivity|]. split; [vm_compute; reflexivity|].
  split; [reflexivity|].
  eexists. split; [vm_compute; reflexivity|].
  split; [vm_compute; reflexivity|]. split; [reflexivity|].
  split; [vm_compute; discriminate|]. split.
  - eexists. eexists. eexists. split; [vm_compute; reflexivity|].
    split; reflexivity.
  - eexists. vm_compute. reflexivity.
Qed.

(** C4, amended.  A prediction on an empty active list raises (the source
    raises [ValueError("No active models available for prediction")], which
    the pipeline lets through) and returns no result.  In particular, after
    the deactivation of a model whose id is the one entry of the active
    list the next call raises, and activating the model again, with no new
    registration, brings back the active list, the weights and the
    prediction of the registry before the deactivation. *)
Theorem no_active_models_is_an_error (h : string → Z) (pl : InferencePipeline)
    (o : ModelOrchestrator) (mid : string) (t : TransactionFeatures)
    (ms : Q) (f : list Q) (g : rng) :
  (active_models o = [] →
     ensemble_predict o f g = inl no_active_models
     ∧ process_transaction h (set_orchestrator o pl) t ms g
       = inl no_active_models)
  ∧ (registry_ok o → active_models o = [mid] →
     ∃ o1,
       deactivate_model mid o = inr o1
       ∧ active_models o1 = []
       ∧ ensemble_predict o1 f g = inl no_active_models
       ∧ process_transaction h (set_orchestrator o1 pl) t ms g
         = inl no_active_models
       ∧ active_models (activate_model mid o1) = [mid]
       ∧ model_weights (activate_model mid o1) = model_weights o
       ∧ ensemble_predict (activate_model mid o1) f g = ensemble_predict o f g
       ∧ succeeds (ensemble_predict (activate_model mid o1) f g)
       ∧ succeeds (process_transaction h
                     (set_orchestrator (activate_model mid o1) pl) t ms g)).
Proof.
  split.
  - intros Hempty. split.
    + apply ensemble_predict_empty, Hempty.
    + apply process_transaction_empty. exact Hempty.
  - intros Hok Hact.
    destruct (Hok) as [Ha Hw].
    destruct (Ha mid) as [m Hm]; [rewrite Hact; apply elem_of_cons; auto|].
    set (o1 := mkOrchestrator (<[mid := set_is_active false m]> (models o))
                 (model_weights o) []).
    assert (Hde : deactivate_model mid o = inr o1).
    { unfold deactivate_model, in_list, getitem. rewrite Hact, Hm.
      rewrite bool_decide_eq_true_2 by (apply elem_of_cons; auto).
      simpl. case_bool_decide as Eq; [reflexivity|contradiction]. }
    assert (Hre : activate_model mid o1
                  = mkOrchestrator
                      (alter (set_is_active true) mid (models o1))
                      (model_weights o) [mid]).
    { assert (Hd : in_dict mid (models o1) = true).
      { apply in_dict_true. simpl. rewrite lookup_insert_eq. eauto. }
      assert (Hl : in_list mid (active_models o1) = false).
      { apply bool_decide_eq_false_2, not_elem_of_nil. }
      unfold activate_model. rewrite Hd, Hl. reflexivity. }
    assert (Hsame : ∀ v, ensemble_predict (activate_model mid o1) v g
                         = ensemble_predict o v g).
    { intros v. rewrite Hre. unfold ensemble_predict. simpl active_models.
      rewrite Hact.
      rewrite (ensemble_loop_ext _ o v [mid]); [reflexivity|reflexivity|].
      intros x Hx. apply list_elem_of_singleton in Hx. subst x. simpl.
      rewrite lookup_alter_eq, lookup_insert_eq, Hm. reflexivity. }
    assert (Hsucc : ∀ v, succeeds (ensemble_predict o v g)).
    { intros v.
      destruct (ensemble_predict_spec o v g Hok) as (prob & d & Hrun & _).
      - rewrite Hact. discriminate.
      - eexists. exact Hrun. }
    exists o1. split; [exact Hde|]. split; [reflexivity|].
    split; [apply ensemble_predict_empty; reflexivity|].
    split; [apply process_transaction_empty; reflexivity|].
    split; [rewrite Hre; reflexivity|].
    split; [rewrite Hre; reflexivity|].
    split; [apply Hsame|].
    split; [rewrite Hsame; apply Hsucc|].
    unfold process_transaction. simpl orchestrator. rewrite Hsame.
    destruct (Hsucc (to_feature_vector h t)) as [[[prob d] g'] Hrun].
    rewrite Hrun. simpl. eexists. reflexivity.
Qed.

Lemma no_active_models_is_an_error_witness :
  registry_ok one_model ∧ active_models one_model = ["rf_v1"] ∧
  ∃ o1,
    deactivate_model "rf_v1" one_model = inr o1
    ∧ active_models o1 = []
    ∧ ensemble_predict o1 [] example_draws = inl no_active_models
    ∧ ensemble_predict (activate_model "rf_v1" o1) [] example_draws
      = ensemble_predict one_model [] example_draws
    ∧ succeeds (process_transaction (fun _ => 0%Z)
                  (set_orchestrator (activate_model "rf_v1" o1) new_pipeline)
                  example_transaction 1 example_draws).
Proof.
  assert (Hok : registry_ok one_model)
    by (apply register_model_ok, new_orchestrator_ok).
  assert (Hact : active_models one_model = ["rf_v1"]) by reflexivity.
  split; [exact Hok|]. split; [exact Hact|].
  destruct (no_active_models_is_an_error (fun _ => 0%Z) new_pipeline one_model
              "rf_v1" example_transaction 1 [] example_draws)
    as [_ Hcycle].
  destruct (Hcycle Hok Hact)
    as (o1 & Hde & Hnil & Herr & _ & _ & _ & Hsame & _ & Hsucc).
  exists o1. repeat split; assumption.
Defined.

(** ** Registering an id twice *)

Lemma occurrences_app (x : string) (l1 l2 : list string) :
  occurrences x (l1 ++ l2)%list = (occurrences x l1 + occurrences x l2)%nat.
Proof. unfold occurrences. rewrite filter_app, length_app. reflexivity. Qed.

Lemma occurrences_pos (x : string) (l : list string) :
  x ∈ l → (1 ≤ occurrences x l)%nat.
Proof.
  unfold occurrences. induction l as [|y l IH]; intros Hin.
  - apply elem_of_nil in Hin. contradiction.
  - apply elem_of_cons in Hin. rewrite filter_cons.
    destruct (decide (y = x)) as [->|Hne]; simpl; [lia|].
    destruct Hin as [-> | Hin]; [contradiction|auto].
Qed.

Lemma lookup_all_spec (d : gmap string ModelMetadata) (ids : list string) :
  (∀ mid, mid ∈ ids → is_Some (d !! mid)) →
  ∃ l, lookup_all d ids = inr l
       ∧ length l = length ids
       ∧ ∀ i mid, ids !! i = Some mid → l !! i = d !! mid.
Proof.
  induction ids as [|mid ids IH]; intros Hreg; simpl.
  - exists []. repeat split. intros i x Hi. rewrite lookup_nil in Hi.
    discriminate.
  - destruct (Hreg mid) as [m Hm]; [apply elem_of_cons; auto|].
    destruct IH as (l & Hl & Hlen & Hnth).
    { intros x Hx. apply Hreg, elem_of_cons. auto. }
    unfold getitem. rewrite Hm. simpl. rewrite Hl. simpl.
    exists (m :: l). split; [reflexivity|]. split; [simpl; lia|].
    intros [|i] x; simpl.
    + intros Hx. injection Hx as <-. symmetry. exact Hm.
    + apply Hnth.
Qed.

(** C9, as stated, fails when the second registration carries
    [is_active=False]: nothing is appended, the id stays listed once, and
    the listing and the prediction go on with the one entry (and the new
    descriptor and weight). *)
Lemma inactive_reregistration_appends_nothing :
  models one_model !! "rf_v1" = Some rf_v1
  ∧ "rf_v1" ∈ active_models one_model
  ∧ model_id rf_v2_inactive = "rf_v1"
  ∧ active_models (register_model rf_v2_inactive 3 one_model) = ["rf_v1"]
  ∧ occurrences "rf_v1"
      (active_models (register_model rf_v2_inactive 3 one_model)) = 1%nat
  ∧ models (register_model rf_v2_inactive 3 one_model) !! "rf_v1"
    = Some rf_v2_inactive
  ∧ model_weights (register_model rf_v2_inactive 3 one_model) !! "rf_v1"
    = Some 3%Q
  ∧ list_active_models (register_model rf_v2_inactive 3 one_model)
    = inr [rf_v2_inactive]
  ∧ ∃ prob d g',
      ensemble_predict (register_model rf_v2_inactive 3 one_model) []
        example_draws = inr (prob, d, g')
      ∧ model_count d = 1%nat.
Proof.
  split; [reflexivity|].
  split; [apply list_elem_of_singleton; reflexivity|].
  split; [reflexivity|]. split; [reflexivity|]. split; [reflexivity|].
  split; [reflexivity|]. split; [reflexivity|]. split; [reflexivity|].
  eexists. eexists. eexists. split; [vm_compute; reflexivity|reflexivity].
Qed.

(** C9, amended.  Registering an id that is already registered and active
    replaces the stored metadata and weight.  When the new descriptor has
    [is_active=True] the id is appended to the active list once more: it is
    then listed at least twice, [list_active_models] returns the new
    metadata at each of these positions, and the ensemble prediction makes
    one prediction per listed position and adds the (new) weight of the id
    once per position.  When the new descriptor has [is_active=False] the
    active list is left as it is, and [list_active_models] returns the new
    metadata where the id is listed. *)
Theorem register_twice_duplicates (o : ModelOrchestrator)
    (metadata : ModelMetadata) (weight : Q) (f : list Q) (g : rng) :
  registry_ok o →
  model_id metadata ∈ active_models o →
  let mid := model_id metadata in
  let o' := register_model metadata weight o in
  models o' !! mid = Some metadata
  ∧ model_weights o' !! mid = Some weight
  ∧ (is_active metadata = true →
     active_models o' = (active_models o ++ [mid])%list
     ∧ occurrences mid (active_models o')
       = S (occurrences mid (active_models o))
     ∧ (2 ≤ occurrences mid (active_models o'))%nat
     ∧ (∃ listed,
          list_active_models o' = inr listed
          ∧ length listed = S (length (active_models o))
          ∧ ∀ i, active_models o' !! i = Some mid →
              listed !! i = Some metadata)
     ∧ (∃ prob d g',
          ensemble_predict o' f g = inr (prob, d, g')
          ∧ predicted_ids d = (active_models o ++ [mid])%list
          ∧ model_count d = S (length (active_models o))
          ∧ (∀ i, active_models o' !! i = Some mid →
               active_weights o' !! i = Some weight)
          ∧ ((0 < Qsum (active_weights o'))%Q →
             (prob == weighted_average (active_weights o')
                        (probabilities d))%Q)))
  ∧ (is_active metadata = false →
     active_models o' = active_models o
     ∧ occurrences mid (active_models o') = occurrences mid (active_models o)
     ∧ ∃ listed,
         list_active_models o' = inr listed
         ∧ length listed = length (active_models o)
         ∧ ∀ i, active_models o !! i = Some mid →
             listed !! i = Some metadata).
Proof.
  intros Hok Hin. cbv zeta.
  assert (Hok' : registry_ok (register_model metadata weight o))
    by (apply register_model_ok, Hok).
  assert (Hm : models (register_model metadata weight o) !! model_id metadata
               = Some metadata) by apply lookup_insert_eq.
  assert (Hw : model_weights (register_model metadata weight o)
                 !! model_id metadata = Some weight) by apply lookup_insert_eq.
  split; [exact Hm|]. split; [exact Hw|]. split.
  - intros Hactive.
    assert (Hact : active_models (register_model metadata weight o)
                   = (active_models o ++ [model_id metadata])%list).
    { unfold register_model. simpl. rewrite Hactive. reflexivity. }
    assert (Hocc : occurrences (model_id metadata)
                     (active_models (register_model metadata weight o))
                   = S (occurrences (model_id metadata) (active_models o))).
    { rewrite Hact, occurrences_app. unfold occurrences at 2.
      rewrite filter_cons, decide_True by reflexivity. simpl. lia. }
    split; [exact Hact|]. split; [exact Hocc|].
    split; [rewrite Hocc; pose proof (occurrences_pos _ _ Hin); lia|].
    split.
    + destruct (lookup_all_spec (models (register_model metadata weight o))
                  (active_models (register_model metadata weight o)))
        as (l & Hl & Hlen & Hnth); [apply Hok'|].
      exists l. split; [exact Hl|]. split.
      * rewrite Hlen, Hact, length_app. simpl. lia.
      * intros i Hi. rewrite (Hnth i _ Hi). exact Hm.
    + destruct (ensemble_predict_spec (register_model metadata weight o) f g
                  Hok')
        as (prob & d & Hrun & _ & Hids & _ & Hcount & Havg & _).
      { rewrite Hact. destruct (active_models o); discriminate. }
      exists prob, d. eexists. split; [exact Hrun|].
      split; [rewrite Hids; exact Hact|].
      split; [rewrite Hcount, Hact, length_app; simpl; lia|].
      split; [|exact Havg].
      intros i Hi. unfold active_weights. rewrite list_lookup_fmap, Hi. simpl.
      unfold weight_of. rewrite Hw. reflexivity.
  - intros Hinactive.
    assert (Hact : active_models (register_model metadata weight o)
                   = active_models o).
    { unfold register_model. simpl. rewrite Hinactive. reflexivity. }
    split; [exact Hact|]. split; [rewrite Hact; reflexivity|].
    destruct (lookup_all_spec (models (register_model metadata weight o))
                (active_models (register_model metadata weight o)))
      as (l & Hl & Hlen & Hnth); [apply Hok'|].
    exists l. split; [exact Hl|]. split; [rewrite Hlen, Hact; reflexivity|].
    intros i Hi. rewrite <- Hact in Hi. rewrite (Hnth i _ Hi). exact Hm.
Qed.

Lemma register_twice_duplicates_witness :
  registry_ok one_model ∧ model_id rf_v2 ∈ active_models one_model ∧
  is_active rf_v2 = true ∧
  active_models (register_model rf_v2 3 one_model) = ["rf_v1"; "rf_v1"] ∧
  list_active_models (register_model rf_v2 3 one_model) = inr [rf_v2; rf_v2] ∧
  ∃ prob d g',
    ensemble_predict (register_model rf_v2 3 one_model) [] example_draws
    = inr (prob, d, g')
    ∧ model_count d = 2
    ∧ (prob == (0.8 * 3 + 0.9 * 3) / (3 + 3))%Q.
Proof.
  assert (Hok : registry_ok one_model)
    by (apply register_model_ok, new_orchestrator_ok).
  assert (Hin : model_id rf_v2 ∈ active_models one_model)
    by (apply list_elem_of_singleton; reflexivity).
  split; [exact Hok|]. split; [exact Hin|]. split; [reflexivity|].
  destruct (register_twice_duplicates one_model rf_v2 3 [] example_draws
              Hok Hin)
    as (_ & _ & Hactive & _).
  destruct (Hactive eq_refl)
    as (Hact & _ & _ & _ & (prob & d & g' & Hrun & _ & Hcount & _ & Havg)).
  split; [exact Hact|]. split; [reflexivity|].
  exists prob, d, g'. split; [exact Hrun|]. split; [exact Hcount|].
  assert (Hps : probabilities d = [0.8; 0.9]%Q).
  { revert Hrun. unfold ensemble_predict. simpl.
    intros Hrun. injection Hrun as _ <- _. reflexivity. }
  rewrite Havg by (vm_compute; reflexivity).
  rewrite Hps. vm_compute. reflexivity.
Defined.

(** ** The risk score *)

Lemma _assess_amount_risk_tier (amount : Q) :
  amount_tier amount (_assess_amount_risk amount).
Proof.
  unfold amount_tier, _assess_amount_risk.
  destruct (Qltb 10000 amount) eqn:E1.
  { apply Qltb_lt in E1. left. split; [exact E1|reflexivity]. }
  apply Qltb_false in E1. right.
  destruct (Qltb 5000 amount) eqn:E2.
  { apply Qltb_lt in E2. left. repeat split; assumption. }
  apply Qltb_false in E2. right.
  destruct (Qltb 1000 amount) eqn:E3.
  { apply Qltb_lt in E3. left. repeat split; assumption. }
  apply Qltb_false in E3. right. split; [exact E3|reflexivity].
Qed.

Lemma clamp_bounds (x lo hi : Q) :
  (lo <= hi)%Q → (lo <= clamp x lo hi)%Q ∧ (clamp x lo hi <= hi)%Q.
Proof.
  intros Hlh. unfold clamp. split.
  - apply Q.min_glb; [exact Hlh|apply Q.le_max_l].
  - apply Q.le_min_l.
Qed.

Lemma clamp_inside (x lo hi v : Q) :
  (clamp x lo hi == v)%Q → (lo < v)%Q → (v < hi)%Q → (x == v)%Q.
Proof.
  unfold clamp. intros Heq Hlo Hhi.
  destruct (Q.min_spec hi (Qmax lo x)) as [[_ Hmin] | [Hle Hmin]];
    rewrite Hmin in Heq.
  - rewrite Heq in Hhi. exfalso. exact (Qlt_irrefl _ Hhi).
  - destruct (Q.max_spec lo x) as [[_ Hmax] | [_ Hmax]]; rewrite Hmax in Heq.
    + exact Heq.
    + rewrite Heq in Hlo. exfalso. exact (Qlt_irrefl _ Hlo).
Qed.

(** C3, as stated, fails: the pipeline's location risk is the constant 20,
    also on the location "unknown", which the keyword set matches; so two
    transactions that differ in the location only get the same score, and
    no baseline below 80 and no time risk make the stated formula agree
    with the code on both. *)
Lemma location_is_not_inspected :
  matches_suspicious (user_location at_unknown) = true
  ∧ matches_suspicious (user_location at_new_york) = false
  ∧ _assess_location_risk (user_location at_unknown) = 20%Q
  ∧ (_calculate_risk_score 0 at_unknown == 7.5)%Q
  ∧ (_calculate_risk_score 0 at_new_york == 7.5)%Q
  ∧ ¬ risk_score_follows_spec.
Proof.
  assert (H1 : (_calculate_risk_score 0 at_unknown == 7.5)%Q)
    by (vm_compute; reflexivity).
  assert (H2 : (_calculate_risk_score 0 at_new_york == 7.5)%Q)
    by (vm_compute; reflexivity).
  split; [vm_compute; reflexivity|]. split; [vm_compute; reflexivity|].
  split; [reflexivity|]. split; [exact H1|]. split; [exact H2|].
  intros (baseline & time_risk & Hlow & Hall).
  pose proof (Hall 0%Q at_unknown) as Hu. rewrite H1 in Hu.
  pose proof (Hall 0%Q at_new_york) as Hn. rewrite H2 in Hn.
  symmetry in Hu, Hn.
  apply clamp_inside in Hu; [|vm_compute; reflexivity|vm_compute; reflexivity].
  apply clamp_inside in Hn; [|vm_compute; reflexivity|vm_compute; reflexivity].
  assert (Eu : spec_location_risk baseline (user_location at_unknown) = 80%Q)
    by reflexivity.
  assert (En : spec_location_risk baseline (user_location at_new_york)
               = baseline) by reflexivity.
  rewrite Eu in Hu. rewrite En in Hn.
  simpl transaction_amount in Hu, Hn. simpl transaction_time in Hu, Hn.
  set (tr := time_risk "2024-01-20T03:00:00Z") in *.
  assert (Ha : _assess_amount_risk 0 = 10%Q) by reflexivity.
  rewrite Ha in Hu, Hn.
  assert (Hb : (baseline == 80)%Q).
  { assert (Hd : (baseline * 0.2 == 80 * 0.2)%Q).
    { apply (Qplus_inj_l _ _ (0 * 100 * 0.5 + 10 * 0.2)%Q).
      apply (Qplus_inj_r _ _ (tr * 0.1)%Q).
      rewrite Hu, Hn. reflexivity. }
    apply (Qmult_inj_r _ _ 0.2%Q); [discriminate|exact Hd]. }
  rewrite Hb in Hlow. exact (Qlt_irrefl _ Hlow).
Qed.

(** C3, amended.  The risk score is [clamp(base×0.5 + amount_risk×0.2 +
    location_risk×0.2 + time_risk×0.1, 0, 100)] with [base] the ensemble
    probability times 100, [amount_risk] the tiered step function, and, in
    this pipeline, [location_risk] the constant 20 and [time_risk] the
    constant 15 whatever the location and the time; it lies in [0, 100]. *)
Theorem risk_score_formula (p : Q) (t : TransactionFeatures) :
  let amount_risk := _assess_amount_risk (transaction_amount t) in
  amount_tier (transaction_amount t) amount_risk
  ∧ (∀ location, _assess_location_risk location = 20%Q)
  ∧ (∀ time, _assess_time_risk time = 15%Q)
  ∧ (_calculate_risk_score p t ==
     clamp (p * 100 * 0.5 + amount_risk * 0.2 + 20 * 0.2 + 15 * 0.1) 0 100)%Q
  ∧ (0 <= _calculate_risk_score p t)%Q
  ∧ (_calculate_risk_score p t <= 100)%Q.
Proof.
  cbv zeta. split; [apply _assess_amount_risk_tier|].
  split; [reflexivity|]. split; [reflexivity|].
  assert (Hb : (0 <= 100)%Q) by (vm_compute; discriminate).
  split; [reflexivity|].
  exact (clamp_bounds
           (p * 100 * 0.5 + _assess_amount_risk (transaction_amount t) * 0.2
            + _assess_location_risk (user_location t) * 0.2
            + _assess_time_risk (transaction_time t) * 0.1)%Q 0 100 Hb).
Qed.

(** ** The example scenario *)

Lemma scenario_runs (h : string → Z)
    (tid merchant category user device ip card : string) (ms : Q) :
  process_transaction h two_model_pipeline
    (scenario tid merchant category user device ip card) ms example_draws
  = inr (scenario_result tid,
         mkPipeline two_models 0.5 70 1 (0 + ms)%Q,
         mkRng (draws example_draws) 2).
Proof. reflexivity. Qed.

(** C7, as stated, fails on the score and the tier: the scenario's risk
    score is 64, not 80 or more, so its tier is high/orange. *)
Lemma scenario_scores_64 :
  (res_fraud_probability (scenario_result "txn_1") == 0.85)%Q
  ∧ (risk_score (scenario_result "txn_1") == 64)%Q
  ∧ ¬ (80 <= risk_score (scenario_result "txn_1"))%Q
  ∧ snd (get_risk_level (risk_score (scenario_result "txn_1"))) = "orange"
  ∧ ∀ h ms,
      process_transaction h two_model_pipeline
        (scenario "txn_1" "merch_001" "Electronics" "user_001"
           "device_abc123" "192.168.1.1" "4242") ms example_draws
      = inr (scenario_result "txn_1",
             mkPipeline two_models 0.5 70 1 (0 + ms)%Q,
             mkRng (draws example_draws) 2).
Proof.
  split; [vm_compute; reflexivity|]. split; [vm_compute; reflexivity|].
  split; [vm_compute; intros H; apply H; reflexivity|].
  split; [vm_compute; reflexivity|].
  intros h ms. apply scenario_runs.
Qed.

(** C7, amended.  For a transaction of amount 75000 at location "unknown"
    and hour 3, scored with exactly two active models that return 0.8 and
    0.9 at weights 1.0 and 1.0, the ensemble probability is 0.85, the risk
    score is 64, the tier is high/orange, the transaction is flagged and the
    recommendation is BLOCK. *)
Theorem scenario_outcome (h : string → Z)
    (tid merchant category user device ip card : string) (ms : Q) :
  ∃ r pl' g',
    process_transaction h two_model_pipeline
      (scenario tid merchant category user device ip card) ms example_draws
    = inr (r, pl', g')
    ∧ predicted_ids (model_predictions r) = ["rf_v1"; "gb_v1"]
    ∧ probabilities (model_predictions r) = [0.8; 0.9]%Q
    ∧ (res_fraud_probability r == 0.85)%Q
    ∧ (risk_score r == 64)%Q
    ∧ get_risk_level (risk_score r) = ("خطر عالي", "orange")
    ∧ is_flagged r = true
    ∧ recommendation r = BLOCK.
Proof.
  eexists. eexists. eexists. split; [apply scenario_runs|].
  repeat split; vm_compute; reflexivity.
Qed.

(** ** Missing and malformed request fields *)

Lemma dict_get_present (d : gmap string pyval) k dflt v :
  d !! k = Some v → dict_get d k dflt = v.
Proof. unfold dict_get. intros ->. reflexivity. Qed.

Lemma dict_get_absent (d : gmap string pyval) k dflt :
  d !! k = None → dict_get d k dflt = dflt.
Proof. unfold dict_get. intros ->. reflexivity. Qed.

Lemma py_lower_text (low : string → string) (d : gmap string pyval) k :
  absent_or_text (d !! k) → succeeds (py_lower low (dict_get d k (PStr ""))).
Proof.
  unfold dict_get, absent_or_text.
  destruct (d !! k) as [[]|]; simpl; try contradiction; intros _;
    eexists; reflexivity.
Qed.

Lemma py_lower_not_text (low : string → string) (d : gmap string pyval) k :
  ¬ absent_or_text (d !! k) →
  py_lower low (dict_get d k (PStr "")) = inl AttributeError.
Proof.
  unfold dict_get, absent_or_text.
  destruct (d !! k) as [[]|]; simpl; intros H; try reflexivity;
    exfalso; apply H; exact I.
Qed.

Lemma absent_or_text_dec (field : option pyval) :
  absent_or_text field ∨ ¬ absent_or_text field.
Proof. destruct field as [[]|]; simpl; auto. Qed.

Lemma absent_or_converts_get {A} (conv : pyval → result A)
    (d : gmap string pyval) k dflt :
  succeeds (conv dflt) → absent_or_converts conv (d !! k) →
  succeeds (conv (dict_get d k dflt)).
Proof.
  unfold dict_get, absent_or_converts.
  destruct (d !! k); simpl; auto.
Qed.

Lemma py_float_default (fos : string → string + pyfloat) :
  py_float fos (PInt 0) = inr (Finite 0).
Proof. reflexivity. Qed.

Lemma py_int_default (ios : string → string + Z) :
  py_int ios (PInt 30) = inr 30%Z.
Proof. reflexivity. Qed.

(** Which exception [float()] raises, by the kind of the value. *)
Lemma py_float_error (fos : string → string + pyfloat) (v : pyval) (e : pyerr) :
  py_float fos v = inl e → conversion_error v e.
Proof.
  destruct v as [|b|z|x|s| |]; unfold py_float; try discriminate.
  - intros H. injection H as <-. apply error_not_a_number. auto.
  - destruct (Z.ltb_spec (Z.abs z) float_int_limit) as [Hlt|Hge];
      [discriminate|].
    intros H. injection H as <-. apply error_too_large. exact Hge.
  - destruct (fos s) as [msg|x]; [|discriminate].
    intros H. injection H as <-. apply error_bad_text.
  - intros H. injection H as <-. apply error_not_a_number. auto.
  - intros H. injection H as <-. apply error_not_a_number. auto.
Qed.

(** Which exception [int()] raises, by the kind of the value. *)
Lemma py_int_error (ios : string → string + Z) (v : pyval) (e : pyerr) :
  py_int ios v = inl e → conversion_error v e.
Proof.
  destruct v as [|b|z|x|s| |]; unfold py_int; try discriminate.
  - intros H. injection H as <-. apply error_not_a_number. auto.
  - destruct x as [q|negative|]; [discriminate| |].
    + intros H. injection H as <-. apply error_infinity.
    + intros H. injection H as <-. apply error_nan.
  - destruct (ios s) as [msg|z]; [|discriminate].
    intros H. injection H as <-. apply error_bad_text.
  - intros H. injection H as <-. apply error_not_a_number. auto.
  - intros H. injection H as <-. apply error_not_a_number. auto.
Qed.

Lemma conversion_error_class (v : pyval) (e : pyerr) :
  conversion_error v e →
  e = TypeError ∨ e = OverflowError ∨ ∃ msg, e = ValueError msg.
Proof. intros []; eauto. Qed.

(** With a location and a device id that are absent or strings, the mapping
    is the three conversions, in the order amount, balance, age. *)
Lemma mapping_on_text (low : string → string)
    (fos : string → string + pyfloat) (ios : string → string + Z)
    (data : gmap string pyval) (hour dow : Z) (g : rng) :
  absent_or_text (data !! "location") →
  absent_or_text (data !! "device_id") →
  ∃ mk : pyfloat → pyfloat → Z → ml_row * rng,
    map_transaction_to_ml_format low fos ios data hour dow g
    = (let* amount := py_float fos (dict_get data "amount" (PInt 0)) in
       let* balance := py_float fos (dict_get data "balance" (PInt 0)) in
       let* age := py_int ios (dict_get data "age" (PInt 30)) in
       ok (mk amount balance age))
    ∧ ∀ a b n, ml_amount (fst (mk a b n)) = a
               ∧ ml_balance (fst (mk a b n)) = b
               ∧ ml_age (fst (mk a b n)) = n.
Proof.
  intros HL HD. unfold map_transaction_to_ml_format.
  destruct (py_lower_text low _ _ HL) as [loc ->]. cbn [rbind].
  destruct (py_lower_text low _ _ HD) as [dev ->]. cbn [rbind].
  eexists (fun a b n => (mkRow a b n _ _ _ _ _ _, _)).
  split; [reflexivity|]. intros a b n. repeat split.
Qed.

(** C5, as stated, fails: a missing age is replaced by 30 (and a missing
    amount or balance by 0) inside the mapping, and the endpoint goes on to
    the engine with the substituted value. *)
Lemma missing_age_is_defaulted :
  request_without_age !! "age" = None
  ∧ (∀ low fos ios hour dow g,
       ∃ row g',
         map_transaction_to_ml_format low fos ios request_without_age hour
           dow g = inr (row, g')
         ∧ ml_age row = 30%Z)
  ∧ (∀ low fos ios hour dow g,
       ∃ row,
         analyze_transaction low fos ios request_without_age hour dow g
         = Mapped row
         ∧ ml_age row = 30%Z)
  ∧ (∀ low fos ios hour dow g,
       ∃ row g',
         map_transaction_to_ml_format low fos ios ∅ hour dow g = inr (row, g')
         ∧ ml_amount row = Finite 0 ∧ ml_balance row = Finite 0
         ∧ ml_age row = 30%Z).
Proof.
  split; [reflexivity|]. split; [|split].
  - intros low fos ios hour dow g. eexists. eexists. split; reflexivity.
  - intros low fos ios hour dow g. eexists. split; reflexivity.
  - intros low fos ios hour dow g. eexists. eexists.
    split; [reflexivity|]. repeat split.
Qed.

(** C5, amended.  A present amount, balance or age that [float()] or
    [int()] rejects makes the mapping raise, and the code defines no
    [InvalidInputError]: the exception is [AttributeError] when the
    location or the device id is present and not a string, which the code
    meets first; otherwise it is the exception of the first rejected field
    in the order amount, balance, age, which is [TypeError] for [None], a
    list or an object, [ValueError] for a string that spells no number (and
    for [int()] of NaN), and [OverflowError] for an integer beyond the
    floats (and for [int()] of an infinity).  A missing amount, balance or
    age does not make it raise: the mapping puts 0, 0 and 30 in its place,
    and it succeeds whenever the location and the device id are absent or
    strings and each of amount, balance and age is absent or converts. *)
Theorem mapping_defaults_and_rejections (low : string → string)
    (fos : string → string + pyfloat) (ios : string → string + Z)
    (data : gmap string pyval) (hour dow : Z) (g : rng) :
  (present_and_rejected (py_float fos) (data !! "amount")
   ∨ present_and_rejected (py_float fos) (data !! "balance")
   ∨ present_and_rejected (py_int ios) (data !! "age") →
   ∃ err,
     map_transaction_to_ml_format low fos ios data hour dow g = inl err
     ∧ (err = AttributeError ∨ err = TypeError ∨ err = OverflowError
        ∨ ∃ msg, err = ValueError msg))
  ∧ (¬ absent_or_text (data !! "location")
     ∨ ¬ absent_or_text (data !! "device_id") →
     map_transaction_to_ml_format low fos ios data hour dow g
     = inl AttributeError)
  ∧ (absent_or_text (data !! "location") →
     absent_or_text (data !! "device_id") →
     (∀ v e, data !! "amount" = Some v → py_float fos v = inl e →
        map_transaction_to_ml_format low fos ios data hour dow g = inl e
        ∧ conversion_error v e)
     ∧ (absent_or_converts (py_float fos) (data !! "amount") →
        ∀ v e, data !! "balance" = Some v → py_float fos v = inl e →
          map_transaction_to_ml_format low fos ios data hour dow g = inl e
          ∧ conversion_error v e)
     ∧ (absent_or_converts (py_float fos) (data !! "amount") →
        absent_or_converts (py_float fos) (data !! "balance") →
        ∀ v e, data !! "age" = Some v → py_int ios v = inl e →
          map_transaction_to_ml_format low fos ios data hour dow g = inl e
          ∧ conversion_error v e))
  ∧ (∀ row g',
       map_transaction_to_ml_format low fos ios data hour dow g
       = inr (row, g') →
       (data !! "amount" = None → ml_amount row = Finite 0)
       ∧ (data !! "balance" = None → ml_balance row = Finite 0)
       ∧ (data !! "age" = None → ml_age row = 30%Z))
  ∧ (absent_or_text (data !! "location") →
     absent_or_text (data !! "device_id") →
     absent_or_converts (py_float fos) (data !! "amount") →
     absent_or_converts (py_float fos) (data !! "balance") →
     absent_or_converts (py_int ios) (data !! "age") →
     succeeds (map_transaction_to_ml_format low fos ios data hour dow g)).
Proof.
  set (run := map_transaction_to_ml_format low fos ios data hour dow g).
  assert (Hattr : ¬ absent_or_text (data !! "location")
                  ∨ ¬ absent_or_text (data !! "device_id") →
                  run = inl AttributeError).
  { intros Hno. unfold run, map_transaction_to_ml_format.
    destruct (absent_or_text_dec (data !! "location")) as [HL|HL].
    - destruct Hno as [Hno|Hno]; [contradiction|].
      destruct (py_lower_text low _ _ HL) as [loc ->]. cbn [rbind].
      rewrite (py_lower_not_text low _ _ Hno). reflexivity.
    - rewrite (py_lower_not_text low _ _ HL). reflexivity. }
  destruct (absent_or_text_dec (data !! "location")) as [HL|HL];
    [destruct (absent_or_text_dec (data !! "device_id")) as [HD|HD]|].
  2: { pose proof (Hattr (or_intror HD)) as Hrun.
       split; [intros _; exists AttributeError; auto|].
       split; [exact Hattr|]. split; [intros _ HD'; contradiction|].
       split; [intros row g' H; rewrite Hrun in H; discriminate|].
       intros _ HD'. contradiction. }
  2: { pose proof (Hattr (or_introl HL)) as Hrun.
       split; [intros _; exists AttributeError; auto|].
       split; [exact Hattr|]. split; [intros HL'; contradiction|].
       split; [intros row g' H; rewrite Hrun in H; discriminate|].
       intros HL'. contradiction. }
  destruct (mapping_on_text low fos ios data hour dow g HL HD)
    as (mk & Hrun & Hmk).
  fold run in Hrun.
  destruct (py_float fos (dict_get data "amount" (PInt 0))) as [e3|a] eqn:EA.
  { cbn [rbind] in Hrun.
    pose proof (py_float_error _ _ _ EA) as Hc.
    split; [intros _; exists e3; split; [exact Hrun|];
            right; exact (conversion_error_class _ _ Hc)|].
    split; [exact Hattr|]. split.
    - intros _ _. split; [|split].
      + intros v e Hv He. rewrite (dict_get_present _ _ _ _ Hv) in EA.
        assert (e3 = e) by congruence. subst e3.
        split; [exact Hrun|]. exact (py_float_error _ _ _ He).
      + intros HA. exfalso.
        apply (absent_or_converts_get _ _ _ (PInt 0)) in HA;
          [|eexists; apply py_float_default].
        destruct HA as [x Hx]. congruence.
      + intros HA. exfalso.
        apply (absent_or_converts_get _ _ _ (PInt 0)) in HA;
          [|eexists; apply py_float_default].
        destruct HA as [x Hx]. congruence.
    - split; [intros row g' H; rewrite Hrun in H; discriminate|].
      intros _ _ HA. exfalso.
      apply (absent_or_converts_get _ _ _ (PInt 0)) in HA;
        [|eexists; apply py_float_default].
      destruct HA as [x Hx]. congruence. }
  destruct (py_float fos (dict_get data "balance" (PInt 0))) as [e4|b] eqn:EB.
  { cbn [rbind] in Hrun.
    pose proof (py_float_error _ _ _ EB) as Hc.
    split; [intros _; exists e4; split; [exact Hrun|];
            right; exact (conversion_error_class _ _ Hc)|].
    split; [exact Hattr|]. split.
    - intros _ _. split; [|split].
      + intros v e Hv He. exfalso.
        rewrite (dict_get_present _ _ _ _ Hv) in EA. congruence.
      + intros _ v e Hv He. rewrite (dict_get_present _ _ _ _ Hv) in EB.
        assert (e4 = e) by congruence. subst e4.
        split; [exact Hrun|]. exact (py_float_error _ _ _ He).
      + intros _ HB. exfalso.
        apply (absent_or_converts_get _ _ _ (PInt 0)) in HB;
          [|eexists; apply py_float_default].
        destruct HB as [x Hx]. congruence.
    - split; [intros row g' H; rewrite Hrun in H; discriminate|].
      intros _ _ _ HB. exfalso.
      apply (absent_or_converts_get _ _ _ (PInt 0)) in HB;
        [|eexists; apply py_float_default].
      destruct HB as [x Hx]. congruence. }
  destruct (py_int ios (dict_get data "age" (PInt 30))) as [e5|n] eqn:EG.
  { cbn [rbind] in Hrun.
    pose proof (py_int_error _ _ _ EG) as Hc.
    split; [intros _; exists e5; split; [exact Hrun|];
            right; exact (conversion_error_class _ _ Hc)|].
    split; [exact Hattr|]. split.
    - intros _ _. split; [|split].
      + intros v e Hv He. exfalso.
        rewrite (dict_get_present _ _ _ _ Hv) in EA. congruence.
      + intros _ v e Hv He. exfalso.
        rewrite (dict_get_present _ _ _ _ Hv) in EB. congruence.
      + intros _ _ v e Hv He. rewrite (dict_get_present _ _ _ _ Hv) in EG.
        assert (e5 = e) by congruence. subst e5.
        split; [exact Hrun|]. exact (py_int_error _ _ _ He).
    - split; [intros row g' H; rewrite Hrun in H; discriminate|].
      intros _ _ _ _ HG. exfalso.
      apply (absent_or_converts_get _ _ _ (PInt 30)) in HG;
        [|eexists; apply py_int_default].
      destruct HG as [x Hx]. congruence. }
  cbn [rbind] in Hrun.
  split; [|split; [exact Hattr|split; [|split]]].
  - intros [(v & e & Hv & He) | [(v & e & Hv & He) | (v & e & Hv & He)]];
      exfalso.
    + rewrite (dict_get_present _ _ _ _ Hv) in EA. congruence.
    + rewrite (dict_get_present _ _ _ _ Hv) in EB. congruence.
    + rewrite (dict_get_present _ _ _ _ Hv) in EG. congruence.
  - intros _ _. split; [|split].
    + intros v e Hv He. exfalso.
      rewrite (dict_get_present _ _ _ _ Hv) in EA. congruence.
    + intros _ v e Hv He. exfalso.
      rewrite (dict_get_present _ _ _ _ Hv) in EB. congruence.
    + intros _ _ v e Hv He. exfalso.
      rewrite (dict_get_present _ _ _ _ Hv) in EG. congruence.
  - intros row g' H. rewrite Hrun in H.
    assert (Hrow : row = fst (mk a b n)).
    { apply (f_equal (fun r : result (ml_row * rng) =>
                        match r with inr x => fst x | inl _ => row end)) in H.
      symmetry. exact H. }
    destruct (Hmk a b n) as (Ha & Hb & Hn). subst row.
    rewrite Ha, Hb, Hn.
    split; [|split]; intros Hnone.
    + rewrite (dict_get_absent _ _ _ Hnone), py_float_default in EA.
      congruence.
    + rewrite (dict_get_absent _ _ _ Hnone), py_float_default in EB.
      congruence.
    + rewrite (dict_get_absent _ _ _ Hnone), py_int_default in EG.
      congruence.
  - intros _ _ _ _ _. eexists. exact Hrun.
Qed.

Lemma mapping_defaults_and_rejections_witness :
  map_transaction_to_ml_format lower read_float read_int request_bad_amount
    14 2 example_draws
  = inl (ValueError "could not convert string to float: 'abc'")
  ∧ map_transaction_to_ml_format lower read_float read_int
      request_bad_location 14 2 example_draws
    = inl AttributeError
  ∧ map_transaction_to_ml_format lower read_float read_int
      request_huge_amount 14 2 example_draws
    = inl OverflowError
  ∧ absent_or_converts (py_int read_int) (request_without_age !! "age")
  ∧ succeeds (map_transaction_to_ml_format lower read_float read_int
                request_without_age 14 2 example_draws).
Proof.
  split; [|split; [|split; [|split]]].
  - destruct (mapping_defaults_and_rejections lower read_float read_int
                request_bad_amount 14 2 example_draws)
      as (_ & _ & Hwhich & _).
    destruct (Hwhich I I) as (Hamount & _).
    apply (Hamount (PStr "abc")); reflexivity.
  - destruct (mapping_defaults_and_rejections lower read_float read_int
                request_bad_location 14 2 example_draws)
      as (_ & Hattr & _).
    apply Hattr. left. intros H. exact H.
  - destruct (mapping_defaults_and_rejections lower read_float read_int
                request_huge_amount 14 2 example_draws)
      as (_ & _ & Hwhich & _).
    destruct (Hwhich I I) as (Hamount & _).
    apply (Hamount (PInt (10 ^ 400))); reflexivity.
  - exact I.
  - destruct (mapping_defaults_and_rejections lower read_float read_int
                request_without_age 14 2 example_draws)
      as (_ & _ & _ & _ & Hsucc).
    apply Hsucc; try exact I; eexists; reflexivity.
Defined.

(** * Further properties of the cited files *)

(** ** The ensemble probability is a probability *)

Lemma take_draws_in_unit (g : rng) (n : nat) :
  draws_in_unit g → Forall in_unit (take_draws g n).
Proof.
  revert g. induction n as [|n IH]; intros g Hg; simpl.
  - apply Forall_nil. exact I.
  - apply Forall_cons. split.
    + exact (Hg (cursor g)).
    + apply IH. intros k. exact (Hg k).
Qed.

Lemma Qsum_nonneg (l : list Q) :
  Forall (fun w => (0 <= w)%Q) l → (0 <= Qsum l)%Q.
Proof.
  induction 1 as [|w l Hw _ IH]; unfold Qsum in *; simpl; lra.
Qed.

Lemma weighted_sum_bounds (ws ps : list Q) :
  Forall (fun w => (0 <= w)%Q) ws → Forall in_unit ps →
  (0 <= Qsum (zip_with Qmult ws ps))%Q
  ∧ (Qsum (zip_with Qmult ws ps) <= Qsum ws)%Q.
Proof.
  intros Hws. revert ps. induction Hws as [|w ws Hw Hws IH]; intros ps Hps.
  - unfold Qsum. simpl. lra.
  - destruct Hps as [|p ps [Hp0 Hp1] Hps].
    + pose proof (Qsum_nonneg ws Hws) as Hn. unfold Qsum in *. simpl. lra.
    + destruct (IH ps Hps) as [Hlo Hhi]. unfold Qsum in *. simpl.
      assert (H0 : (0 <= w * p)%Q) by (apply Qmult_le_0_compat; assumption).
      assert (H1 : (w * p <= w)%Q) by nra.
      lra.
Qed.

Lemma weighted_average_in_unit (ws ps : list Q) :
  Forall (fun w => (0 <= w)%Q) ws → Forall in_unit ps →
  (0 < Qsum ws)%Q → in_unit (weighted_average ws ps).
Proof.
  intros Hws Hps Hpos. destruct (weighted_sum_bounds ws ps Hws Hps) as [Hlo Hhi].
  unfold weighted_average. split.
  - apply Qle_shift_div_l; [exact Hpos|]. lra.
  - apply Qle_shift_div_r; [exact Hpos|]. lra.
Qed.

Lemma active_weights_nonneg (o : ModelOrchestrator) :
  weights_nonneg o → Forall (fun w => (0 <= w)%Q) (active_weights o).
Proof.
  intros Hnn. unfold active_weights. apply Forall_map, Forall_forall.
  intros mid _. unfold weight_of.
  destruct (model_weights o !! mid) as [w|] eqn:E; simpl.
  - exact (Hnn mid w E).
  - apply Qle_refl.
Qed.

Lemma ensemble_predict_in_unit (o : ModelOrchestrator) (f : list Q) (g g' : rng)
    (prob : Q) (d : ensemble_details) :
  registry_ok o → active_models o ≠ [] → weights_nonneg o →
  draws_in_unit g →
  ensemble_predict o f g = inr (prob, d, g') →
  Forall in_unit (probabilities d) ∧ in_unit prob.
Proof.
  intros Hok Hne Hnn Hg Hrun.
  destruct (ensemble_predict_spec o f g Hok Hne)
    as (prob' & d' & Hrun' & _ & _ & Hps & _ & Havg & Hzero).
  rewrite Hrun in Hrun'. injection Hrun' as -> -> _.
  assert (Hunit : Forall in_unit (probabilities d')).
  { rewrite Hps. apply take_draws_in_unit, Hg. }
  split; [exact Hunit|].
  destruct (Qlt_le_dec 0 (Qsum (active_weights o))) as [Hpos | Hle].
  - destruct (weighted_average_in_unit (active_weights o) (probabilities d')
                (active_weights_nonneg o Hnn) Hunit Hpos) as [Hlo Hhi].
    specialize (Havg Hpos). unfold in_unit. rewrite Havg. split; assumption.
  - rewrite (Hzero Hle). unfold in_unit. split; [apply Qle_refl|].
    vm_compute. discriminate.
Qed.

(** X1.  With non-negative weights and models that answer with probabilities,
    the ensemble probability is a probability, whatever the total weight. *)
Theorem ensemble_probability_in_unit (o : ModelOrchestrator) (f : list Q)
    (g : rng) :
  registry_ok o → active_models o ≠ [] → weights_nonneg o →
  draws_in_unit g →
  ∃ prob d g',
    ensemble_predict o f g = inr (prob, d, g')
    ∧ Forall in_unit (probabilities d)
    ∧ in_unit prob.
Proof.
  intros Hok Hne Hnn Hg.
  destruct (ensemble_predict_spec o f g Hok Hne) as (prob & d & Hrun & _).
  exists prob, d. eexists. split; [exact Hrun|].
  exact (ensemble_predict_in_unit o f g _ prob d Hok Hne Hnn Hg Hrun).
Qed.

Lemma example_draws_in_unit : draws_in_unit example_draws.
Proof.
  intros n. unfold example_draws. simpl.
  destruct n; split; vm_compute; discriminate.
Qed.

Lemma setup_models_nonneg :
  weights_nonneg (orchestrator (setup_models new_pipeline)).
Proof.
  assert (H : run_ops [Register rf_v1 1; Register gb_v1 1; Register if_v1 1]
                new_orchestrator
              = inr (orchestrator (setup_models new_pipeline))) by reflexivity.
  eapply run_ops_nonneg; [|exact new_orchestrator_nonneg|exact H].
  repeat (apply Forall_cons; split); try apply Forall_nil; simpl;
    try exact I; vm_compute; discriminate.
Qed.

Lemma ensemble_probability_in_unit_witness :
  let o := orchestrator (setup_models new_pipeline) in
  registry_ok o ∧ active_models o ≠ [] ∧ weights_nonneg o
  ∧ draws_in_unit example_draws
  ∧ ∃ prob d g',
      ensemble_predict o [] example_draws = inr (prob, d, g')
      ∧ Forall in_unit (probabilities d)
      ∧ in_unit prob.
Proof.
  cbv zeta.
  assert (Hne : active_models (orchestrator (setup_models new_pipeline)) ≠ [])
    by discriminate.
  split; [exact setup_models_ok|]. split; [exact Hne|].
  split; [exact setup_models_nonneg|]. split; [exact example_draws_in_unit|].
  exact (ensemble_probability_in_unit _ [] example_draws setup_models_ok Hne
           setup_models_nonneg example_draws_in_unit).
Defined.

(** ** Scoring a transaction *)

Lemma _assess_amount_risk_range (amount : Q) :
  (10 <= _assess_amount_risk amount)%Q ∧ (_assess_amount_risk amount <= 80)%Q.
Proof.
  destruct (_assess_amount_risk_tier amount)
    as [[_ ->] | [(_ & _ & ->) | [(_ & _ & ->) | [_ ->]]]];
    split; vm_compute; discriminate.
Qed.

Lemma _assess_amount_risk_monotone (a1 a2 : Q) :
  (a1 <= a2)%Q → (_assess_amount_risk a1 <= _assess_amount_risk a2)%Q.
Proof.
  intros Hle.
  destruct (_assess_amount_risk_tier a1)
    as [[H1 ->] | [(H1 & H1' & ->) | [(H1 & H1' & ->) | [H1 ->]]]];
    destruct (_assess_amount_risk_tier a2)
      as [[H2 ->] | [(H2 & H2' & ->) | [(H2 & H2' & ->) | [H2 ->]]]];
    try (vm_compute; discriminate); exfalso; lra.
Qed.

(** For a probability in [0, 1] nothing is clamped, and the rule-based
    terms add between 7.5 and 21.5 points to half the percentage. *)
Lemma risk_score_band (p : Q) (t : TransactionFeatures) :
  in_unit p →
  (50 * p + 7.5 <= _calculate_risk_score p t)%Q
  ∧ (_calculate_risk_score p t <= 50 * p + 21.5)%Q.
Proof.
  intros [Hp0 Hp1]. unfold _calculate_risk_score.
  unfold _assess_location_risk, _assess_time_risk.
  destruct (_assess_amount_risk_range (transaction_amount t)) as [Hlo Hhi].
  set (ar := _assess_amount_risk (transaction_amount t)) in *.
  cbv zeta.
  rewrite (Q.max_r 0 (p * 100 * 0.5 + ar * 0.2 + 20 * 0.2 + 15 * 0.1)) by lra.
  rewrite (Q.min_r 100 (p * 100 * 0.5 + ar * 0.2 + 20 * 0.2 + 15 * 0.1)) by lra.
  split; lra.
Qed.

(** X2.  [process_transaction] on a registry that satisfies the invariant and
    has an active model: it returns a result, consumes one draw per active
    model, counts the call and its duration, and leaves the registry and
    the thresholds as they were. *)
Theorem process_transaction_succeeds (h : string → Z) (pl : InferencePipeline)
    (t : TransactionFeatures) (ms : Q) (g : rng) :
  registry_ok (orchestrator pl) → active_models (orchestrator pl) ≠ [] →
  ∃ r pl' g',
    process_transaction h pl t ms g = inr (r, pl', g')
    ∧ orchestrator pl' = orchestrator pl
    ∧ fraud_threshold pl' = fraud_threshold pl
    ∧ risk_score_threshold pl' = risk_score_threshold pl
    ∧ inference_count pl' = S (inference_count pl)
    ∧ total_inference_time pl' = (total_inference_time pl + ms)%Q
    ∧ g' = mkRng (draws g)
             (cursor g + length (active_models (orchestrator pl)))
    ∧ res_transaction_id r = transaction_id t
    ∧ predicted_ids (model_predictions r) = active_models (orchestrator pl)
    ∧ risk_score r = _calculate_risk_score (res_fraud_probability r) t
    ∧ (0 <= risk_score r)%Q ∧ (risk_score r <= 100)%Q
    ∧ (recommendation r = APPROVE ↔ is_flagged r = false).
Proof.
  intros Hok Hne.
  destruct (ensemble_predict_spec (orchestrator pl) (to_feature_vector h t) g
              Hok Hne) as (prob & d & Hrun & _ & Hids & _).
  unfold process_transaction. rewrite Hrun. simpl.
  eexists. eexists. eexists. split; [reflexivity|]. simpl.
  repeat split; try reflexivity; try exact Hids.
  - apply Q.min_glb; [vm_compute; discriminate|apply Q.le_max_l].
  - apply Q.le_min_l.
  - unfold _generate_recommendation.
    destruct (flag_of pl prob (_calculate_risk_score prob t)); simpl;
      [|reflexivity].
    destruct (_ || _); [discriminate|]. destruct (_ || _); discriminate.
  - unfold _generate_recommendation. intros ->. reflexivity.
Qed.

Lemma process_transaction_succeeds_witness :
  let pl := setup_models new_pipeline in
  registry_ok (orchestrator pl) ∧ active_models (orchestrator pl) ≠ []
  ∧ ∃ r pl' g',
      process_transaction (fun _ => 0%Z) pl example_transaction 3
        example_draws = inr (r, pl', g')
      ∧ orchestrator pl' = orchestrator pl
      ∧ inference_count pl' = 1
      ∧ cursor g' = 3
      ∧ res_transaction_id r = "txn_12345".
Proof.
  cbv zeta.
  assert (Hne : active_models (orchestrator (setup_models new_pipeline)) ≠ [])
    by discriminate.
  split; [exact setup_models_ok|]. split; [exact Hne|].
  destruct (process_transaction_succeeds (fun _ => 0%Z)
              (setup_models new_pipeline) example_transaction 3 example_draws
              setup_models_ok Hne)
    as (r & pl' & g' & Hrun & Ho & _ & _ & Hc & _ & Hg & Hid & _).
  exists r, pl', g'. split; [exact Hrun|]. split; [exact Ho|].
  split; [exact Hc|]. split; [rewrite Hg; reflexivity|exact Hid].
Defined.

(** X3.  With the default thresholds, models that answer with probabilities and
    non-negative weights, the risk score never decides: it stays between
    7.5 and 71.5, the transaction is flagged exactly when the ensemble
    probability is at least 0.5, and the recommendation follows the
    probability alone (below 0.5 approve, up to 0.6 challenge, up to 0.8
    review, above 0.8 block). *)
Theorem recommendation_follows_probability (h : string → Z)
    (pl : InferencePipeline) (t : TransactionFeatures) (ms : Q) (g : rng) :
  fraud_threshold pl = 0.5%Q → risk_score_threshold pl = 70%Q →
  registry_ok (orchestrator pl) → active_models (orchestrator pl) ≠ [] →
  weights_nonneg (orchestrator pl) → draws_in_unit g →
  ∃ r pl' g',
    process_transaction h pl t ms g = inr (r, pl', g')
    ∧ in_unit (res_fraud_probability r)
    ∧ (7.5 <= risk_score r)%Q ∧ (risk_score r <= 71.5)%Q
    ∧ (is_flagged r = true ↔ (0.5 <= res_fraud_probability r)%Q)
    ∧ ((res_fraud_probability r < 0.5)%Q → recommendation r = APPROVE)
    ∧ ((0.5 <= res_fraud_probability r)%Q →
       (res_fraud_probability r <= 0.6)%Q → recommendation r = CHALLENGE)
    ∧ ((0.6 < res_fraud_probability r)%Q →
       (res_fraud_probability r <= 0.8)%Q → recommendation r = REVIEW)
    ∧ ((0.8 < res_fraud_probability r)%Q → recommendation r = BLOCK).
Proof.
  intros Hft Hrt Hok Hne Hnn Hg.
  destruct (ensemble_predict_spec (orchestrator pl) (to_feature_vector h t) g
              Hok Hne) as (prob & d & Hrun & _).
  destruct (ensemble_predict_in_unit _ _ _ _ _ _ Hok Hne Hnn Hg Hrun)
    as [_ Hunit].
  unfold process_transaction. rewrite Hrun. simpl.
  eexists. eexists. eexists. split; [reflexivity|]. simpl.
  destruct (risk_score_band prob t Hunit) as [Hlo Hhi].
  destruct Hunit as [Hp0 Hp1].
  set (s := _calculate_risk_score prob t) in *.
  assert (Hflag : flag_of pl prob s = true ↔ (0.5 <= prob)%Q).
  { rewrite flag_of_spec, Hft, Hrt. split; [|tauto].
    intros [H | H]; [exact H|lra]. }
  assert (Hb : Qltb 0.8 prob || Qltb 90 s = true ↔ (0.8 < prob)%Q).
  { rewrite block_condition_spec. split; [|tauto].
    intros [H | H]; [exact H|lra]. }
  assert (Hr : Qltb 0.6 prob || Qltb 75 s = true ↔ (0.6 < prob)%Q).
  { rewrite review_condition_spec. split; [|tauto].
    intros [H | H]; [exact H|lra]. }
  split; [split; assumption|]. split; [lra|]. split; [lra|].
  split; [exact Hflag|].
  unfold _generate_recommendation.
  destruct (flag_of pl prob s) eqn:Ef; simpl.
  - assert (H5 : (0.5 <= prob)%Q) by (apply Hflag; reflexivity).
    destruct (Qltb 0.8 prob || Qltb 90 s) eqn:Eb.
    + assert (H8 : (0.8 < prob)%Q) by (apply Hb; reflexivity).
      repeat split; intros; try reflexivity; exfalso; lra.
    + assert (H8 : ¬ (0.8 < prob)%Q) by (rewrite <- Hb; congruence).
      destruct (Qltb 0.6 prob || Qltb 75 s) eqn:Er.
      * assert (H6 : (0.6 < prob)%Q) by (apply Hr; reflexivity).
        repeat split; intros; try reflexivity; exfalso;
          first [contradiction | lra].
      * assert (H6 : ¬ (0.6 < prob)%Q) by (rewrite <- Hr; congruence).
        repeat split; intros; try reflexivity; exfalso;
          first [contradiction | lra].
  - assert (H5 : ¬ (0.5 <= prob)%Q) by (rewrite <- Hflag; congruence).
    repeat split; intros; try reflexivity; exfalso;
      first [contradiction | lra].
Qed.

Lemma recommendation_follows_probability_witness :
  let pl := setup_models new_pipeline in
  fraud_threshold pl = 0.5%Q ∧ risk_score_threshold pl = 70%Q
  ∧ registry_ok (orchestrator pl) ∧ active_models (orchestrator pl) ≠ []
  ∧ weights_nonneg (orchestrator pl) ∧ draws_in_unit example_draws
  ∧ ∃ r pl' g',
      process_transaction (fun _ => 0%Z) pl example_transaction 3
        example_draws = inr (r, pl', g')
      ∧ in_unit (res_fraud_probability r)
      ∧ (risk_score r <= 71.5)%Q.
Proof.
  cbv zeta.
  assert (Hne : active_models (orchestrator (setup_models new_pipeline)) ≠ [])
    by discriminate.
  split; [reflexivity|]. split; [reflexivity|].
  split; [exact setup_models_ok|]. split; [exact Hne|].
  split; [exact setup_models_nonneg|]. split; [exact example_draws_in_unit|].
  destruct (recommendation_follows_probability (fun _ => 0%Z)
              (setup_models new_pipeline) example_transaction 3 example_draws
              eq_refl eq_refl setup_models_ok Hne setup_models_nonneg
              example_draws_in_unit)
    as (r & pl' & g' & Hrun & Hunit & _ & Hhi & _).
  exists r, pl', g'. split; [exact Hrun|]. split; assumption.
Defined.

(** X4.  The risk score reads the probability and the amount only, and grows
    with both. *)
Theorem risk_score_monotone (p1 p2 : Q) (t1 t2 : TransactionFeatures) :
  (p1 <= p2)%Q → (transaction_amount t1 <= transaction_amount t2)%Q →
  (_calculate_risk_score p1 t1 <= _calculate_risk_score p2 t2)%Q.
Proof.
  intros Hp Ha. unfold _calculate_risk_score.
  unfold _assess_location_risk, _assess_time_risk. cbv zeta.
  pose proof (_assess_amount_risk_monotone _ _ Ha) as Har.
  apply Q.min_le_compat_l, Q.max_le_compat_l. lra.
Qed.

Lemma risk_score_monotone_witness :
  (0.2 <= 0.7)%Q
  ∧ (transaction_amount at_new_york <= transaction_amount example_transaction)%Q
  ∧ (_calculate_risk_score 0.2 at_new_york
     <= _calculate_risk_score 0.7 example_transaction)%Q.
Proof.
  assert (Hp : (0.2 <= 0.7)%Q) by (vm_compute; discriminate).
  assert (Ha : (transaction_amount at_new_york
                <= transaction_amount example_transaction)%Q)
    by (vm_compute; discriminate).
  split; [exact Hp|]. split; [exact Ha|].
  exact (risk_score_monotone 0.2 0.7 at_new_york example_transaction Hp Ha).
Defined.

(** ** Updating weights *)

Lemma update_model_weights_fold (ws : list (string * Q)) (o : ModelOrchestrator) :
  model_weights (update_model_weights ws o)
  = fold_left (weight_step (models o)) ws (model_weights o).
Proof.
  unfold update_model_weights. revert o.
  induction ws as [|kv ws IH]; intros o; simpl; [reflexivity|].
  unfold weight_step at 2.
  destruct (in_dict kv.1 (models o)); rewrite IH; reflexivity.
Qed.

Lemma fold_weight_step_lookup (registered : gmap string ModelMetadata)
    (ws : list (string * Q)) (k : string) :
  ∀ stored,
    fold_left (weight_step registered) ws stored !! k
    = match last_assign registered ws k with
      | Some v => Some v
      | None => stored !! k
      end.
Proof.
  induction ws as [|kv ws IH]; intros stored; simpl; [reflexivity|].
  rewrite IH. destruct (last_assign registered ws k); [reflexivity|].
  unfold weight_step. destruct (in_dict kv.1 registered).
  - rewrite andb_true_r. case_bool_decide as Hk.
    + rewrite Hk. apply lookup_insert_eq.
    + apply lookup_insert_ne. exact Hk.
  - rewrite andb_false_r. reflexivity.
Qed.

Lemma last_assign_unregistered (registered : gmap string ModelMetadata)
    (ws : list (string * Q)) (k : string) :
  registered !! k = None → last_assign registered ws k = None.
Proof.
  intros Hk. induction ws as [|kv ws IH]; simpl; [reflexivity|].
  rewrite IH. case_bool_decide as He; [|reflexivity]. simpl.
  rewrite He. unfold in_dict. rewrite bool_decide_eq_false_2; [reflexivity|].
  rewrite Hk. intros [? ?]. discriminate.
Qed.

Lemma last_assign_unlisted (registered : gmap string ModelMetadata)
    (ws : list (string * Q)) (k : string) :
  k ∉ map fst ws → last_assign registered ws k = None.
Proof.
  induction ws as [|kv ws IH]; simpl; [reflexivity|].
  intros Hk. apply not_elem_of_cons in Hk as [Hne Hk].
  rewrite (IH Hk). rewrite bool_decide_eq_false_2 by congruence. reflexivity.
Qed.

Lemma last_assign_app (registered : gmap string ModelMetadata)
    (ws1 ws2 : list (string * Q)) (k : string) :
  last_assign registered (ws1 ++ ws2) k
  = match last_assign registered ws2 k with
    | Some v => Some v
    | None => last_assign registered ws1 k
    end.
Proof.
  induction ws1 as [|kv ws1 IH]; simpl.
  - destruct (last_assign registered ws2 k); reflexivity.
  - rewrite IH. destruct (last_assign registered ws2 k); reflexivity.
Qed.

(** X5.  [update_model_weights] touches nothing but the weights; it stores no
    weight for an id that is not registered, leaves alone every id the map
    does not list, and gives a listed, registered id the last weight the
    map has for it. *)
Theorem update_model_weights_effect (ws : list (string * Q))
    (o : ModelOrchestrator) :
  models (update_model_weights ws o) = models o
  ∧ active_models (update_model_weights ws o) = active_models o
  ∧ (∀ k, models o !! k = None →
       model_weights (update_model_weights ws o) !! k = model_weights o !! k)
  ∧ (∀ k, k ∉ map fst ws →
       model_weights (update_model_weights ws o) !! k = model_weights o !! k)
  ∧ (∀ k v ws1 ws2,
       ws = (ws1 ++ (k, v) :: ws2)%list → k ∉ map fst ws2 →
       is_Some (models o !! k) →
       model_weights (update_model_weights ws o) !! k = Some v).
Proof.
  destruct (update_model_weights_frame ws o) as [Hm Ha].
  split; [exact Hm|]. split; [exact Ha|].
  rewrite update_model_weights_fold. split; [|split].
  - intros k Hk. rewrite fold_weight_step_lookup.
    rewrite (last_assign_unregistered _ _ _ Hk). reflexivity.
  - intros k Hk. rewrite fold_weight_step_lookup.
    rewrite (last_assign_unlisted _ _ _ Hk). reflexivity.
  - intros k v ws1 ws2 -> Hk Hreg. rewrite fold_weight_step_lookup.
    rewrite last_assign_app. simpl.
    rewrite (last_assign_unlisted _ _ _ Hk). simpl.
    rewrite bool_decide_eq_true_2 by reflexivity.
    assert (Hd : in_dict k (models o) = true) by (apply in_dict_true, Hreg).
    rewrite Hd. reflexivity.
Qed.

Lemma orchestrator_eq (o1 o2 : ModelOrchestrator) :
  models o1 = models o2 → model_weights o1 = model_weights o2 →
  active_models o1 = active_models o2 → o1 = o2.
Proof. destruct o1, o2. simpl. intros -> -> ->. reflexivity. Qed.

(** X6.  Sending the same weight map twice leaves the registry as sending it
    once does. *)
Theorem update_model_weights_idempotent (ws : list (string * Q))
    (o : ModelOrchestrator) :
  update_model_weights ws (update_model_weights ws o)
  = update_model_weights ws o.
Proof.
  destruct (update_model_weights_frame ws o) as [Hm Ha].
  destruct (update_model_weights_frame ws (update_model_weights ws o))
    as [Hm' Ha'].
  apply orchestrator_eq; [exact Hm'| |exact Ha'].
  apply map_eq. intros k.
  rewrite (update_model_weights_fold ws (update_model_weights ws o)).
  rewrite fold_weight_step_lookup, Hm.
  rewrite update_model_weights_fold, fold_weight_step_lookup.
  destruct (last_assign (models o) ws k); reflexivity.
Qed.

(** ** The active flag and the active list *)

Lemma list_remove_NoDup (x : string) (l : list string) :
  NoDup l → NoDup (list_remove x l) ∧ ∀ y, y ∈ list_remove x l ↔ y ∈ l ∧ y ≠ x.
Proof.
  induction 1 as [|z l Hz Hl IH]; simpl.
  - split; [constructor|]. intros y. rewrite elem_of_nil. tauto.
  - destruct IH as [IHn IHe]. case_bool_decide as Hxz.
    + subst z. split; [exact Hl|]. intros y. rewrite elem_of_cons.
      split.
      * intros Hy. split; [right; exact Hy|]. intros ->. contradiction.
      * intros [[-> | Hy] Hne]; [contradiction|exact Hy].
    + split.
      * constructor; [|exact IHn]. rewrite IHe. tauto.
      * intros y. rewrite !elem_of_cons, IHe. split.
        -- intros [-> | [Hy Hne]]; split; auto.
        -- intros [[-> | Hy] Hne]; auto.
Qed.

Lemma not_active_if_unregistered (o : ModelOrchestrator) (k : string) :
  registry_ok o → models o !! k = None → k ∉ active_models o.
Proof.
  intros [Ha _] Hk Hin. destruct (Ha k Hin) as [m Hm]. congruence.
Qed.

Lemma register_model_consistent (metadata : ModelMetadata) (weight : Q)
    (o : ModelOrchestrator) :
  registry_ok o → flags_consistent o →
  models o !! model_id metadata = None →
  flags_consistent (register_model metadata weight o).
Proof.
  intros Hok [Hnd Hfl] Hfresh.
  pose proof (not_active_if_unregistered o _ Hok Hfresh) as Hnot.
  unfold register_model. split; simpl.
  - destruct (is_active metadata); [|exact Hnd].
    apply NoDup_app. split; [exact Hnd|]. split.
    + intros x Hx Hx'. apply list_elem_of_singleton in Hx'. subst x.
      contradiction.
    + apply NoDup_singleton.
  - intros k m. rewrite lookup_insert_Some.
    intros [[<- <-] | [Hne Hk]].
    + split; [reflexivity|]. destruct (is_active metadata).
      * split; [intros _|reflexivity]. apply elem_of_app. right.
        apply list_elem_of_singleton. reflexivity.
      * split; [discriminate|]. intros Hin. contradiction.
    + destruct (Hfl k m Hk) as [Hid Hact]. split; [exact Hid|].
      rewrite Hact. destruct (is_active metadata); [|reflexivity].
      rewrite elem_of_app, list_elem_of_singleton. split; [tauto|].
      intros [H | H]; [exact H|]. congruence.
Qed.

Lemma activate_model_consistent (mid : string) (o : ModelOrchestrator) :
  flags_consistent o → flags_consistent (activate_model mid o).
Proof.
  intros [Hnd Hfl]. unfold activate_model.
  destruct (in_dict mid (models o)) eqn:Ed; simpl; [|split; assumption].
  destruct (in_list mid (active_models o)) eqn:El; simpl; [split; assumption|].
  assert (Hnot : mid ∉ active_models o).
  { intros Hin. apply in_list_true in Hin. congruence. }
  split; simpl.
  - apply NoDup_app. split; [exact Hnd|]. split.
    + intros x Hx Hx'. apply list_elem_of_singleton in Hx'. subst x.
      contradiction.
    + apply NoDup_singleton.
  - intros k m. rewrite lookup_alter_Some.
    intros [(-> & m0 & Hm0 & ->) | [Hne Hk]].
    + destruct (Hfl _ _ Hm0) as [Hid _]. split; [exact Hid|]. simpl.
      split; [intros _|reflexivity]. apply elem_of_app. right.
      apply list_elem_of_singleton. reflexivity.
    + destruct (Hfl k m Hk) as [Hid Hact]. split; [exact Hid|].
      rewrite Hact, elem_of_app, list_elem_of_singleton. split; [tauto|].
      intros [H | H]; [exact H|]. congruence.
Qed.

Lemma deactivate_model_consistent (mid : string) (o o' : ModelOrchestrator) :
  flags_consistent o → deactivate_model mid o = inr o' → flags_consistent o'.
Proof.
  intros [Hnd Hfl]. unfold deactivate_model.
  destruct (in_list mid (active_models o)) eqn:El.
  - unfold getitem. destruct (models o !! mid) as [m0|] eqn:Hm0; simpl;
      [|discriminate].
    intros H. injection H as <-.
    destruct (list_remove_NoDup mid _ Hnd) as [Hnd' Hin'].
    split; simpl; [exact Hnd'|].
    intros k m. rewrite lookup_insert_Some.
    intros [[<- <-] | [Hne Hk]].
    + destruct (Hfl _ _ Hm0) as [Hid _]. split; [exact Hid|]. simpl.
      rewrite Hin'. split; [discriminate|]. intros [_ H]. congruence.
    + destruct (Hfl k m Hk) as [Hid Hact]. split; [exact Hid|].
      rewrite Hact, Hin'. split; [|tauto]. intros H. split; [exact H|].
      congruence.
  - intros H. injection H as <-. split; assumption.
Qed.

Lemma update_model_weights_consistent (ws : list (string * Q))
    (o : ModelOrchestrator) :
  flags_consistent o → flags_consistent (update_model_weights ws o).
Proof.
  destruct (update_model_weights_frame ws o) as [Hm Ha].
  unfold flags_consistent. rewrite Hm, Ha. tauto.
Qed.

(** X7.  As long as no id is registered a second time, the registry stays
    consistent: no call raises, no id is listed twice in the active list,
    every descriptor is stored under its own id, and its [is_active] flag
    says whether the id is in the active list. *)
Theorem flags_follow_active_list (ops : list admin_op) :
  ∀ o,
    registry_ok o → flags_consistent o → registers_fresh ops o →
    ∃ o', run_ops ops o = inr o' ∧ registry_ok o' ∧ flags_consistent o'.
Proof.
  induction ops as [|op ops IH]; intros o Hok Hfl Hfresh; simpl.
  - exists o. split; [reflexivity|]. split; assumption.
  - simpl in Hfresh. destruct Hfresh as [Hop Hrest].
    destruct (apply_op_ok op o Hok) as (o1 & Hrun & Hok1).
    rewrite Hrun in Hrest. rewrite Hrun. simpl.
    apply IH; [exact Hok1| |exact Hrest].
    destruct op as [md w | mid | mid | ws]; simpl in Hrun.
    + injection Hrun as <-. apply register_model_consistent; assumption.
    + injection Hrun as <-. apply activate_model_consistent; assumption.
    + eapply deactivate_model_consistent; eassumption.
    + injection Hrun as <-. apply update_model_weights_consistent; assumption.
Qed.

Lemma new_orchestrator_consistent : flags_consistent new_orchestrator.
Proof.
  split; simpl; [constructor|]. intros k m. rewrite lookup_empty.
  discriminate.
Qed.

Lemma flags_follow_active_list_witness :
  registry_ok new_orchestrator ∧ flags_consistent new_orchestrator
  ∧ registers_fresh example_ops new_orchestrator
  ∧ ∃ o', run_ops example_ops new_orchestrator = inr o'
          ∧ registry_ok o' ∧ flags_consistent o'.
Proof.
  assert (Hfresh : registers_fresh example_ops new_orchestrator).
  { unfold example_ops. simpl. repeat split; reflexivity. }
  split; [exact new_orchestrator_ok|].
  split; [exact new_orchestrator_consistent|]. split; [exact Hfresh|].
  exact (flags_follow_active_list example_ops new_orchestrator
           new_orchestrator_ok new_orchestrator_consistent Hfresh).
Defined.

Lemma occurrences_elem (x : string) (l : list string) :
  (1 ≤ occurrences x l)%nat → x ∈ l.
Proof.
  unfold occurrences. intros Hlen.
  destruct (filter (fun y => y = x) l) as [|y rest] eqn:E;
    [simpl in Hlen; lia|].
  assert (Hy : y ∈ filter (fun y => y = x) l)
    by (rewrite E; apply elem_of_cons; auto).
  apply list_elem_of_filter in Hy as [-> Hy]. exact Hy.
Qed.

Lemma occurrences_list_remove (x : string) (l : list string) :
  x ∈ l → S (occurrences x (list_remove x l)) = occurrences x l.
Proof.
  unfold occurrences. induction l as [|y l IH]; intros Hin.
  - apply elem_of_nil in Hin. contradiction.
  - simpl list_remove. case_bool_decide as Hxy.
    + subst y. rewrite filter_cons_True by reflexivity. reflexivity.
    + apply elem_of_cons in Hin as [-> | Hin]; [contradiction|].
      rewrite !filter_cons_False by congruence. apply IH, Hin.
Qed.

(** X8.  [deactivate_model] takes one listing of the id out of the active list.
    An id that is listed twice (it was registered twice) therefore stays
    active after one deactivation, and keeps being scored, while its stored
    descriptor says [is_active = False]. *)
Theorem deactivate_removes_one_listing (o : ModelOrchestrator) (mid : string)
    (f : list Q) (g : rng) :
  registry_ok o → (2 ≤ occurrences mid (active_models o))%nat →
  ∃ o' m,
    deactivate_model mid o = inr o'
    ∧ S (occurrences mid (active_models o'))
      = occurrences mid (active_models o)
    ∧ mid ∈ active_models o'
    ∧ models o' !! mid = Some m ∧ is_active m = false
    ∧ ∃ prob d g',
        ensemble_predict o' f g = inr (prob, d, g')
        ∧ mid ∈ predicted_ids d.
Proof.
  intros Hok Hocc.
  assert (Hin : mid ∈ active_models o) by (apply occurrences_elem; lia).
  destruct (deactivate_model_ok mid o Hok) as (o' & Hde & Hok').
  pose proof Hde as Hde'. unfold deactivate_model in Hde'.
  assert (Hl : in_list mid (active_models o) = true)
    by (apply in_list_true, Hin).
  rewrite Hl in Hde'. unfold getitem in Hde'.
  destruct (models o !! mid) as [m0|] eqn:Hm0; simpl in Hde'; [|discriminate].
  injection Hde' as <-.
  pose proof (occurrences_list_remove mid _ Hin) as Hrem.
  assert (Hin' : mid ∈ list_remove mid (active_models o))
    by (apply occurrences_elem; lia).
  eexists. exists (set_is_active false m0). split; [exact Hde|]. simpl.
  split; [exact Hrem|]. split; [exact Hin'|].
  split; [apply lookup_insert_eq|]. split; [reflexivity|].
  match type of Hok' with
  | registry_ok ?o1 =>
      destruct (ensemble_predict_spec o1 f g Hok')
        as (prob & d & Hrun & _ & Hids & _)
  end.
  { simpl. intros Hnil. rewrite Hnil in Hin'. apply elem_of_nil in Hin'.
    contradiction. }
  exists prob, d. eexists. split; [exact Hrun|]. rewrite Hids. exact Hin'.
Qed.

Lemma deactivate_removes_one_listing_witness :
  let o := register_model rf_v2 3 one_model in
  registry_ok o ∧ (2 ≤ occurrences "rf_v1" (active_models o))%nat
  ∧ ∃ o' m,
      deactivate_model "rf_v1" o = inr o'
      ∧ active_models o' = ["rf_v1"]
      ∧ models o' !! "rf_v1" = Some m ∧ is_active m = false.
Proof.
  cbv zeta.
  assert (Hok : registry_ok (register_model rf_v2 3 one_model))
    by (repeat apply register_model_ok; apply new_orchestrator_ok).
  assert (Hocc : (2 ≤ occurrences "rf_v1"
                        (active_models (register_model rf_v2 3 one_model)))%nat)
    by (vm_compute; lia).
  split; [exact Hok|]. split; [exact Hocc|].
  destruct (deactivate_removes_one_listing _ "rf_v1" [] example_draws Hok Hocc)
    as (o' & m & Hde & _ & _ & Hm & Hflag & _).
  exists o', m. split; [exact Hde|]. split; [|split; assumption].
  assert (Hact : match deactivate_model "rf_v1"
                         (register_model rf_v2 3 one_model) with
                 | inr o1 => active_models o1
                 | inl _ => []
                 end = ["rf_v1"]) by reflexivity.
  rewrite Hde in Hact. exact Hact.
Defined.

(** ** Descriptors are kept *)

Lemma same_but_flag_refl (m : ModelMetadata) : same_but_flag m m.
Proof. reflexivity. Qed.

Lemma same_but_flag_set (b : bool) (m : ModelMetadata) :
  same_but_flag m (set_is_active b m).
Proof. reflexivity. Qed.

Lemma same_but_flag_trans (m1 m2 m3 : ModelMetadata) :
  same_but_flag m1 m2 → same_but_flag m2 m3 → same_but_flag m1 m3.
Proof. unfold same_but_flag. congruence. Qed.

Lemma apply_op_keeps (op : admin_op) (o o' : ModelOrchestrator) (k : string)
    (m : ModelMetadata) :
  apply_op op o = inr o' → models o !! k = Some m →
  ∃ m', models o' !! k = Some m'
        ∧ (match op with
           | Register metadata _ => model_id metadata ≠ k
           | _ => True
           end → same_but_flag m m').
Proof.
  destruct op as [md w | mid | mid | ws]; simpl; intros Hrun Hk.
  - injection Hrun as <-. unfold register_model. simpl.
    destruct (decide (model_id md = k)) as [-> | Hne].
    + exists md. split; [apply lookup_insert_eq|]. intros H. contradiction.
    + exists m. rewrite lookup_insert_ne by exact Hne.
      split; [exact Hk|]. intros _. apply same_but_flag_refl.
  - injection Hrun as <-. unfold activate_model.
    destruct (_ && _); simpl; [|exists m; split; [exact Hk|reflexivity]].
    destruct (decide (mid = k)) as [-> | Hne].
    + exists (set_is_active true m). rewrite lookup_alter_eq, Hk.
      split; [reflexivity|]. intros _. apply same_but_flag_set.
    + exists m. rewrite lookup_alter_ne by exact Hne.
      split; [exact Hk|]. intros _. apply same_but_flag_refl.
  - unfold deactivate_model in Hrun.
    destruct (in_list mid (active_models o)).
    + unfold getitem in Hrun.
      destruct (models o !! mid) as [m0|] eqn:Hm0; simpl in Hrun;
        [|discriminate].
      injection Hrun as <-. simpl.
      destruct (decide (mid = k)) as [-> | Hne].
      * exists (set_is_active false m0). rewrite lookup_insert_eq.
        split; [reflexivity|]. intros _.
        assert (m0 = m) by congruence. subst m0. apply same_but_flag_set.
      * exists m. rewrite lookup_insert_ne by exact Hne.
        split; [exact Hk|]. intros _. apply same_but_flag_refl.
    + injection Hrun as <-. exists m. split; [exact Hk|reflexivity].
  - injection Hrun as <-.
    destruct (update_model_weights_frame ws o) as [Hm _]. rewrite Hm.
    exists m. split; [exact Hk|reflexivity].
Qed.

(** X9.  No call removes a descriptor: an id that is registered stays registered
    through every sequence of calls, and as long as the id is not
    registered anew its descriptor changes in the [is_active] flag at
    most. *)
Theorem descriptors_are_kept (ops : list admin_op) :
  ∀ (o o' : ModelOrchestrator) (k : string) (m : ModelMetadata),
    run_ops ops o = inr o' → get_model_metadata k o = Some m →
    ∃ m', get_model_metadata k o' = Some m'
          ∧ (¬ registers k ops → same_but_flag m m').
Proof.
  unfold get_model_metadata.
  induction ops as [|op ops IH]; intros o o' k m Hrun Hk; simpl in Hrun.
  - injection Hrun as <-. exists m. split; [exact Hk|].
    intros _. apply same_but_flag_refl.
  - destruct (apply_op op o) as [e | o1] eqn:Hop; simpl in Hrun;
      [discriminate|].
    destruct (apply_op_keeps op o o1 k m Hop Hk) as (m1 & Hm1 & Hsame1).
    destruct (IH o1 o' k m1 Hrun Hm1) as (m' & Hm' & Hsame').
    exists m'. split; [exact Hm'|]. intros Hnot.
    apply same_but_flag_trans with m1.
    + apply Hsame1. destruct op as [md w | | |]; try exact I.
      intros Heq. apply Hnot. apply Exists_cons. left. exact Heq.
    + apply Hsame'. intros Hreg. apply Hnot. apply Exists_cons. right.
      exact Hreg.
Qed.

Lemma descriptors_are_kept_witness :
  ∃ o',
    run_ops [Deactivate "rf_v1"; UpdateWeights [("rf_v1", 2%Q)];
             Register gb_v1 1] one_model = inr o'
    ∧ get_model_metadata "rf_v1" one_model = Some rf_v1
    ∧ ∃ m', get_model_metadata "rf_v1" o' = Some m'
            ∧ same_but_flag rf_v1 m'.
Proof.
  destruct (run_ops_ok [Deactivate "rf_v1"; UpdateWeights [("rf_v1", 2%Q)];
                        Register gb_v1 1] one_model)
    as (o' & Hrun & _).
  { apply register_model_ok, new_orchestrator_ok. }
  assert (Hk : get_model_metadata "rf_v1" one_model = Some rf_v1)
    by reflexivity.
  exists o'. split; [exact Hrun|]. split; [exact Hk|].
  destruct (descriptors_are_kept _ _ _ _ _ Hrun Hk) as (m' & Hm' & Hsame).
  exists m'. split; [exact Hm'|]. apply Hsame.
  unfold registers. rewrite Exists_exists. intros (op & Hin & Hop).
  repeat (apply elem_of_cons in Hin as [-> | Hin]; [simpl in Hop|]);
    try contradiction; try discriminate.
  apply elem_of_nil in Hin. contradiction.
Defined.

(** ** Pipeline statistics *)

Lemma process_many_spec (h : string → Z) (txs : list (TransactionFeatures * Q)) :
  ∀ (pl : InferencePipeline) (g : rng),
    registry_ok (orchestrator pl) → active_models (orchestrator pl) ≠ [] →
    ∃ rs pl' g',
      process_many h pl txs g = inr (rs, pl', g')
      ∧ length rs = length txs
      ∧ orchestrator pl' = orchestrator pl
      ∧ inference_count pl' = (inference_count pl + length txs)%nat
      ∧ (total_inference_time pl' ==
         total_inference_time pl + Qsum (map snd txs))%Q.
Proof.
  induction txs as [|[t ms] txs IH]; intros pl g Hok Hne; simpl.
  - exists [], pl, g. split; [reflexivity|]. split; [reflexivity|].
    split; [reflexivity|]. split; [lia|]. unfold Qsum. simpl. ring.
  - destruct (ensemble_predict_spec (orchestrator pl) (to_feature_vector h t)
                g Hok Hne) as (prob & d & Hrun & _).
    unfold process_transaction. rewrite Hrun. simpl.
    match goal with
    | |- context [process_many h ?p txs ?g1] =>
        destruct (IH p g1) as (rs & pl' & g' & Hmany & Hlen & Ho & Hc & Ht)
    end; [exact Hok|exact Hne|].
    rewrite Hmany. simpl. simpl in Ho, Hc, Ht.
    eexists. eexists. eexists. split; [reflexivity|]. simpl.
    split; [lia|]. split; [exact Ho|]. split; [lia|].
    rewrite Ht. unfold Qsum. simpl. ring.
Qed.

Lemma inject_nat_nonzero (n : nat) :
  (0 < n)%nat → ¬ (inject_Z (Z.of_nat n) == 0)%Q.
Proof. intros Hn. unfold Qeq. simpl. lia. Qed.

(** X10.  After [n] transactions have been scored, [get_pipeline_statistics]
    reports [n] more inferences, the sum of their durations on top of the
    time so far, and the number of active models; the average times the
    count is the total, the throughput times a positive average is 1000,
    and with no inference at all both are 0 (nothing is divided by zero). *)
Theorem statistics_after_scoring (h : string → Z) (pl : InferencePipeline)
    (txs : list (TransactionFeatures * Q)) (g : rng) :
  registry_ok (orchestrator pl) → active_models (orchestrator pl) ≠ [] →
  ∃ rs pl' g',
    process_many h pl txs g = inr (rs, pl', g')
    ∧ length rs = length txs
    ∧ let st := get_pipeline_statistics pl' in
      total_inferences st = (inference_count pl + length txs)%nat
      ∧ (total_inference_time_ms st ==
         total_inference_time pl + Qsum (map snd txs))%Q
      ∧ stat_active_models st = length (active_models (orchestrator pl))
      ∧ ((0 < total_inferences st)%nat →
         (average_inference_time_ms st
          * inject_Z (Z.of_nat (total_inferences st)) ==
          total_inference_time_ms st)%Q)
      ∧ (total_inferences st = 0%nat →
         average_inference_time_ms st = 0%Q
         ∧ throughput_per_second st = 0%Q)
      ∧ ((0 < average_inference_time_ms st)%Q →
         (throughput_per_second st * average_inference_time_ms st == 1000)%Q)
      ∧ ((average_inference_time_ms st <= 0)%Q →
         throughput_per_second st = 0%Q).
Proof.
  intros Hok Hne.
  destruct (process_many_spec h txs pl g Hok Hne)
    as (rs & pl' & g' & Hmany & Hlen & Ho & Hc & Ht).
  exists rs, pl', g'. split; [exact Hmany|]. split; [exact Hlen|].
  cbv zeta. unfold get_pipeline_statistics. simpl.
  split; [exact Hc|]. split; [exact Ht|]. split; [rewrite Ho; reflexivity|].
  split; [|split; [|split]].
  - intros Hpos. assert (Hb : (0 <? inference_count pl')%nat = true)
      by (apply Nat.ltb_lt; exact Hpos).
    rewrite Hb. field. apply inject_nat_nonzero. exact Hpos.
  - intros Hz. rewrite Hz. simpl. split; reflexivity.
  - set (avg := if (0 <? inference_count pl')%nat
                then (total_inference_time pl'
                      / inject_Z (Z.of_nat (inference_count pl')))%Q
                else 0%Q).
    intros Hpos. assert (Hb : Qltb 0 avg = true) by (apply Qltb_lt; exact Hpos).
    rewrite Hb. field. intros Hz. rewrite Hz in Hpos.
    exact (Qlt_irrefl _ Hpos).
  - set (avg := if (0 <? inference_count pl')%nat
                then (total_inference_time pl'
                      / inject_Z (Z.of_nat (inference_count pl')))%Q
                else 0%Q).
    intros Hle. assert (Hb : Qltb 0 avg = false)
      by (apply Qltb_false; exact Hle).
    rewrite Hb. reflexivity.
Qed.

Lemma statistics_after_scoring_witness :
  let pl := setup_models new_pipeline in
  registry_ok (orchestrator pl) ∧ active_models (orchestrator pl) ≠ []
  ∧ ∃ rs pl' g',
      process_many (fun _ => 0%Z) pl
        [(example_transaction, 3%Q); (at_unknown, 5%Q)] example_draws
      = inr (rs, pl', g')
      ∧ total_inferences (get_pipeline_statistics pl') = 2%nat
      ∧ (average_inference_time_ms (get_pipeline_statistics pl') == 4)%Q
      ∧ (throughput_per_second (get_pipeline_statistics pl') == 250)%Q.
Proof.
  cbv zeta.
  assert (Hne : active_models (orchestrator (setup_models new_pipeline)) ≠ [])
    by discriminate.
  split; [exact setup_models_ok|]. split; [exact Hne|].
  destruct (statistics_after_scoring (fun _ => 0%Z) (setup_models new_pipeline)
              [(example_transaction, 3%Q); (at_unknown, 5%Q)] example_draws
              setup_models_ok Hne)
    as (rs & pl' & g' & Hrun & _ & Hc & Ht & _ & Havg & _ & Hthr & _).
  assert (Hc2 : total_inferences (get_pipeline_statistics pl') = 2%nat)
    by exact Hc.
  exists rs, pl', g'. split; [exact Hrun|]. split; [exact Hc2|].
  assert (Ha : (average_inference_time_ms (get_pipeline_statistics pl') == 4)%Q).
  { rewrite Hc2 in Havg. specialize (Havg ltac:(lia)).
    rewrite Ht in Havg.
    set (avg := average_inference_time_ms (get_pipeline_statistics pl')) in *.
    change (avg * 2 == 0 + (3 + (5 + 0)))%Q in Havg. lra. }
  split; [exact Ha|].
  assert (Hp : (0 < average_inference_time_ms (get_pipeline_statistics pl'))%Q)
    by (rewrite Ha; reflexivity).
  specialize (Hthr Hp). rewrite Ha in Hthr. lra.
Defined.

(** ** The rule engine of fraud_detection_api/app.py *)

Lemma within_add (x m : Q) (f : string) (acc : Q * list string)
    (lo hi : Q) (n : nat) :
  within lo hi n acc → (0 <= x)%Q → (x <= m)%Q →
  within lo (hi + m) (S n) (add_risk x f acc).
Proof.
  intros (Hlo & Hhi & Hn) Hx Hm. unfold within, add_risk. simpl.
  rewrite length_app. simpl. repeat split; [lra|lra|lia].
Qed.

Lemma within_keep (m : Q) (acc : Q * list string) (lo hi : Q) (n : nat) :
  within lo hi n acc → (0 <= m)%Q → within lo (hi + m) (S n) acc.
Proof.
  intros (Hlo & Hhi & Hn) Hm. unfold within. repeat split; [lra|lra|lia].
Qed.

Lemma within_if1 (c : bool) (x m : Q) (f : string) (acc : Q * list string)
    (lo hi : Q) (n : nat) :
  within lo hi n acc → (0 <= x)%Q → (x <= m)%Q →
  within lo (hi + m) (S n) (if c then add_risk x f acc else acc).
Proof.
  intros Hw Hx Hm. destruct c.
  - apply within_add; assumption.
  - apply within_keep; [assumption|lra].
Qed.

Lemma within_if2 (c1 c2 : bool) (x1 x2 m : Q) (f1 f2 : string)
    (acc : Q * list string) (lo hi : Q) (n : nat) :
  within lo hi n acc → (0 <= x1)%Q → (x1 <= m)%Q → (0 <= x2)%Q → (x2 <= m)%Q →
  within lo (hi + m) (S n)
    (if c1 then add_risk x1 f1 acc
     else if c2 then add_risk x2 f2 acc else acc).
Proof.
  intros Hw H1 H1' H2 H2'. destruct c1; [apply within_add; assumption|].
  apply within_if1; assumption.
Qed.

Lemma within_if3 (c1 c2 c3 : bool) (x1 x2 x3 m : Q) (f1 f2 f3 : string)
    (acc : Q * list string) (lo hi : Q) (n : nat) :
  within lo hi n acc → (0 <= x1)%Q → (x1 <= m)%Q → (0 <= x2)%Q → (x2 <= m)%Q →
  (0 <= x3)%Q → (x3 <= m)%Q →
  within lo (hi + m) (S n)
    (if c1 then add_risk x1 f1 acc
     else if c2 then add_risk x2 f2 acc
     else if c3 then add_risk x3 f3 acc else acc).
Proof.
  intros Hw H1 H1' H2 H2' H3 H3'. destruct c1; [apply within_add; assumption|].
  apply within_if2; assumption.
Qed.

Ltac closed_Qle := vm_compute; discriminate.

(** One rule of [calculate_risk_score]: bound the pair after it and forget
    how it was computed. *)
Ltac step_if1 acc W m acc' W' :=
  match goal with
  | |- context [if ?c then add_risk ?x ?f acc else acc] =>
      pose proof (within_if1 c x m f acc _ _ _ W
                    ltac:(closed_Qle) ltac:(closed_Qle)) as W';
      set (acc' := if c then add_risk x f acc else acc) in *;
      clearbody acc'
  end.

Ltac step_if2 acc W m acc' W' :=
  match goal with
  | |- context [if ?c1 then add_risk ?x1 ?f1 acc
                else if ?c2 then add_risk ?x2 ?f2 acc else acc] =>
      pose proof (within_if2 c1 c2 x1 x2 m f1 f2 acc _ _ _ W
                    ltac:(closed_Qle) ltac:(closed_Qle)
                    ltac:(closed_Qle) ltac:(closed_Qle)) as W';
      set (acc' := if c1 then add_risk x1 f1 acc
                   else if c2 then add_risk x2 f2 acc else acc) in *;
      clearbody acc'
  end.

(** The six rules after the amount/balance rule add at most 59.5 points
    and six factors. *)
Lemma rule_score_tail (low : string → string)
    (fos : string → string + pyfloat) (ios : string → string + Z)
    (data : gmap string pyval) (hour : Z) (score : Q) (factors : list string) :
  calculate_risk_score low fos ios fraud_engine data hour
  = inr (score, factors) →
  ∃ (balance : pyfloat) (acc1 : Q * list string),
    py_float fos (dict_get data "balance" (PInt 0)) = inr balance
    ∧ within 0 25 1 acc1
    ∧ (f_gt balance 0 = false → acc1 = (0%Q, []))
    ∧ ∀ lo hi n, within lo hi n acc1 →
        (Qmin lo 100 <= score)%Q ∧ (score <= hi + 59.5)%Q
        ∧ (length factors ≤ n + 6)%nat.
Proof.
  unfold calculate_risk_score.
  destruct (py_float fos (dict_get data "amount" (PInt 0))) as [e|amount];
    [discriminate|].
  destruct (py_float fos (dict_get data "balance" (PInt 0))) as [e|balance];
    [discriminate|].
  cbn [rbind]. cbv zeta.
  match goal with
  | |- rbind ?c ?k = _ → _ => destruct c as [e|acc1] eqn:E1
  end; [discriminate|].
  assert (W0 : within 0 0 0 (0%Q, @nil string)).
  { unfold within. simpl. repeat split; [closed_Qle|closed_Qle|lia]. }
  assert (W1 : within 0 25 1 acc1
               ∧ (f_gt balance 0 = false → acc1 = (0%Q, []))).
  { destruct (f_gt balance 0).
    - destruct (py_truediv amount balance) as [e|amount_ratio];
        [discriminate|].
      cbn [rbind] in E1. apply (f_equal (fun r : result (Q * list string) =>
                        match r with inr x => x | inl _ => acc1 end)) in E1.
      cbv beta iota delta [ok] in E1. subst acc1. split; [|discriminate].
      apply (within_if3 _ _ _ _ _ _ 25 _ _ _ _ 0 0 0 W0); closed_Qle.
    - apply (f_equal (fun r : result (Q * list string) =>
                        match r with inr x => x | inl _ => acc1 end)) in E1.
      cbv beta iota delta [ok] in E1. subst acc1. split; [|reflexivity].
      unfold within. simpl. repeat split; [closed_Qle|closed_Qle|lia]. }
  clear E1. destruct W1 as [W1 Hskip].
  cbn [rbind].
  destruct (py_lower low (dict_get data "location" (PStr ""))) as [e|location];
    [discriminate|].
  cbn [rbind].
  destruct (py_int ios (dict_get data "age" (PInt 25))) as [e|age];
    [discriminate|].
  cbn [rbind].
  destruct (py_lower low (dict_get data "device_id" (PStr ""))) as [e|device];
    [discriminate|].
  cbn [rbind]. cbv zeta.
  intros H.
  apply (f_equal (fun r : result (Q * list string) =>
                    match r with inr x => x | inl _ => (0%Q, []) end)) in H.
  cbv beta iota delta [ok] in H.
  apply pair_equal_spec in H as [<- <-].
  exists balance, acc1. split; [reflexivity|].
  split; [exact W1|]. split; [exact Hskip|].
  clear W1 Hskip. intros lo hi n W1.
  step_if2 acc1 W1 16%Q acc2 W2.
  step_if1 acc2 W2 13.5%Q acc3 W3.
  step_if2 acc3 W3 10.5%Q acc4 W4.
  step_if2 acc4 W4 8%Q acc5 W5.
  step_if1 acc5 W5 8.5%Q acc6 W6.
  step_if1 acc6 W6 3%Q acc7 W7.
  destruct W7 as (Hlo & Hhi & Hn). repeat split.
  - apply Q.min_le_compat_r. exact Hlo.
  - eapply Qle_trans; [apply Q.le_min_l|]. lra.
  - lia.
Qed.

(** X11.  The rule score never reaches its cap of 100: it lies between 0 and
    84.5, with at most seven risk factors.  When the balance is not
    positive the amount/balance rule is skipped, so the score stays at
    59.5 or below and the tier is never orange or red. *)
Theorem rule_score_bounds (low : string → string)
    (fos : string → string + pyfloat) (ios : string → string + Z)
    (data : gmap string pyval) (hour : Z) (score : Q) (factors : list string) :
  calculate_risk_score low fos ios fraud_engine data hour
  = inr (score, factors) →
  (0 <= score)%Q ∧ (score <= 84.5)%Q ∧ (length factors ≤ 7)%nat
  ∧ (∀ balance,
       py_float fos (dict_get data "balance" (PInt 0)) = inr balance →
       f_gt balance 0 = false →
       (score <= 59.5)%Q
       ∧ snd (get_risk_level score) ≠ "red"
       ∧ snd (get_risk_level score) ≠ "orange").
Proof.
  intros H.
  destruct (rule_score_tail low fos ios data hour score factors H)
    as (balance & acc1 & Hbal & W1 & Hskip & Htail).
  destruct (Htail 0%Q 25%Q 1%nat W1) as (Hlo & Hhi & Hn).
  change (Qmin 0 100) with 0%Q in Hlo.
  split; [exact Hlo|]. split; [lra|]. split; [lia|].
  intros b Hb Hz. rewrite Hbal in Hb. injection Hb as <-.
  specialize (Hskip Hz).
  assert (W0 : within 0 0 0 acc1).
  { rewrite Hskip. unfold within. simpl.
    repeat split; [closed_Qle|closed_Qle|lia]. }
  destruct (Htail 0%Q 0%Q 0%nat W0) as (_ & Hhi0 & _).
  assert (H59 : (score <= 59.5)%Q) by lra.
  split; [exact H59|].
  unfold get_risk_level.
  assert (H80 : Qleb 80 score = false) by (apply Qleb_false; lra).
  assert (H60 : Qleb 60 score = false) by (apply Qleb_false; lra).
  rewrite H80, H60.
  destruct (Qleb 40 score); [split; discriminate|].
  destruct (Qleb 20 score); split; discriminate.
Qed.

Lemma rule_score_bounds_witness :
  ∃ score factors,
    calculate_risk_score lower read_float read_int fraud_engine
      request_suspicious 3
    = inr (score, factors)
    ∧ (score == 76.5)%Q ∧ length factors = 6%nat
    ∧ (0 <= score)%Q ∧ (score <= 84.5)%Q.
Proof.
  assert (Hrun : ∃ score factors,
             calculate_risk_score lower read_float read_int fraud_engine
               request_suspicious 3 = inr (score, factors)
             ∧ (score == 76.5)%Q ∧ length factors = 6%nat).
  { eexists. eexists. split; [vm_compute; reflexivity|].
    split; [vm_compute; reflexivity|reflexivity]. }
  destruct Hrun as (score & factors & Hrun & Hs & Hn).
  exists score, factors. split; [exact Hrun|]. split; [exact Hs|].
  split; [exact Hn|].
  destruct (rule_score_bounds lower read_float read_int request_suspicious 3
              score factors Hrun) as (Hlo & Hhi & _).
  split; assumption.
Defined.

(** X12.  [get_risk_level] and [generate_recommendations] cut the score at the
    same places: the advice is never empty, it has four, three, three, two
    or one entries by tier, and its size tells the colour. *)
Theorem advice_follows_tier (score : Q) (risk_factors : list string) :
  let colour := snd (get_risk_level score) in
  let advice := generate_recommendations score risk_factors in
  advice ≠ []
  ∧ (colour = "red" ↔ (80 <= score)%Q)
  ∧ (colour = "green" ↔ (score < 20)%Q)
  ∧ (colour = "red" ↔ length advice = 4%nat)
  ∧ (colour = "orange" ∨ colour = "yellow" ↔ length advice = 3%nat)
  ∧ (colour = "blue" ↔ length advice = 2%nat)
  ∧ (colour = "green" ↔ length advice = 1%nat).
Proof.
  cbv zeta. unfold get_risk_level, generate_recommendations.
  destruct (Qleb 80 score) eqn:E80.
  { apply Qleb_le in E80. simpl.
    repeat split; intros; try discriminate; try reflexivity; try assumption;
      try lia; try (exfalso; lra); try tauto.
    - destruct H; discriminate. }
  apply Qleb_false in E80.
  destruct (Qleb 60 score) eqn:E60.
  { apply Qleb_le in E60. simpl.
    repeat split; intros; try discriminate; try reflexivity;
      try lia; try (exfalso; lra); try tauto. }
  apply Qleb_false in E60.
  destruct (Qleb 40 score) eqn:E40.
  { apply Qleb_le in E40. simpl.
    repeat split; intros; try discriminate; try reflexivity;
      try lia; try (exfalso; lra); try tauto. }
  apply Qleb_false in E40.
  destruct (Qleb 20 score) eqn:E20.
  { apply Qleb_le in E20. simpl.
    repeat split; intros; try discriminate; try reflexivity;
      try lia; try (exfalso; lra); try tauto.
    - destruct H; discriminate. }
  apply Qleb_false in E20. simpl.
  repeat split; intros; try discriminate; try reflexivity; try assumption;
    try lia; try (exfalso; lra); try tauto.
  - destruct H; discriminate.
Qed.

(** ** The counters of /stats *)

Lemma count_partition (db : list transaction_record) :
  (count_where (fun s => Qleb 60 s) db
   + count_where (fun s => Qleb 40 s && Qltb s 60) db
   + count_where (fun s => Qltb s 40) db)%nat = length db.
Proof.
  unfold count_where. induction db as [|t db IH]; simpl; [reflexivity|].
  destruct (Qleb 60 (tr_risk_score t)) eqn:E60.
  - apply Qleb_le in E60.
    assert (E40 : Qltb (tr_risk_score t) 40 = false)
      by (apply Qltb_false; lra).
    assert (E6 : Qltb (tr_risk_score t) 60 = false)
      by (apply Qltb_false; lra).
    rewrite E40, E6, andb_false_r. simpl. lia.
  - apply Qleb_false in E60.
    assert (E6 : Qltb (tr_risk_score t) 60 = true) by (apply Qltb_lt; lra).
    rewrite E6, andb_true_r.
    destruct (Qleb 40 (tr_risk_score t)) eqn:E40.
    + apply Qleb_le in E40.
      assert (E4 : Qltb (tr_risk_score t) 40 = false)
        by (apply Qltb_false; lra).
      rewrite E4. simpl. lia.
    + apply Qleb_false in E40.
      assert (E4 : Qltb (tr_risk_score t) 40 = true) by (apply Qltb_lt; lra).
      rewrite E4. simpl. lia.
Qed.

(** X13.  With no analysed transaction the statistics are the "nothing yet"
    answer and nothing is divided.  Otherwise every transaction is counted
    in exactly one of the three classes (high from 60, medium from 40, low
    below), so the three counters add up to the total, and the average
    times the total is the sum of the scores. *)
Theorem stats_counters_partition (db : list transaction_record) :
  (get_system_stats db = None ↔ db = [])
  ∧ ∀ st, get_system_stats db = Some st →
      total_transactions st = length db
      ∧ (0 < total_transactions st)%nat
      ∧ (high_risk_transactions st + medium_risk_transactions st
         + low_risk_transactions st)%nat = total_transactions st
      ∧ (avg_risk_score st * inject_Z (Z.of_nat (total_transactions st)) ==
         Qsum (map tr_risk_score db))%Q.
Proof.
  split.
  - destruct db; simpl; split; intros H; try reflexivity; discriminate.
  - intros st Hst. destruct db as [|t db]; [discriminate|].
    unfold get_system_stats in Hst. injection Hst as <-. simpl.
    split; [reflexivity|]. split; [lia|]. split.
    + exact (count_partition (t :: db)).
    + unfold Qsum. simpl. field.
      apply (inject_nat_nonzero (S (length db))). lia.
Qed.

(** ** The verdict of the trained engine *)

Lemma Qtruncate_floor (x : Q) :
  (0 <= x)%Q →
  (inject_Z (Qtruncate x) <= x)%Q ∧ (x < inject_Z (Qtruncate x + 1))%Q.
Proof.
  destruct x as [n d]. unfold Qle, Qlt, Qtruncate. simpl.
  rewrite !Z.mul_1_r. intros Hn.
  rewrite Z.quot_div_nonneg by lia.
  pose proof (Z.mul_div_le n (Zpos d) ltac:(lia)) as Hle.
  pose proof (Z.mul_succ_div_gt n (Zpos d) ltac:(lia)) as Hgt.
  split; lia.
Qed.

Lemma Qtruncate_range (x : Q) (lo hi : Z) :
  (inject_Z lo <= x)%Q → (x <= inject_Z hi)%Q → (0 <= lo)%Z →
  (lo <= Qtruncate x)%Z ∧ (Qtruncate x <= hi)%Z.
Proof.
  intros Hlo Hhi H0.
  assert (Hx : (0 <= x)%Q).
  { eapply Qle_trans; [|exact Hlo]. unfold Qle. simpl. lia. }
  destruct (Qtruncate_floor x Hx) as [Hfl Hce].
  split.
  - assert (H : (inject_Z lo < inject_Z (Qtruncate x + 1))%Q)
      by (eapply Qle_lt_trans; eassumption).
    unfold Qlt in H. simpl in H. lia.
  - assert (H : (inject_Z (Qtruncate x) <= inject_Z hi)%Q)
      by (eapply Qle_trans; eassumption).
    unfold Qle in H. simpl in H. lia.
Qed.

(** X15.  For forest probabilities in [0, 1]: the risk score is between 0 and
    100; a transaction judged fraudulent scores at least 50, is never
    green and is never advised "approve"; a red (blocked) one is always
    judged fraudulent; the advice of [get_recommendation] has the colour of
    the engine's risk level; and an anomaly alone does not make a fraud
    (both forests at 0.375 or below). *)
Theorem fraud_verdict (rf_proba gb_proba : Q) (iso_prediction : Z) :
  in_unit rf_proba → in_unit gb_proba →
  let a := predict_fraud rf_proba gb_proba iso_prediction in
  in_unit (an_ensemble_proba a)
  ∧ (0 <= an_risk_score a)%Z ∧ (an_risk_score a <= 100)%Z
  ∧ (an_is_fraud a = true →
     (50 <= an_risk_score a)%Z ∧ an_risk_color a ≠ "green"
     ∧ action (get_recommendation a) ≠ "approve")
  ∧ (an_risk_color a = "red" →
     an_is_fraud a = true ∧ action (get_recommendation a) = "block")
  ∧ color (get_recommendation a) = an_risk_color a
  ∧ ((rf_proba <= 0.375)%Q → (gb_proba <= 0.375)%Q → an_is_fraud a = false).
Proof.
  intros [Hr0 Hr1] [Hg0 Hg1]. cbv zeta.
  unfold predict_fraud, get_recommendation. simpl.
  set (iota := (if (iso_prediction =? -1)%Z then 1 else 0)%Q).
  assert (Hi : (0 <= iota)%Q ∧ (iota <= 1)%Q).
  { subst iota. destruct (iso_prediction =? -1)%Z; split;
      vm_compute; discriminate. }
  destruct Hi as [Hi0 Hi1].
  set (p := (rf_proba * 0.4 + gb_proba * 0.4 + iota * 0.2)%Q).
  assert (Hp0 : (0 <= p)%Q) by (subst p; lra).
  assert (Hp1 : (p <= 1)%Q) by (subst p; lra).
  destruct (Qtruncate_floor (p * 100)%Q ltac:(lra)) as [Hfl Hce].
  destruct (Qtruncate_range (p * 100)%Q 0 100) as [Ht0 Ht1];
    [change (0 <= p * 100)%Q; lra|change (p * 100 <= 100)%Q; lra|lia|].
  set (t := Qtruncate (p * 100)) in *.
  assert (Hmin : Z.min 100 t = t) by lia. rewrite Hmin.
  split; [split; assumption|]. split; [exact Ht0|]. split; [exact Ht1|].
  split; [|split; [|split]].
  - intros Hf. apply Qltb_lt in Hf.
    assert (H50 : (50 <= t)%Z).
    { apply (Qtruncate_range (p * 100)%Q 50 100);
        [change (50 <= p * 100)%Q; lra|change (p * 100 <= 100)%Q; lra|lia]. }
    split; [exact H50|].
    assert (E30 : (t <? 30)%Z = false) by (apply Z.ltb_ge; lia).
    rewrite E30. destruct (t <? 70)%Z; simpl; split; discriminate.
  - destruct (t <? 30)%Z eqn:E30; simpl; [discriminate|].
    destruct (t <? 70)%Z eqn:E70; simpl; [discriminate|].
    intros _. split; [|reflexivity].
    apply Z.ltb_ge in E70. apply Qltb_lt.
    assert (H70 : (inject_Z 70 <= inject_Z t)%Q)
      by (unfold Qle; simpl; lia).
    assert (H : (70 <= p * 100)%Q).
    { eapply Qle_trans; [|exact Hfl]. exact H70. }
    lra.
  - destruct (t <? 30)%Z; simpl; [reflexivity|].
    destruct (t <? 70)%Z; reflexivity.
  - intros Hr Hg. apply Qltb_false. subst p. lra.
Qed.

Lemma fraud_verdict_witness :
  in_unit 0.9 ∧ in_unit 0.8
  ∧ an_is_fraud (predict_fraud 0.9 0.8 (-1)) = true
  ∧ an_risk_score (predict_fraud 0.9 0.8 (-1)) = 88%Z
  ∧ action (get_recommendation (predict_fraud 0.9 0.8 (-1))) = "block"
  ∧ an_is_fraud (predict_fraud 0.3 0.2 (-1)) = false.
Proof.
  assert (H9 : in_unit 0.9) by (split; vm_compute; discriminate).
  assert (H8 : in_unit 0.8) by (split; vm_compute; discriminate).
  assert (H3 : in_unit 0.3) by (split; vm_compute; discriminate).
  assert (H2 : in_unit 0.2) by (split; vm_compute; discriminate).
  split; [exact H9|]. split; [exact H8|].
  destruct (fraud_verdict 0.9 0.8 (-1) H9 H8)
    as (_ & _ & _ & _ & Hred & _ & _).
  destruct (fraud_verdict 0.3 0.2 (-1) H3 H2)
    as (_ & _ & _ & _ & _ & _ & Hlow).
  destruct (Hred eq_refl) as [Hf Hb].
  split; [exact Hf|]. split; [reflexivity|]. split; [exact Hb|].
  apply Hlow; vm_compute; discriminate.
Defined.

(** ** From the request to the narrative risk factors *)

Lemma elem_of_if1 (x a : risk_factor) (c : bool) :
  x ∈ (if c then [a] else []) ↔ c = true ∧ x = a.
Proof.
  destruct c.
  - rewrite list_elem_of_singleton. tauto.
  - rewrite elem_of_nil. split; [tauto|]. intros [H _]. discriminate.
Qed.

Lemma elem_of_if2 (x a b : risk_factor) (c1 c2 : bool) :
  x ∈ (if c1 then [a] else if c2 then [b] else [])
  ↔ (c1 = true ∧ x = a) ∨ (c1 = false ∧ c2 = true ∧ x = b).
Proof.
  destruct c1.
  - rewrite list_elem_of_singleton. split; [tauto|].
    intros [[_ H] | [H _]]; [exact H|discriminate].
  - rewrite elem_of_if1. split; [tauto|].
    intros [[H _] | [_ H]]; [discriminate|exact H].
Qed.

Lemma elem_of_guarded (x : risk_factor) (c : bool) (l : list risk_factor) :
  x ∈ (if c then l else []) ↔ c = true ∧ x ∈ l.
Proof.
  destruct c; [tauto|]. rewrite elem_of_nil. split; [tauto|].
  intros [H _]. discriminate.
Qed.

(** With a positive divisor the division raises nothing. *)
Lemma py_truediv_positive (x y : pyfloat) :
  f_gt y 0 = true → py_truediv x y = inr (f_div x y).
Proof.
  destruct y as [q|negative|]; simpl; try reflexivity.
  intros Hq. apply Qltb_lt in Hq.
  destruct (Qeq_bool q 0) eqn:E; [|reflexivity].
  apply Qeq_bool_iff in E. rewrite E in Hq.
  exfalso. exact (Qlt_irrefl 0 Hq).
Qed.

(** [_analyze_risk_factors] raises nothing, and where each of its factors
    comes from. *)
Lemma _analyze_risk_factors_elem (r : ml_row) :
  ∃ factors,
    _analyze_risk_factors r = inr factors
    ∧ ∀ x, x ∈ factors ↔
        (f_gt (ml_balance r) 0 = true
         ∧ ((f_gt (f_div (ml_amount r) (ml_balance r)) 1.5 = true
             ∧ x = ratio_high)
            ∨ (f_gt (f_div (ml_amount r) (ml_balance r)) 1.5 = false
               ∧ f_gt (f_div (ml_amount r) (ml_balance r)) 0.7 = true
               ∧ x = ratio_medium)))
        ∨ ((ml_hour r <? 6)%Z || (22 <? ml_hour r)%Z = true ∧ x = time_medium)
        ∨ ((Qltb 0.6 (ml_location_risk r) = true ∧ x = location_high)
           ∨ (Qltb 0.6 (ml_location_risk r) = false
              ∧ Qltb 0.4 (ml_location_risk r) = true ∧ x = location_medium))
        ∨ ((Qltb (ml_device_trust r) 0.4 = true ∧ x = device_high)
           ∨ (Qltb (ml_device_trust r) 0.4 = false
              ∧ Qltb (ml_device_trust r) 0.6 = true ∧ x = device_medium))
        ∨ (f_gt (ml_amount r) 50000 = true ∧ x = amount_medium).
Proof.
  unfold _analyze_risk_factors. cbv zeta.
  destruct (f_gt (ml_balance r) 0) eqn:Hb.
  - rewrite (py_truediv_positive _ _ Hb). cbn [rbind].
    eexists. split; [reflexivity|]. intros x.
    rewrite !elem_of_app, !elem_of_if2, !elem_of_if1.
    split.
    + intros [H|H]; [left; split; [reflexivity|exact H]|right; exact H].
    + intros [[_ H]|H]; [left; exact H|right; exact H].
  - cbn [rbind]. eexists. split; [reflexivity|]. intros x.
    rewrite !elem_of_app, !elem_of_if2, !elem_of_if1, elem_of_nil.
    split.
    + intros [H|H]; [contradiction|right; exact H].
    + intros [[H _]|H]; [discriminate|right; exact H].
Qed.

Lemma uniform_range (a b : Q) (g : rng) :
  (a <= b)%Q → draws_in_unit g →
  (a <= fst (uniform a b g))%Q ∧ (fst (uniform a b g) <= b)%Q
  ∧ snd (uniform a b g) = mkRng (draws g) (S (cursor g)).
Proof.
  intros Hab Hg. unfold uniform, random. simpl.
  destruct (Hg (cursor g)) as [H0 H1].
  set (u := draws g (cursor g)) in *.
  split; [|split; [|reflexivity]]; nra.
Qed.

(** X16.  What the mapping hands to the engine, for a generator that returns
    values in [0, 1]: a location risk of 0.8 on a suspicious location and
    between 0.1 and 0.3 otherwise, a device trust of 0.2 on a suspicious
    device id and between 0.7 and 0.95 otherwise, one draw consumed per
    value that had to be drawn.  Here a location is suspicious when its
    lowered text, as [str.lower()] returns it, holds one of the keywords,
    and so for the device id.  On this row [_analyze_risk_factors] raises
    nothing; the high location factor appears exactly on a suspicious
    location and the high device factor exactly on a suspicious device id,
    the medium location and device factors never appear, and with a
    balance that is not positive no amount/balance factor appears. *)
Theorem mapping_feeds_risk_factors (low : string → string)
    (fos : string → string + pyfloat) (ios : string → string + Z)
    (data : gmap string pyval) (hour dow : Z)
    (g g' : rng) (row : ml_row) (location device : string) :
  draws_in_unit g →
  map_transaction_to_ml_format low fos ios data hour dow g = inr (row, g') →
  py_lower low (dict_get data "location" (PStr "")) = inr location →
  py_lower low (dict_get data "device_id" (PStr "")) = inr device →
  let loc_hit := existsb (fun k => contains k location) suspicious_keywords in
  let dev_hit := existsb (fun k => contains k device) device_keywords in
  (loc_hit = true → ml_location_risk row = 0.8%Q)
  ∧ (loc_hit = false →
     (0.1 <= ml_location_risk row)%Q ∧ (ml_location_risk row <= 0.3)%Q)
  ∧ (dev_hit = true → ml_device_trust row = 0.2%Q)
  ∧ (dev_hit = false →
     (0.7 <= ml_device_trust row)%Q ∧ (ml_device_trust row <= 0.95)%Q)
  ∧ ml_hour row = hour ∧ ml_day_of_week row = dow
  ∧ cursor g' = (cursor g + (if loc_hit then 0 else 1)
                 + (if dev_hit then 0 else 1))%nat
  ∧ ∃ factors,
      _analyze_risk_factors row = inr factors
      ∧ (location_high ∈ factors ↔ loc_hit = true)
      ∧ (location_medium ∉ factors)
      ∧ (device_high ∈ factors ↔ dev_hit = true)
      ∧ (device_medium ∉ factors)
      ∧ (f_gt (ml_balance row) 0 = false →
         (ratio_high ∉ factors) ∧ (ratio_medium ∉ factors)).
Proof.
  intros Hg Hmap Hloc Hdev. cbv zeta.
  unfold map_transaction_to_ml_format in Hmap.
  rewrite Hloc in Hmap. cbn [rbind] in Hmap.
  rewrite Hdev in Hmap. cbn [rbind] in Hmap.
  change ["unknown"; "غير"; "000"] with device_keywords in Hmap.
  set (loc_hit := existsb (fun k => contains k location) suspicious_keywords)
    in *.
  set (dev_hit := existsb (fun k => contains k device) device_keywords) in *.
  set (lr := if loc_hit then (0.8%Q, g) else uniform 0.1 0.3 g) in *.
  set (dt := if dev_hit then (0.2%Q, snd lr) else uniform 0.7 0.95 (snd lr))
    in *.
  destruct (py_float fos (dict_get data "amount" (PInt 0))) as [e|amount];
    [discriminate|].
  cbn [rbind] in Hmap.
  destruct (py_float fos (dict_get data "balance" (PInt 0))) as [e|balance];
    [discriminate|].
  cbn [rbind] in Hmap.
  destruct (py_int ios (dict_get data "age" (PInt 30))) as [e|age];
    [discriminate|].
  cbn [rbind] in Hmap.
  apply (f_equal (fun r : result (ml_row * rng) =>
                    match r with inr x => Some x | inl _ => None end)) in Hmap.
  cbv beta iota delta [ok] in Hmap.
  apply (f_equal (fun o : option (ml_row * rng) =>
                    match o with Some x => x | None => (row, g') end)) in Hmap.
  cbv beta iota in Hmap. apply pair_equal_spec in Hmap as [<- <-].
  cbn [ml_location_risk ml_device_trust ml_hour ml_day_of_week ml_balance
       ml_amount].
  (* the location risk *)
  assert (Hlr : (loc_hit = true → fst lr = 0.8%Q ∧ snd lr = g)
                ∧ (loc_hit = false →
                   (0.1 <= fst lr)%Q ∧ (fst lr <= 0.3)%Q
                   ∧ snd lr = mkRng (draws g) (S (cursor g)))).
  { subst lr. destruct loc_hit; split; intros H; try discriminate.
    - split; reflexivity.
    - apply uniform_range; [vm_compute; discriminate|exact Hg]. }
  destruct Hlr as [Hlr1 Hlr0].
  assert (Hg2 : draws_in_unit (snd lr)).
  { destruct loc_hit.
    - destruct (Hlr1 eq_refl) as [_ ->]. exact Hg.
    - destruct (Hlr0 eq_refl) as (_ & _ & ->). exact Hg. }
  assert (Hdt : (dev_hit = true → fst dt = 0.2%Q ∧ snd dt = snd lr)
                ∧ (dev_hit = false →
                   (0.7 <= fst dt)%Q ∧ (fst dt <= 0.95)%Q
                   ∧ snd dt = mkRng (draws (snd lr)) (S (cursor (snd lr))))).
  { subst dt. destruct dev_hit; split; intros H; try discriminate.
    - split; reflexivity.
    - apply uniform_range; [vm_compute; discriminate|exact Hg2]. }
  destruct Hdt as [Hdt1 Hdt0].
  clearbody lr dt.
  assert (Hl6 : Qltb 0.6 (fst lr) = loc_hit).
  { destruct loc_hit.
    - destruct (Hlr1 eq_refl) as [-> _]. reflexivity.
    - destruct (Hlr0 eq_refl) as (H1 & H3 & _). apply Qltb_false. lra. }
  assert (Hl4 : Qltb 0.6 (fst lr) = false → Qltb 0.4 (fst lr) = false).
  { rewrite Hl6. intros ->. destruct (Hlr0 eq_refl) as (H1 & H3 & _).
    apply Qltb_false. lra. }
  assert (Hd4 : Qltb (fst dt) 0.4 = dev_hit).
  { destruct dev_hit.
    - destruct (Hdt1 eq_refl) as [-> _]. reflexivity.
    - destruct (Hdt0 eq_refl) as (H1 & H3 & _). apply Qltb_false. lra. }
  assert (Hd6 : Qltb (fst dt) 0.4 = false → Qltb (fst dt) 0.6 = false).
  { rewrite Hd4. intros ->. destruct (Hdt0 eq_refl) as (H1 & H3 & _).
    apply Qltb_false. lra. }
  split; [intros H; apply Hlr1, H|].
  split; [intros H; destruct (Hlr0 H) as (H1 & H3 & _); split; assumption|].
  split; [intros H; apply Hdt1, H|].
  split; [intros H; destruct (Hdt0 H) as (H1 & H3 & _); split; assumption|].
  split; [reflexivity|]. split; [reflexivity|].
  split.
  { destruct loc_hit, dev_hit.
    - destruct (Hdt1 eq_refl) as [_ ->]. destruct (Hlr1 eq_refl) as [_ ->]. lia.
    - destruct (Hdt0 eq_refl) as (_ & _ & ->).
      destruct (Hlr1 eq_refl) as [_ ->]. simpl. lia.
    - destruct (Hdt1 eq_refl) as [_ ->].
      destruct (Hlr0 eq_refl) as (_ & _ & ->). simpl. lia.
    - destruct (Hdt0 eq_refl) as (_ & _ & ->).
      destruct (Hlr0 eq_refl) as (_ & _ & ->). simpl. lia. }
  match goal with
  | |- ∃ factors, _analyze_risk_factors ?r = _ ∧ _ =>
      destruct (_analyze_risk_factors_elem r) as (factors & Hrun & Helem)
  end.
  exists factors. split; [exact Hrun|]. clear Hrun.
  cbn [ml_location_risk ml_device_trust ml_hour ml_day_of_week ml_balance
       ml_amount] in Helem.
  rewrite Hl6, Hd4 in Helem.
  rewrite !Helem.
  split; [|split; [|split; [|split]]].
  - split.
    + intros [(_ & [[_ H] | (_ & _ & H)]) | [[_ H] | [[[H _] | (_ & _ & H)]
                | [[[_ H] | (_ & _ & H)] | [_ H]]]]];
        try discriminate H; exact H.
    + intros H. right. right. left. left. split; [exact H|reflexivity].
  - intros [(_ & [[_ H] | (_ & _ & H)]) | [[_ H] | [[[_ H] | (H6 & H4 & _)]
              | [[[_ H] | (_ & _ & H)] | [_ H]]]]];
      try discriminate H.
    rewrite <- Hl6 in H6. rewrite (Hl4 H6) in H4. discriminate.
  - split.
    + intros [(_ & [[_ H] | (_ & _ & H)]) | [[_ H] | [[[_ H] | (_ & _ & H)]
                | [[[H _] | (_ & _ & H)] | [_ H]]]]];
        try discriminate H; exact H.
    + intros H. right. right. right. left. left.
      split; [exact H|reflexivity].
  - intros [(_ & [[_ H] | (_ & _ & H)]) | [[_ H] | [[[_ H] | (_ & _ & H)]
              | [[[_ H] | (H4 & H6 & _)] | [_ H]]]]];
      try discriminate H.
    rewrite <- Hd4 in H4. rewrite (Hd6 H4) in H6. discriminate.
  - intros Hb. rewrite Hb. split.
    + intros [(H & _) | [[_ H] | [[[_ H] | (_ & _ & H)]
                | [[[_ H] | (_ & _ & H)] | [_ H]]]]];
        discriminate H.
    + intros [(H & _) | [[_ H] | [[[_ H] | (_ & _ & H)]
                | [[[_ H] | (_ & _ & H)] | [_ H]]]]];
        discriminate H.
Qed.

Lemma mapping_feeds_risk_factors_witness :
  draws_in_unit example_draws
  ∧ ∃ row g',
      map_transaction_to_ml_format lower read_float read_int
        request_suspicious 3 6 example_draws = inr (row, g')
      ∧ py_lower lower (dict_get request_suspicious "location" (PStr ""))
        = inr "unknown"
      ∧ py_lower lower (dict_get request_suspicious "device_id" (PStr ""))
        = inr "dev000"
      ∧ ml_location_risk row = 0.8%Q
      ∧ cursor g' = 0%nat
      ∧ ∃ factors,
          _analyze_risk_factors row = inr factors
          ∧ location_high ∈ factors
          ∧ device_high ∈ factors.
Proof.
  split; [exact example_draws_in_unit|].
  assert (Hmap : ∃ row g',
             map_transaction_to_ml_format lower read_float read_int
               request_suspicious 3 6 example_draws = inr (row, g')).
  { eexists. eexists. vm_compute. reflexivity. }
  destruct Hmap as (row & g' & Hmap).
  assert (Hloc : py_lower lower
                   (dict_get request_suspicious "location" (PStr ""))
                 = inr "unknown") by reflexivity.
  assert (Hdev : py_lower lower
                   (dict_get request_suspicious "device_id" (PStr ""))
                 = inr "dev000") by reflexivity.
  exists row, g'. split; [exact Hmap|]. split; [exact Hloc|].
  split; [exact Hdev|].
  destruct (mapping_feeds_risk_factors lower read_float read_int
              request_suspicious 3 6 example_draws g' row "unknown" "dev000"
              example_draws_in_unit Hmap Hloc Hdev)
    as (Hlr & _ & _ & _ & _ & _ & Hcur & factors & Hrun & Hlh & _ & Hdh & _).
  split; [apply Hlr; reflexivity|]. split; [exact Hcur|].
  exists factors. split; [exact Hrun|].
  split; [apply Hlh; reflexivity|apply Hdh; reflexivity].
Defined.

(** ** Listing and reactivation *)

Lemma lookup_all_consistent (o : ModelOrchestrator) (ids : list string) :
  flags_consistent o →
  (∀ mid, mid ∈ ids → mid ∈ active_models o) →
  ∀ l, lookup_all (models o) ids = inr l →
       map model_id l = ids ∧ Forall (fun m => is_active m = true) l.
Proof.
  intros [_ Hfl]. induction ids as [|mid ids IH]; intros Hin l; simpl.
  - intros H. injection H as <-. split; [reflexivity|constructor].
  - unfold getitem. destruct (models o !! mid) as [m|] eqn:Hm; simpl;
      [|discriminate].
    destruct (lookup_all (models o) ids) as [e|ms] eqn:Hms; simpl;
      [discriminate|].
    intros H. injection H as <-.
    destruct (IH ltac:(intros x Hx; apply Hin, elem_of_cons; auto) ms eq_refl)
      as [Hids Hact].
    destruct (Hfl mid m Hm) as [Hid Hflag]. simpl. split.
    + rewrite Hid, Hids. reflexivity.
    + constructor; [|exact Hact]. apply Hflag, Hin, elem_of_cons. auto.
Qed.

(** X17.  On a registry where no id was registered twice, [list_active_models]
    raises nothing and returns, in the order of the active list, one
    descriptor per active id, each stored under that id and each with
    [is_active] set. *)
Theorem list_active_models_lists_active (o : ModelOrchestrator) :
  registry_ok o → flags_consistent o →
  ∃ l, list_active_models o = inr l
       ∧ map model_id l = active_models o
       ∧ Forall (fun m => is_active m = true) l
       ∧ ∀ i mid, active_models o !! i = Some mid →
           l !! i = get_model_metadata mid o.
Proof.
  intros Hok Hfl.
  destruct (lookup_all_spec (models o) (active_models o)) as (l & Hl & _ & Hnth).
  { apply Hok. }
  exists l. split; [exact Hl|].
  destruct (lookup_all_consistent o (active_models o) Hfl
              ltac:(intros x Hx; exact Hx) l Hl) as [Hids Hact].
  split; [exact Hids|]. split; [exact Hact|exact Hnth].
Qed.

Lemma setup_models_consistent :
  flags_consistent (orchestrator (setup_models new_pipeline)).
Proof.
  change (flags_consistent
            (register_model if_v1 1
               (register_model gb_v1 1
                  (register_model rf_v1 1 new_orchestrator)))).
  repeat (apply register_model_consistent;
          [repeat apply register_model_ok; apply new_orchestrator_ok
          | |reflexivity]).
  exact new_orchestrator_consistent.
Qed.

Lemma list_active_models_lists_active_witness :
  let o := orchestrator (setup_models new_pipeline) in
  registry_ok o ∧ flags_consistent o
  ∧ list_active_models o = inr [rf_v1; gb_v1; if_v1].
Proof.
  cbv zeta.
  split; [exact setup_models_ok|]. split; [exact setup_models_consistent|].
  destruct (list_active_models_lists_active _ setup_models_ok
              setup_models_consistent) as (l & Hl & _).
  assert (H : list_active_models (orchestrator (setup_models new_pipeline))
              = inr [rf_v1; gb_v1; if_v1]) by reflexivity.
  rewrite Hl in H. rewrite Hl. exact H.
Defined.

Lemma list_remove_perm (x : string) (l : list string) :
  x ∈ l → l ≡ₚ x :: list_remove x l.
Proof.
  induction l as [|y l IH]; intros Hin.
  - apply elem_of_nil in Hin. contradiction.
  - simpl. case_bool_decide as Hxy.
    + subst y. reflexivity.
    + apply elem_of_cons in Hin as [-> | Hin]; [contradiction|].
      rewrite (IH Hin) at 1. apply Permutation_swap.
Qed.

(** X18.  Deactivating an active model and activating it again keeps the same
    set of active models and the same weights, but moves the model to the
    end of the active list (the order in which the models are asked). *)
Theorem reactivation_moves_to_end (o : ModelOrchestrator) (mid : string) :
  registry_ok o → NoDup (active_models o) → mid ∈ active_models o →
  ∃ o1,
    deactivate_model mid o = inr o1
    ∧ (mid ∉ active_models o1)
    ∧ active_models (activate_model mid o1)
      = (list_remove mid (active_models o) ++ [mid])%list
    ∧ active_models (activate_model mid o1) ≡ₚ active_models o
    ∧ model_weights (activate_model mid o1) = model_weights o.
Proof.
  intros Hok Hnd Hin.
  destruct Hok as [Ha Hw]. destruct (Ha mid Hin) as [m Hm].
  destruct (list_remove_NoDup mid _ Hnd) as [_ Hrem].
  assert (Hl : in_list mid (active_models o) = true)
    by (apply in_list_true, Hin).
  set (o1 := mkOrchestrator (<[mid := set_is_active false m]> (models o))
               (model_weights o) (list_remove mid (active_models o))).
  assert (Hde : deactivate_model mid o = inr o1).
  { unfold deactivate_model, getitem. rewrite Hl, Hm. reflexivity. }
  assert (Hnot : mid ∉ active_models o1).
  { simpl. rewrite Hrem. tauto. }
  assert (Hre : activate_model mid o1
                = mkOrchestrator
                    (alter (set_is_active true) mid (models o1))
                    (model_weights o)
                    (list_remove mid (active_models o) ++ [mid])).
  { assert (Hd : in_dict mid (models o1) = true).
    { apply in_dict_true. simpl. rewrite lookup_insert_eq. eauto. }
    assert (Hl1 : in_list mid (active_models o1) = false).
    { apply bool_decide_eq_false_2. exact Hnot. }
    unfold activate_model. rewrite Hd, Hl1. reflexivity. }
  exists o1. split; [exact Hde|]. split; [exact Hnot|].
  rewrite Hre. simpl. split; [reflexivity|]. split; [|reflexivity].
  rewrite (list_remove_perm mid _ Hin) at 2.
  rewrite Permutation_app_comm. reflexivity.
Qed.

Lemma reactivation_moves_to_end_witness :
  let o := orchestrator (setup_models new_pipeline) in
  registry_ok o ∧ NoDup (active_models o) ∧ "rf_v1" ∈ active_models o
  ∧ ∃ o1,
      deactivate_model "rf_v1" o = inr o1
      ∧ active_models (activate_model "rf_v1" o1)
        = ["gb_v1"; "if_v1"; "rf_v1"].
Proof.
  cbv zeta.
  assert (Hnd : NoDup (active_models (orchestrator (setup_models new_pipeline)))).
  { apply (bool_decide_unpack _). vm_compute. exact I. }
  assert (Hin : "rf_v1" ∈ active_models (orchestrator (setup_models new_pipeline)))
    by (apply elem_of_cons; left; reflexivity).
  split; [exact setup_models_ok|]. split; [exact Hnd|]. split; [exact Hin|].
  destruct (reactivation_moves_to_end _ "rf_v1" setup_models_ok Hnd Hin)
    as (o1 & Hde & _ & Hact & _).
  exists o1. split; [exact Hde|]. rewrite Hact. reflexivity.
Defined.
